(** * PSD Procedural Logic Engine: remapper geometry, generative gate, credits

  A shallow embedding of the computational core of
  - [RemapperNode] (target-container resolution, scale and anchor,
    the recursive [transformLayers], the generative injection gate and
    the payload assembly), and
  - [ProceduralStoreProvider] ([consumeCredit] and the credit cell, the
    setters of the registries), and
  - the rest of the node: the instances and their edges, the sync of the
    payloads to the store, the preview overlay and the lazy synthesis of
    drafts.

  Conventions of the embedding.
  - A JavaScript [number] that carries a coordinate or a scale is an exact
    rational ([Q]); equalities between computed coordinates are therefore
    stated with [==].  Rounding, [NaN] and the infinities (which the source
    can only produce by dividing by a zero source width or height) are
    outside the model.  Credit balances are integers ([Z]).
  - A JavaScript string is the sequence of the bytes of its UTF-8 text.
    Equality, concatenation and the tests on ASCII prefixes and digits are
    the same on both; [substring] counts bytes where the source counts
    UTF-16 code units, which agree on strings of ASCII characters.
  - An optional field ([name?: string]) is an [option]; JavaScript
    truthiness is written out where the source tests it.
  - [sourceData = { ready: false }] is [None]; a ready side is [Some] of
    the record the source builds. *)

From Stdlib Require Import QArith Qminmax ZArith List String Ascii Bool Lia Lqa.
From Stdlib Require Import NArith DecimalString DecimalNat.
Import ListNotations.

Open Scope string_scope.
Open Scope Q_scope.

(* ===================================================================== *)
(** ** Credit store (store/ProceduralContext.tsx)                         *)
(* ===================================================================== *)

Module Store.

(** The React state cell behind [const [userCredits, setUserCredits] =
    useState(5)].  [rendered] is the value the last render bound to the
    name [userCredits]: it is what the closure of [consumeCredit]
    (rebuilt by [useCallback] only when [userCredits] changes, that is at
    a render) compares against.  [current] is the cell itself, the value
    a functional update [prev => ...] receives. *)
Record CreditState : Set := mkCredits { rendered : Z; current : Z }.

Definition initialCredits : CreditState := mkCredits 5 5.

(** A render hands the cell's value to the next closures. *)
Definition render (s : CreditState) : CreditState :=
  mkCredits (current s) (current s).

(** [if (userCredits >= amount) { setUserCredits(prev => prev - amount);
     return true; } return false;] *)
Definition consumeCredit (amount : Z) (s : CreditState) : bool * CreditState :=
  if (rendered s >=? amount)%Z
  then (true, mkCredits (rendered s) (current s - amount))
  else (false, s).

(** [setUserCredits(prev => prev + amount)] *)
Definition addCredits (amount : Z) (s : CreditState) : CreditState :=
  mkCredits (rendered s) (current s + amount).

(** [setUserCredits(amount)] *)
Definition setCredits (amount : Z) (s : CreditState) : CreditState :=
  mkCredits (rendered s) amount.

(** A batch of consumptions issued from one render (one event handler):
    every call runs the same closure. *)
Fixpoint consumeAll (amounts : list Z) (s : CreditState) : list bool * CreditState :=
  match amounts with
  | [] => ([], s)
  | a :: rest =>
      let (ok, s1) := consumeCredit a s in
      let (oks, s2) := consumeAll rest s1 in
      (ok :: oks, s2)
  end.

(** Consumptions separated by renders: each call sees the balance the
    previous one left. *)
Fixpoint consumeEach (amounts : list Z) (s : CreditState) : list bool * CreditState :=
  match amounts with
  | [] => ([], s)
  | a :: rest =>
      let (ok, s1) := consumeCredit a s in
      let (oks, s2) := consumeEach rest (render s1) in
      (ok :: oks, s2)
  end.

End Store.

(* ===================================================================== *)
(** ** Handle resolver: the container of a template a handle names        *)
(* ===================================================================== *)

Record Rect : Set := mkRect { rx : Q; ry : Q; rw : Q; rh : Q }.

Module Resolver.

(** Modelled from the spec: the declaration of a template container lives
    in [../types]; the fields are the ones the resolver reads ([name],
    [originalName], [bounds]). *)
Record ContainerDefinition : Set := mkContainer {
  name : string;
  originalName : option string;
  bounds : Rect
}.

Definition findByName (containers : list ContainerDefinition) (n : string)
  : option ContainerDefinition :=
  find (fun c => String.eqb (name c) n) containers.

Definition isDigit (c : ascii) : bool :=
  ((48 <=? nat_of_ascii c) && (nat_of_ascii c <=? 57))%nat.

(** [parseInt(digits, 10)] on a string of decimal digits, most
    significant first; [None] when a character is not a digit. *)
Fixpoint parseDigits (acc : N) (s : string) : option N :=
  match s with
  | EmptyString => Some acc
  | String c rest =>
      if isDigit c
      then parseDigits (acc * 10 + (N_of_ascii c - 48))%N rest
      else None
  end.

Definition dropPrefix (n : nat) (s : string) : string :=
  substring n (String.length s - n) s.

(** [handle.match(/^target-out-(\d+)$/)] followed by [parseInt]: the
    index when the handle is [target-out-] and one or more digits. *)
Definition indexMatch (handle : string) : option N :=
  if prefix "target-out-" handle
  then match dropPrefix 11 handle with
       | EmptyString => None
       | digits => parseDigits 0%N digits
       end
  else None.

(** The source's chain on the mutable [containerDefinition]. *)
Definition resolveContainer (containers : list ContainerDefinition) (handle : string)
  : option ContainerDefinition :=
  (* Strategy A: exact name match *)
  let containerDefinition := findByName containers handle in
  (* Strategy B: bounds prefix match *)
  let containerDefinition :=
    match containerDefinition with
    | None =>
        if prefix "slot-bounds-" handle
        then let clean := dropPrefix 12 handle in findByName containers clean
        else containerDefinition
    | Some _ => containerDefinition
    end in
  (* Strategy C: indexed handle match *)
  let containerDefinition :=
    match containerDefinition with
    | None =>
        match indexMatch handle with
        | Some index =>
            match nth_error containers (N.to_nat index) with
            | Some c => Some c
            | None => containerDefinition
            end
        | None => containerDefinition
        end
    | Some _ => containerDefinition
    end in
  (* Strategy D: fallback for single container templates *)
  let containerDefinition :=
    match containerDefinition with
    | None =>
        if (List.length containers =? 1)%nat
        then nth_error containers 0
        else containerDefinition
    | Some _ => containerDefinition
    end in
  containerDefinition.

(** [targetData]: the exposed name is [originalName || name]. *)
Record TargetData : Set := mkTarget {
  target_name : string;
  target_bounds : Rect
}.

(** [o || d] for an optional string [o] and a string [d]. *)
Definition orElseName (o : option string) (d : string) : string :=
  match o with
  | Some s => if String.eqb s "" then d else s
  | None => d
  end.

Definition resolveTarget (containers : list ContainerDefinition) (handle : string)
  : option TargetData :=
  match resolveContainer containers handle with
  | Some c => Some (mkTarget (orElseName (originalName c) (name c)) (bounds c))
  | None => None
  end.

(** The four strategies of the specification, one function each, and
    the first of them that yields a container. *)
Definition strategyA (cs : list ContainerDefinition) (handle : string) :=
  findByName cs handle.

Definition strategyB (cs : list ContainerDefinition) (handle : string) :=
  if prefix "slot-bounds-" handle
  then findByName cs (dropPrefix 12 handle)
  else None.

Definition strategyC (cs : list ContainerDefinition) (handle : string) :=
  match indexMatch handle with
  | Some index => nth_error cs (N.to_nat index)
  | None => None
  end.

Definition strategyD (cs : list ContainerDefinition) (handle : string) :=
  match cs with
  | [c] => Some c
  | _ => None
  end.

Fixpoint firstMatch (strategies : list (list ContainerDefinition -> string -> option ContainerDefinition))
         (cs : list ContainerDefinition) (handle : string) : option ContainerDefinition :=
  match strategies with
  | [] => None
  | s :: rest =>
      match s cs handle with
      | Some c => Some c
      | None => firstMatch rest cs handle
      end
  end.

Definition resolveInOrder : list ContainerDefinition -> string -> option ContainerDefinition :=
  firstMatch [strategyA; strategyB; strategyC; strategyD].

(** The same order in the specification's own terms, on the container list
    and the characters of the handle: [firstNamed] is the first container
    of a given name, [indexedHandle] a handle made of [target-out-] and one
    or more decimal digits that read as the index; [ResolvesTo] lists the
    strategies, each one applying only when those before it found
    nothing. *)
Definition firstNamed (cs : list ContainerDefinition) (n : string)
           (c : ContainerDefinition) : Prop :=
  exists before after,
    cs = (before ++ c :: after)%list
    /\ name c = n
    /\ forall d, In d before -> name d <> n.

Definition noneNamed (cs : list ContainerDefinition) (n : string) : Prop :=
  forall d, In d cs -> name d <> n.

Definition indexedHandle (handle : string) (index : nat) : Prop :=
  exists digits d,
    handle = "target-out-" ++ digits
    /\ digits <> ""
    /\ NilEmpty.uint_of_string digits = Some d
    /\ Nat.of_uint d = index.

Inductive ResolvesTo (cs : list ContainerDefinition) (handle : string)
  : option ContainerDefinition -> Prop :=
| ByExactName (c : ContainerDefinition) :
    firstNamed cs handle c ->
    ResolvesTo cs handle (Some c)
| ByBoundsPrefix (clean : string) (c : ContainerDefinition) :
    noneNamed cs handle ->
    handle = "slot-bounds-" ++ clean ->
    firstNamed cs clean c ->
    ResolvesTo cs handle (Some c)
| ByIndex (index : nat) (c : ContainerDefinition) :
    noneNamed cs handle ->
    (forall clean, handle = "slot-bounds-" ++ clean -> noneNamed cs clean) ->
    indexedHandle handle index ->
    nth_error cs index = Some c ->
    ResolvesTo cs handle (Some c)
| BySingleContainer (c : ContainerDefinition) :
    noneNamed cs handle ->
    (forall clean, handle = "slot-bounds-" ++ clean -> noneNamed cs clean) ->
    (forall index, indexedHandle handle index -> nth_error cs index = None) ->
    cs = [c] ->
    ResolvesTo cs handle (Some c)
| Unresolved :
    noneNamed cs handle ->
    (forall clean, handle = "slot-bounds-" ++ clean -> noneNamed cs clean) ->
    (forall index, indexedHandle handle index -> nth_error cs index = None) ->
    List.length cs <> 1%nat ->
    ResolvesTo cs handle None.

End Resolver.

(* ===================================================================== *)
(** ** Data model of the transform engine                                 *)
(* ===================================================================== *)

(** Modelled from the spec: [LayoutStrategy] and its overrides are declared
    in [../types]; the fields are the ones the engine reads. *)
Record Override : Set := mkOverride {
  layerId : string;
  xOffset : Q;
  yOffset : Q;
  individualScale : Q
}.

Record LayoutStrategy : Set := mkStrategy {
  suggestedScale : Q;
  anchor : string;
  generativePrompt : option string;
  isExplicitIntent : bool;
  overrides : option (list Override)
}.

(* The layer trees nest through [list]; their induction principle is
   [layer_tree_ind] below. *)
#[local] Unset Elimination Schemes.

(** Modelled from the spec: [SerializableLayer] is declared in [../types];
    the fields are those the engine copies or builds for a layer (the
    generative prompt is a field of transformed layers only). *)
Inductive SerializableLayer : Set := mkLayer {
  layer_id : string;
  layer_name : string;
  layer_type : string;
  layer_isVisible : bool;
  layer_opacity : Q;
  layer_coords : Rect;
  layer_children : option (list SerializableLayer)
}.

#[local] Set Elimination Schemes.

Record Transform : Set := mkTransform {
  scaleX : Q;
  scaleY : Q;
  offsetX : Q;
  offsetY : Q
}.

#[local] Unset Elimination Schemes.

Inductive TransformedLayer : Set := mkTransformed {
  t_id : string;
  t_name : string;
  t_type : string;
  t_isVisible : bool;
  t_opacity : Q;
  t_coords : Rect;
  t_transform : Transform;
  t_generativePrompt : option string;
  t_children : option (list TransformedLayer)
}.

#[local] Set Elimination Schemes.

Inductive Status : Set := success | awaiting_confirmation | error.

Record Metrics : Set := mkMetrics {
  metrics_source : Q * Q;
  metrics_target : Q * Q
}.

Record TransformedPayload : Set := mkPayload {
  payload_status : Status;
  payload_sourceNodeId : option string;
  payload_sourceContainer : option string;
  payload_targetContainer : string;
  payload_layers : list TransformedLayer;
  payload_scaleFactor : Q;
  payload_metrics : Metrics;
  payload_requiresGeneration : bool;
  payload_previewUrl : option string;
  payload_isConfirmed : option bool
}.

(** The ready [sourceData] of an instance. *)
Record SourceData : Set := mkSource {
  source_name : option string;
  source_nodeId : option string;
  source_layers : list SerializableLayer;
  source_originalBounds : Rect;
  source_aiStrategy : option LayoutStrategy;
  source_previewUrl : option string
}.

(** JavaScript truthiness of the optional values the engine tests. *)
Definition truthyString (s : option string) : bool :=
  match s with
  | Some v => negb (String.eqb v "")
  | None => false
  end.

Definition truthyBool (b : option bool) : bool :=
  match b with
  | Some v => v
  | None => false
  end.

(** [a || b] on optional strings. *)
Definition orElse (a b : option string) : option string :=
  if truthyString a then a else b.

(** [a > b] on numbers. *)
Definition Qgtb (a b : Q) : bool := negb (Qle_bool a b).

(** Every node of a transformed forest, parents before children. *)
Fixpoint allLayers (t : TransformedLayer) : list TransformedLayer :=
  t :: match t_children t with
       | Some cs => flat_map allLayers cs
       | None => []
       end.

#[local] Unset Elimination Schemes.

(** What a transformed node must share with its source layer. *)
Inductive Shape : Set :=
  ShapeNode (id name type : string) (isVisible : bool) (opacity : Q)
            (children : option (list Shape)).

#[local] Set Elimination Schemes.

Fixpoint shapeOfLayer (l : SerializableLayer) : Shape :=
  ShapeNode (layer_id l) (layer_name l) (layer_type l) (layer_isVisible l)
            (layer_opacity l)
            (match layer_children l with
             | Some cs => Some (map shapeOfLayer cs)
             | None => None
             end).

Fixpoint shapeOfTransformed (t : TransformedLayer) : Shape :=
  ShapeNode (t_id t) (t_name t) (t_type t) (t_isVisible t) (t_opacity t)
            (match t_children t with
             | Some cs => Some (map shapeOfTransformed cs)
             | None => None
             end).

(* ===================================================================== *)
(** ** Transform and gate engine ([RemapperNode], step 3 of an instance)  *)
(* ===================================================================== *)

Section Engine.

(** Modelled from the spec: the constant [MAX_BOUNDARY_VIOLATION_PERCENT]
    is exported by [../types]; the engine is parametric in its value. *)
Variable MAX_BOUNDARY_VIOLATION_PERCENT : Q.

Variables sourceRect targetRect : Rect.
Variable strategy : option LayoutStrategy.

Record Placement : Set := mkPlacement {
  scale : Q;
  anchorX : Q;
  anchorY : Q
}.

(** MATH: default geometric logic, then the strategy injected in the
    source data. *)
Definition computePlacement : Placement :=
  let ratioX := rw targetRect / rw sourceRect in
  let ratioY := rh targetRect / rh sourceRect in
  let scale := Qmin ratioX ratioY in
  match strategy with
  | Some st =>
      let scale := suggestedScale st in
      let scaledW := rw sourceRect * scale in
      let scaledH := rh sourceRect * scale in
      let anchorX := rx targetRect + (rw targetRect - scaledW) / 2 in
      let anchorY :=
        if String.eqb (anchor st) "TOP" then ry targetRect
        else if String.eqb (anchor st) "BOTTOM"
             then ry targetRect + (rh targetRect - scaledH)
             else ry targetRect + (rh targetRect - scaledH) / 2 in
      mkPlacement scale anchorX anchorY
  | None =>
      let scaledW := rw sourceRect * scale in
      let scaledH := rh sourceRect * scale in
      let anchorX := rx targetRect + (rw targetRect - scaledW) / 2 in
      let anchorY := ry targetRect + (rh targetRect - scaledH) / 2 in
      mkPlacement scale anchorX anchorY
  end.

Definition strategyUsed : bool :=
  match strategy with Some _ => true | None => false end.

(** [strategy?.overrides?.find(o => o.layerId === layer.id)] *)
Definition findOverride (id : string) : option Override :=
  match strategy with
  | Some st =>
      match overrides st with
      | Some os => find (fun o => String.eqb (layerId o) id) os
      | None => None
      end
  | None => None
  end.

Section TransformLayers.

Variable placement : Placement.

(** 1. Geometric baseline (global relative).  [relX] and [relY] divide by
    the source width and height; the quotient of [Q] is the source's for a
    non-zero divisor, while for a zero the source computes [NaN] and [Q]
    gives 0: what is proved of values that depend on a baseline speaks of
    the source for a source rect of non-zero width and height. *)
Definition geomX (layer : SerializableLayer) : Q :=
  let relX := (rx (layer_coords layer) - rx sourceRect) / rw sourceRect in
  anchorX placement + relX * (rw sourceRect * scale placement).

Definition geomY (layer : SerializableLayer) : Q :=
  let relY := (ry (layer_coords layer) - ry sourceRect) / rh sourceRect in
  anchorY placement + relY * (rh sourceRect * scale placement).

(** The state of the loop body after steps 2 and 3 (inherited delta, AI
    override), before the boundary enforcement of step 4. *)
Record Placed : Set := mkPlaced {
  finalX : Q;
  finalY : Q;
  layerScaleX : Q;
  layerScaleY : Q;
  currentDeltaX : Q;
  currentDeltaY : Q
}.

Definition placeLayer (layer : SerializableLayer) (parentDeltaX parentDeltaY : Q) : Placed :=
  (* 2. Apply inherited delta *)
  let finalX := geomX layer + parentDeltaX in
  let finalY := geomY layer + parentDeltaY in
  let layerScaleX := scale placement in
  let layerScaleY := scale placement in
  (* 3. Apply AI overrides *)
  let currentDeltaX := parentDeltaX in
  let currentDeltaY := parentDeltaY in
  match findOverride (layer_id layer) with
  | Some override =>
      let aiX := rx targetRect + xOffset override in
      let aiY := ry targetRect + yOffset override in
      let finalX := aiX in
      let finalY := aiY in
      let currentDeltaX := finalX - geomX layer in
      let currentDeltaY := finalY - geomY layer in
      let layerScaleX := layerScaleX * individualScale override in
      let layerScaleY := layerScaleY * individualScale override in
      mkPlaced finalX finalY layerScaleX layerScaleY currentDeltaX currentDeltaY
  | None =>
      mkPlaced finalX finalY layerScaleX layerScaleY currentDeltaX currentDeltaY
  end.

(** 4. Boundary enforcement (clamping). *)
Definition bleedY : Q := rh targetRect * MAX_BOUNDARY_VIOLATION_PERCENT.
Definition minY : Q := ry targetRect - bleedY.
Definition maxY : Q := ry targetRect + rh targetRect + bleedY.

(** [Math.max(minY, Math.min(finalY, maxY))] *)
Definition clampY (finalY : Q) : Q := Qmax minY (Qmin finalY maxY).

Fixpoint transformLayer (layer : SerializableLayer) (parentDeltaX parentDeltaY : Q)
  {struct layer} : TransformedLayer :=
  let placed := placeLayer layer parentDeltaX parentDeltaY in
  let finalX := finalX placed in
  let finalY := clampY (finalY placed) in
  let newW := rw (layer_coords layer) * layerScaleX placed in
  let newH := rh (layer_coords layer) * layerScaleY placed in
  mkTransformed
    (layer_id layer) (layer_name layer) (layer_type layer)
    (layer_isVisible layer) (layer_opacity layer)
    (mkRect finalX finalY newW newH)
    (mkTransform (layerScaleX placed) (layerScaleY placed) finalX finalY)
    None
    (match layer_children layer with
     | Some children =>
         Some (map (fun child =>
                      transformLayer child (currentDeltaX placed) (currentDeltaY placed))
                   children)
     | None => None
     end).

Definition transformLayers (layers : list SerializableLayer)
           (parentDeltaX parentDeltaY : Q) : list TransformedLayer :=
  map (fun layer => transformLayer layer parentDeltaX parentDeltaY) layers.

End TransformLayers.

End Engine.

(** *** Generative injection logic gate *)

Record Gate : Set := mkGate {
  requiresGeneration : bool;
  status : Status;
  generativePromptUsed : option string
}.

(** 200% stretch safety limit. *)
Definition scaleThreshold : Q := 2.

Definition generativeGate (aiStrategy : option LayoutStrategy) (scale : Q)
           (isConfirmed : option bool) (userCredits : Z) : Gate :=
  let closed := mkGate false success None in
  match aiStrategy with
  | Some st =>
      if truthyString (generativePrompt st) then
        let isExplicit := isExplicitIntent st in
        let isHighStretch := Qgtb scale scaleThreshold in
        let hasCredits := (userCredits >? 0)%Z in
        (* Case 1: confirmed via UI *)
        if truthyBool isConfirmed && hasCredits
        then mkGate true success (generativePrompt st)
        (* Case 2: needs confirmation (explicit intent or high stretch) *)
        else if isExplicit || isHighStretch
             then mkGate false awaiting_confirmation None
             (* Case 3: geometric fallback *)
             else closed
      else closed
  | None => closed
  end.

(** Every character of the string is an ASCII character: the string has
    as many bytes as it has UTF-16 code units, and its byte prefixes are
    its [substring(0, n)]. *)
Definition asciiOnly (s : string) : bool :=
  forallb (fun c => (nat_of_ascii c <? 128)%nat) (list_ascii_of_string s).

(** The synthetic layer: [gen-layer-<source name>], sized to the target.
    The [name] cuts the prompt with [substring(0, 20)], which counts
    UTF-16 code units where [substring 0 20] counts bytes: the modelled
    name is the source's for a prompt that is [asciiOnly]; the other
    fields do not depend on the encoding. *)
Definition genLayer (sourceName : option string) (targetRect : Rect)
           (generativePromptUsed : string) : TransformedLayer :=
  mkTransformed
    ("gen-layer-" ++ Resolver.orElseName sourceName "unknown")
    ("✨ AI Gen: " ++ substring 0 20 generativePromptUsed ++ "...")
    "generative"
    true
    1
    (mkRect (rx targetRect) (ry targetRect) (rw targetRect) (rh targetRect))
    (mkTransform 1 1 (rx targetRect) (ry targetRect))
    (Some generativePromptUsed)
    None.

(** [if (requiresGeneration && generativePromptUsed)
       transformedLayers.unshift(genLayer)] *)
Definition injectGenerative (gate : Gate) (sourceName : option string)
           (targetRect : Rect) (transformedLayers : list TransformedLayer)
  : list TransformedLayer :=
  if requiresGeneration gate && truthyString (generativePromptUsed gate)
  then match generativePromptUsed gate with
       | Some prompt => genLayer sourceName targetRect prompt :: transformedLayers
       | None => transformedLayers
       end
  else transformedLayers.

(** *** Payload of one instance

    [confirmed] is [confirmations[i]], [localPreview] is [previews[i]];
    no payload is produced unless both sides are ready. *)
Definition computePayload (MAX_BOUNDARY_VIOLATION_PERCENT : Q)
           (source : option SourceData) (target : option Resolver.TargetData)
           (confirmed : option bool) (userCredits : Z)
           (localPreview : option string) : option TransformedPayload :=
  match source, target with
  | Some sourceData, Some targetData =>
      let sourceRect := source_originalBounds sourceData in
      let targetRect := Resolver.target_bounds targetData in
      let strategy := source_aiStrategy sourceData in
      let placement := computePlacement sourceRect targetRect strategy in
      let transformedLayers :=
        transformLayers MAX_BOUNDARY_VIOLATION_PERCENT sourceRect targetRect
                        strategy placement (source_layers sourceData) 0 0 in
      let isConfirmed := confirmed in
      let gate := generativeGate strategy (scale placement) isConfirmed userCredits in
      let transformedLayers :=
        injectGenerative gate (source_name sourceData) targetRect transformedLayers in
      Some (mkPayload
              (status gate)
              (source_nodeId sourceData)
              (source_name sourceData)
              (Resolver.target_name targetData)
              transformedLayers
              (scale placement)
              (mkMetrics (rw sourceRect, rh sourceRect) (rw targetRect, rh targetRect))
              (requiresGeneration gate)
              (orElse (source_previewUrl sourceData) localPreview)
              isConfirmed)
  | _, _ => None
  end.

(** [sourceData.aiStrategy?.generativePrompt] *)
Definition optPrompt (aiStrategy : option LayoutStrategy) : option string :=
  match aiStrategy with
  | Some st => generativePrompt st
  | None => None
  end.

(** *** Concrete inputs used by the examples below *)

(** The end-to-end scenario of the specification. *)
Definition scenario_source : Rect := mkRect 0 0 100 100.
Definition scenario_target : Rect := mkRect 0 0 50 200.
Definition scenario_root : SerializableLayer :=
  mkLayer "root" "Root" "group" true 1 scenario_source None.
Definition scenario_sourceData : SourceData :=
  mkSource (Some "BG") (Some "psd-1") [scenario_root] scenario_source None None.
Definition scenario_targetData : Resolver.TargetData :=
  Resolver.mkTarget "BG" scenario_target.

(** A title group with one glyph and a badge, remapped into a 100 x 100
    slot under a strategy that overrides the title (50 above the slot's
    top edge) and the badge (far outside the slot on both axes). *)
Definition demo_source : Rect := mkRect 0 0 100 100.
Definition demo_target : Rect := mkRect 0 0 100 100.
Definition demo_glyph : SerializableLayer :=
  mkLayer "glyph" "Glyph" "layer" true 1 (mkRect 5 80 10 10) None.
Definition demo_title : SerializableLayer :=
  mkLayer "title" "Title" "group" true 1 (mkRect 0 0 40 20) (Some [demo_glyph]).
Definition demo_badge : SerializableLayer :=
  mkLayer "badge" "Badge" "layer" true 1 (mkRect 60 60 10 10) None.
Definition demo_override : Override := mkOverride "title" 10 (-50) 2.
Definition demo_badge_override : Override := mkOverride "badge" 1000 1000 1.
Definition demo_strategy : LayoutStrategy :=
  mkStrategy 1 "TOP" (Some "a sunset sky") true
             (Some [demo_override; demo_badge_override]).
Definition demo_layers : list SerializableLayer := [demo_title; demo_badge].
Definition demo_sourceData : SourceData :=
  mkSource (Some "Title") (Some "psd-1") demo_layers demo_source
           (Some demo_strategy) None.
Definition demo_placement : Placement :=
  computePlacement demo_source demo_target (Some demo_strategy).
Definition demo_targetData : Resolver.TargetData :=
  Resolver.mkTarget "Title" demo_target.
Definition demo_bleed : Q := 1 # 20.

(* ===================================================================== *)
(** ** The rest of the remapper node and of the store                     *)
(* ===================================================================== *)

(** A template literal [`${i}`] on a non-negative integer. *)
Definition decimal (n : nat) : string :=
  NilEmpty.string_of_uint (Nat.to_uint n).

(** A JavaScript object used as a map from string keys
    ([Record<string, V>]).  The code reads it by key, writes it by spread
    ([{ ...prev, [k]: v }]) and deletes by rest destructuring; it never
    enumerates it. *)
Definition Dict (V : Type) : Type := string -> option V.

Definition dict_empty {V : Type} : Dict V := fun _ => None.

Definition dict_set {V : Type} (k : string) (v : V) (m : Dict V) : Dict V :=
  fun k' => if String.eqb k' k then Some v else m k'.

Definition dict_remove {V : Type} (k : string) (m : Dict V) : Dict V :=
  fun k' => if String.eqb k' k then None else m k'.

(** [registry[nodeId]?.[handleId]] on a registry of registries. *)
Definition lookupEntry {V : Type} (m : Dict (Dict V)) (nodeId handleId : string)
  : option V :=
  match m nodeId with
  | Some nodeRecord => nodeRecord handleId
  | None => None
  end.

(** [Record<number, V>], keyed by instance index. *)
Definition Flags (V : Type) : Type := nat -> option V.

Definition flag_set {V : Type} (i : nat) (v : V) (m : Flags V) : Flags V :=
  fun j => if Nat.eqb j i then Some v else m j.

(** [a === b] on optional strings. *)
Definition optStringEqb (a b : option string) : bool :=
  match a, b with
  | Some x, Some y => String.eqb x y
  | None, None => true
  | _, _ => false
  end.

Definition isAwaiting (s : Status) : bool :=
  match s with
  | awaiting_confirmation => true
  | _ => false
  end.

Definition statusEqb (a b : Status) : bool :=
  match a, b with
  | success, success => true
  | awaiting_confirmation, awaiting_confirmation => true
  | error, error => true
  | _, _ => false
  end.

(** Every layer of a source forest, parents before children. *)
Fixpoint allSourceLayers (l : SerializableLayer) : list SerializableLayer :=
  l :: match layer_children l with
       | Some cs => flat_map allSourceLayers cs
       | None => []
       end.

(** [inner] lies within [outer], edges included. *)
Definition insideRect (inner outer : Rect) : Prop :=
  rx outer <= rx inner
  /\ rx inner + rw inner <= rx outer + rw outer
  /\ ry outer <= ry inner
  /\ ry inner + rh inner <= ry outer + rh outer.

(** The coords [transformLayers] emits for a layer that no override
    touches, under an inherited delta: baseline plus delta, y clamped, size
    scaled by the global scale. *)
Definition plainCoords (MAX_BOUNDARY_VIOLATION_PERCENT : Q)
           (sourceRect targetRect : Rect) (placement : Placement)
           (dx dy : Q) (l : SerializableLayer) : Rect :=
  mkRect (geomX sourceRect placement l + dx)
         (clampY MAX_BOUNDARY_VIOLATION_PERCENT targetRect
                 (geomY sourceRect placement l + dy))
         (rw (layer_coords l) * scale placement)
         (rh (layer_coords l) * scale placement).

(** A strategy stripped of its overrides. *)
Definition withoutOverrides (st : LayoutStrategy) : LayoutStrategy :=
  mkStrategy (suggestedScale st) (anchor st) (generativePrompt st)
             (isExplicitIntent st) None.

(** *** What the registries hold *)

(** Modelled from the spec: [MappingContext] and [TemplateMetadata] are
    declared in [../types]; the fields are the ones the two files read.
    The store also reads the [method] of a layout strategy, which the
    engine never does: [AnalystStrategy] is the strategy as the registries
    hold it, [strategy_layout] the part of it the engine reads. *)
Record AnalystStrategy : Set := mkAnalyst {
  strategy_method : string;
  strategy_layout : LayoutStrategy
}.

Record ContainerContext : Set := mkContainerContext {
  containerName : string;
  container_bounds : Rect
}.

Record MappingContext : Set := mkContext {
  context_container : ContainerContext;
  context_layers : list SerializableLayer;
  context_aiStrategy : option AnalystStrategy;
  context_previewUrl : option string;
  context_targetDimensions : option (Q * Q)
}.

Record TemplateMetadata : Set := mkTemplate {
  template_containers : list Resolver.ContainerDefinition
}.

(* ===================================================================== *)
(** ** Registries of the store                                            *)
(* ===================================================================== *)

Module Registry.

Section Register.

Variable V : Type.

(** [JSON.stringify(a) === JSON.stringify(b)].  The test [a === b] that
    precedes it in every setter (the same object) has no counterpart in a
    model without object identity; an object has the JSON text of itself,
    so the second test covers it. *)
Variable sameJson : V -> V -> bool.

(** [registerPsd]: [{ ...prev, [nodeId]: psd }] *)
Definition registerPsd (nodeId : string) (psd : V) (prev : Dict V) : Dict V :=
  dict_set nodeId psd prev.

(** [registerTemplate] *)
Definition registerTemplate (nodeId : string) (template : V) (prev : Dict V)
  : Dict V :=
  match prev nodeId with
  | Some current =>
      if sameJson current template then prev else dict_set nodeId template prev
  | None => dict_set nodeId template prev
  end.

(** The setter shared by [registerResolved], [registerPayload] and
    [registerAnalysis] in [store/ProceduralContext.tsx]. *)
Definition registerEntry (nodeId handleId : string) (value : V)
           (prev : Dict (Dict V)) : Dict (Dict V) :=
  let nodeRecord := match prev nodeId with Some r => r | None => dict_empty end in
  let updated := dict_set nodeId (dict_set handleId value nodeRecord) prev in
  match nodeRecord handleId with
  | Some current => if sameJson current value then prev else updated
  | None => updated
  end.

End Register.

Arguments registerPsd {V} _ _ _.
Arguments registerTemplate {V} _ _ _ _.
Arguments registerEntry {V} _ _ _ _ _.

(** [registerResolved] with the sanitation of the later revision: a
    context whose strategy has [method === 'GEOMETRIC'] loses its preview
    and its generative prompt before it is stored. *)
Definition sanitizeContext (context : MappingContext) : MappingContext :=
  match context_aiStrategy context with
  | Some st =>
      if String.eqb (strategy_method st) "GEOMETRIC"
      then mkContext (context_container context) (context_layers context)
                     (Some (mkAnalyst (strategy_method st)
                                      (mkStrategy
                                         (suggestedScale (strategy_layout st))
                                         (anchor (strategy_layout st))
                                         (Some "")
                                         (isExplicitIntent (strategy_layout st))
                                         (overrides (strategy_layout st)))))
                     None
                     (context_targetDimensions context)
      else context
  | None => context
  end.

Definition registerResolved (sameJson : MappingContext -> MappingContext -> bool)
           (nodeId handleId : string) (context : MappingContext)
           (prev : Dict (Dict MappingContext)) : Dict (Dict MappingContext) :=
  let sanitizedContext := sanitizeContext context in
  registerEntry sameJson nodeId handleId sanitizedContext prev.

(** The [payload-updated] event of a draft refresh ([type: 'DRAFT_REFRESH'],
    [isBillable: false]). *)
Record DraftRefresh : Set := mkDraftRefresh {
  event_nodeId : string;
  event_handleId : string;
  event_newPreviewUrl : option string
}.

(** [registerPayload] of the later revision: the new registry and the
    event it dispatches, if any. *)
Definition registerPayload (sameJson : TransformedPayload -> TransformedPayload -> bool)
           (nodeId handleId : string) (payload : TransformedPayload)
           (prev : Dict (Dict TransformedPayload))
  : Dict (Dict TransformedPayload) * option DraftRefresh :=
  let nodeRecord := match prev nodeId with Some r => r | None => dict_empty end in
  let updated := dict_set nodeId (dict_set handleId payload nodeRecord) prev in
  match nodeRecord handleId with
  | Some currentPayload =>
      let isPreviewChanged :=
        negb (optStringEqb (payload_previewUrl currentPayload)
                           (payload_previewUrl payload)) in
      let isStructureStable :=
        statusEqb (payload_status currentPayload) (payload_status payload)
        && Bool.eqb (payload_requiresGeneration currentPayload)
                    (payload_requiresGeneration payload) in
      let event :=
        if isPreviewChanged && isStructureStable
        then Some (mkDraftRefresh nodeId handleId (payload_previewUrl payload))
        else None in
      if sameJson currentPayload payload then (prev, event) else (updated, event)
  | None => (updated, None)
  end.

(** [{ ...currentPayload, previewUrl: url }] *)
Definition withPreview (payload : TransformedPayload) (url : string)
  : TransformedPayload :=
  mkPayload (payload_status payload) (payload_sourceNodeId payload)
            (payload_sourceContainer payload) (payload_targetContainer payload)
            (payload_layers payload) (payload_scaleFactor payload)
            (payload_metrics payload) (payload_requiresGeneration payload)
            (Some url) (payload_isConfirmed payload).

(** [updatePreview] *)
Definition updatePreview (nodeId handleId : string) (url : string)
           (prev : Dict (Dict TransformedPayload)) : Dict (Dict TransformedPayload) :=
  match prev nodeId with
  | None => prev
  | Some nodeRecord =>
      match nodeRecord handleId with
      | None => prev
      | Some currentPayload =>
          if optStringEqb (payload_previewUrl currentPayload) (Some url)
          then prev
          else dict_set nodeId
                        (dict_set handleId (withPreview currentPayload url) nodeRecord)
                        prev
      end
  end.

(** The five registries; [Psd] is the parsed document of [ag-psd]. *)
Record Registries (Psd : Type) : Type := mkRegistries {
  psdRegistry : Dict Psd;
  templateRegistry : Dict TemplateMetadata;
  resolvedRegistry : Dict (Dict MappingContext);
  payloadRegistry : Dict (Dict TransformedPayload);
  analysisRegistry : Dict (Dict AnalystStrategy)
}.

Arguments mkRegistries {Psd} _ _ _ _ _.
Arguments psdRegistry {Psd} _.
Arguments templateRegistry {Psd} _.
Arguments resolvedRegistry {Psd} _.
Arguments payloadRegistry {Psd} _.
Arguments analysisRegistry {Psd} _.

(** [unregisterNode]: [const { [nodeId]: _, ...rest } = prev; return rest]
    on each registry. *)
Definition unregisterNode {Psd : Type} (nodeId : string) (r : Registries Psd)
  : Registries Psd :=
  mkRegistries (dict_remove nodeId (psdRegistry r))
               (dict_remove nodeId (templateRegistry r))
               (dict_remove nodeId (resolvedRegistry r))
               (dict_remove nodeId (payloadRegistry r))
               (dict_remove nodeId (analysisRegistry r)).

End Registry.

(* ===================================================================== *)
(** ** Instances of a remapper node                                       *)
(* ===================================================================== *)

Record Edge : Set := mkEdge {
  edge_source : string;
  edge_sourceHandle : option string;
  edge_target : string;
  edge_targetHandle : option string
}.

Record GraphNode : Set := mkNode {
  node_id : string;
  node_type : option string
}.

Record InstanceData : Set := mkInstance {
  instance_index : nat;
  instance_source : option SourceData;
  instance_target : option Resolver.TargetData;
  instance_payload : option TransformedPayload;
  instance_strategyUsed : bool
}.

Section RemapperNode.

Variable MAX_BOUNDARY_VIOLATION_PERCENT : Q.

(** The node's [id] and [data.instanceCount], the graph, the store and the
    local state the [useMemo] depends on. *)
Variable id : string.
Variable dataInstanceCount : option nat.
Variable edges : list Edge.
Variable nodes : list GraphNode.
Variable resolvedRegistry : Dict (Dict MappingContext).
Variable templateRegistry : Dict TemplateMetadata.
Variable confirmations : Flags bool.
Variable userCredits : Z.
Variable previews : Flags string.

(** [data.instanceCount || 1] *)
Definition instanceCount : nat :=
  match dataInstanceCount with
  | Some O => 1%nat
  | Some n => n
  | None => 1%nat
  end.

(** [edges.find(e => e.target === id && e.targetHandle === handleId)] *)
Definition findEdge (handleId : string) : option Edge :=
  find (fun e => String.eqb (edge_target e) id
                 && optStringEqb (edge_targetHandle e) (Some handleId))
       edges.

(** The ready [sourceData] built from a resolved context. *)
Definition sourceFromContext (binarySourceId : string) (context : MappingContext)
  : SourceData :=
  mkSource (Some (containerName (context_container context)))
           (Some binarySourceId)
           (context_layers context)
           (container_bounds (context_container context))
           (option_map strategy_layout (context_aiStrategy context))
           (context_previewUrl context).

(** 1. Resolve source. *)
Definition resolveSource (i : nat) : option SourceData :=
  let sourceHandleId := "source-in-" ++ decimal i in
  let loadPsdNode :=
    find (fun n => optStringEqb (node_type n) (Some "loadPsd")) nodes in
  match findEdge sourceHandleId with
  | Some sourceEdge =>
      match edge_sourceHandle sourceEdge with
      | Some sourceHandle =>
          if truthyString (Some sourceHandle) then
            match resolvedRegistry (edge_source sourceEdge) with
            | Some resolvedData =>
                match resolvedData sourceHandle with
                | Some context =>
                    let binarySourceId :=
                      match loadPsdNode with
                      | Some n => node_id n
                      | None => edge_source sourceEdge
                      end in
                    Some (sourceFromContext binarySourceId context)
                | None => None
                end
            | None => None
            end
          else None
      | None => None
      end
  | None => None
  end.

(** 2. Resolve target. *)
Definition resolveTargetSide (i : nat) : option Resolver.TargetData :=
  let targetHandleId := "target-in-" ++ decimal i in
  match findEdge targetHandleId with
  | Some targetEdge =>
      match edge_sourceHandle targetEdge with
      | Some handle =>
          if truthyString (Some handle) then
            match templateRegistry (edge_source targetEdge) with
            | Some template =>
                Resolver.resolveTarget (template_containers template) handle
            | None => None
            end
          else None
      | None => None
      end
  | None => None
  end.

(** One turn of the loop over the instances. *)
Definition computeInstance (i : nat) : InstanceData :=
  let sourceData := resolveSource i in
  let targetData := resolveTargetSide i in
  let payload :=
    computePayload MAX_BOUNDARY_VIOLATION_PERCENT sourceData targetData
                   (confirmations i) userCredits (previews i) in
  let strategyUsed :=
    match sourceData, targetData with
    | Some s, Some _ => strategyUsed (source_aiStrategy s)
    | _, _ => false
    end in
  mkInstance i sourceData targetData payload strategyUsed.

(** [for (let i = 0; i < instanceCount; i++) result.push(...)] *)
Definition instances : list InstanceData :=
  map computeInstance (seq 0 instanceCount).

End RemapperNode.

(** [handleConfirmGeneration]: [{ ...prev, [index]: true }] *)
Definition handleConfirmGeneration (index : nat) (prev : Flags bool) : Flags bool :=
  flag_set index true prev.

(** [addInstance] on the node's own data:
    [(node.data.instanceCount || 1) + 1]. *)
Definition addInstance (dataInstanceCount : option nat) : option nat :=
  Some (instanceCount dataInstanceCount + 1)%nat.

(** Sync of the payloads to the store: [registerPayload(id,
    `result-out-${index}`, payload)] for every instance that has one; the
    setters run in order.  The events dispatched on the way are collected. *)
Fixpoint syncPayloads (sameJson : TransformedPayload -> TransformedPayload -> bool)
         (id : string) (insts : list InstanceData)
         (registry : Dict (Dict TransformedPayload))
  : Dict (Dict TransformedPayload) * list Registry.DraftRefresh :=
  match insts with
  | [] => (registry, [])
  | instance :: rest =>
      match instance_payload instance with
      | Some payload =>
          let (registry1, event) :=
            Registry.registerPayload sameJson id
                                     ("result-out-" ++ decimal (instance_index instance))
                                     payload registry in
          let (registry2, events) := syncPayloads sameJson id rest registry1 in
          (registry2, match event with Some e => e :: events | None => events end)
      | None => syncPayloads sameJson id rest registry
      end
  end.

(** *** Preview overlay and lazy synthesis *)

(** What the overlay offers over the ghost image. *)
Inductive OverlayControl : Set :=
| ConfirmButton
| InsufficientCreditsNotice
| NoControl.

(** [GenerativePreviewOverlay], the button overlay:
    [canConfirm && !isConfirmed && previewUrl && (userCredits > 0 ? ... : ...)] *)
Definition overlayControl (previewUrl : option string) (userCredits : Z)
           (canConfirm isConfirmed : bool) : OverlayControl :=
  if canConfirm && negb isConfirmed && truthyString previewUrl
  then if (userCredits >? 0)%Z then ConfirmButton else InsufficientCreditsNotice
  else NoControl.

(** The overlay an instance renders, if any, and its control. *)
Definition instanceOverlay (instance : InstanceData) (confirmations : Flags bool)
           (previews : Flags string) (userCredits : Z) : option OverlayControl :=
  match instance_payload instance with
  | Some payload =>
      let hasPreview := truthyString (payload_previewUrl payload) in
      let isAwaiting := isAwaiting (payload_status payload) in
      let isConfirmed := truthyBool (confirmations (instance_index instance)) in
      let showOverlay := hasPreview || isAwaiting in
      if showOverlay
      then Some (overlayControl
                   (orElse (payload_previewUrl payload)
                           (previews (instance_index instance)))
                   userCredits isAwaiting isConfirmed)
      else None
  | None => None
  end.

(** The credit error notice of an instance:
    [instance.payload.status === 'error' && (... Insufficient Credits ...)] *)
Definition showsCreditError (instance : InstanceData) : bool :=
  match instance_payload instance with
  | Some payload => statusEqb (payload_status payload) error
  | None => false
  end.

(** The output handle is lit:
    [instance.payload && instance.payload.status !== 'error'] *)
Definition outputHandleLit (instance : InstanceData) : bool :=
  match instance_payload instance with
  | Some payload => negb (statusEqb (payload_status payload) error)
  | None => false
  end.

(** Lazy synthesis: whether the effect starts [generateDraft] for an
    instance. *)
Definition needsDraft (instance : InstanceData) (isGeneratingPreview : Flags bool)
  : bool :=
  let hasPrompt :=
    truthyString (optPrompt (match instance_source instance with
                             | Some s => source_aiStrategy s
                             | None => None
                             end)) in
  let isAwaiting :=
    match instance_payload instance with
    | Some payload => isAwaiting (payload_status payload)
    | None => false
    end in
  let existingPreview :=
    match instance_payload instance with
    | Some payload => payload_previewUrl payload
    | None => None
    end in
  isAwaiting && hasPrompt && negb (truthyString existingPreview)
  && negb (truthyBool (isGeneratingPreview (instance_index instance))).

(** How a draft request ends: no API key, an exception, or a response;
    a part of a response may have [inlineData], which may have [data]. *)
Inductive DraftOutcome : Set :=
| NoApiKey
| Threw
| Responded (parts : list (option (option string))).

(** [for (const part of parts) if (part.inlineData) { base64Data =
    part.inlineData.data; break; }] *)
Fixpoint firstInlineData (parts : list (option (option string))) : option string :=
  match parts with
  | [] => None
  | Some inlineData :: _ => inlineData
  | None :: rest => firstInlineData rest
  end.

(** [generateDraft], from start to [finally], on the node's local state
    [(previews, isGeneratingPreview)]. *)
Definition generateDraft (index : nat) (outcome : DraftOutcome)
           (state : Flags string * Flags bool) : Flags string * Flags bool :=
  let (previews, isGeneratingPreview) := state in
  let isGeneratingPreview := flag_set index true isGeneratingPreview in
  let previews :=
    match outcome with
    | NoApiKey => previews
    | Threw => previews
    | Responded parts =>
        let base64Data := firstInlineData parts in
        if truthyString base64Data
        then match base64Data with
             | Some data => flag_set index ("data:image/png;base64," ++ data) previews
             | None => previews
             end
        else previews
    end in
  (previews, flag_set index false isGeneratingPreview).

(** *** A small graph around one remapper node, for the examples *)

Definition demo_context : MappingContext :=
  mkContext (mkContainerContext "Title" demo_source) demo_layers
            (Some (mkAnalyst "GENERATIVE" demo_strategy)) None None.

Definition demo_resolvedRegistry : Dict (Dict MappingContext) :=
  dict_set "analyst-1" (dict_set "source-out-0" demo_context dict_empty) dict_empty.

Definition demo_containers : list Resolver.ContainerDefinition :=
  [Resolver.mkContainer "Title" None demo_target;
   Resolver.mkContainer "Footer" (Some "Footer") (mkRect 0 100 100 20)].

Definition demo_templateRegistry : Dict TemplateMetadata :=
  dict_set "template-1" (mkTemplate demo_containers) dict_empty.

Definition demo_edges : list Edge :=
  [mkEdge "analyst-1" (Some "source-out-0") "remap-1" (Some "source-in-0");
   mkEdge "template-1" (Some "target-out-0") "remap-1" (Some "target-in-0")].

Definition demo_nodes : list GraphNode :=
  [mkNode "psd-1" (Some "loadPsd");
   mkNode "analyst-1" (Some "designAnalyst");
   mkNode "remap-1" (Some "remapper")].

Definition demo_unconfirmed : Flags bool := fun _ => None.
Definition demo_noPreviews : Flags string := fun _ => None.
Definition demo_ghost : Flags string :=
  flag_set 0 "data:image/png;base64,AAAA" demo_noPreviews.
Definition demo_idle : Flags bool := fun _ => None.

(** The demo node's instance [i] under given confirmations and previews,
    with five credits. *)
Definition demo_instance (confirmations : Flags bool) (previews : Flags string)
           (i : nat) : InstanceData :=
  computeInstance demo_bleed "remap-1" demo_edges demo_nodes demo_resolvedRegistry
                  demo_templateRegistry confirmations 5%Z previews i.

(** A stand-in for the JSON comparison that finds no two payloads equal. *)
Definition demo_neverSame (a b : TransformedPayload) : bool := false.

(** The demo context once the analyst has switched to GEOMETRIC while the
    prompt and a ghost preview are still attached, and a stand-in for the
    JSON comparison of contexts that looks at the method, the prompt and
    the preview only. *)
Definition demo_geometric_context : MappingContext :=
  mkContext (mkContainerContext "Title" demo_source) demo_layers
            (Some (mkAnalyst "GEOMETRIC" demo_strategy))
            (Some "data:image/png;base64,AAAA") None.
Definition demo_sameContext (a b : MappingContext) : bool :=
  optStringEqb (option_map strategy_method (context_aiStrategy a))
               (option_map strategy_method (context_aiStrategy b))
  && optStringEqb (optPrompt (option_map strategy_layout (context_aiStrategy a)))
                  (optPrompt (option_map strategy_layout (context_aiStrategy b)))
  && optStringEqb (context_previewUrl a) (context_previewUrl b).

(** A forest without overrides: a group with two children. *)
Definition plain_child (x y : Q) (id : string) : SerializableLayer :=
  mkLayer id id "layer" true 1 (mkRect x y 10 10) None.
Definition plain_forest : list SerializableLayer :=
  [mkLayer "group" "Group" "group" true 1 (mkRect 0 0 100 100)
           (Some [plain_child 10 20 "a"; plain_child 90 90 "b"])].
Definition plain_strategy : LayoutStrategy :=
  mkStrategy 1 "CENTER" None false (Some [mkOverride "missing" 5 5 3]).

(** A panel with an icon and a caption, remapped into the demo slot at
    scale 1 under a strategy that overrides the panel and, separately, its
    icon; the caption has no override. *)
Definition nested_icon : SerializableLayer :=
  mkLayer "icon" "Icon" "layer" true 1 (mkRect 10 10 10 10) None.
Definition nested_caption : SerializableLayer :=
  mkLayer "caption" "Caption" "layer" true 1 (mkRect 10 90 10 10) None.
Definition nested_panel : SerializableLayer :=
  mkLayer "panel" "Panel" "group" true 1 (mkRect 0 0 50 50)
          (Some [nested_icon; nested_caption]).
Definition nested_panel_override : Override := mkOverride "panel" 20 30 1.
Definition nested_icon_override : Override := mkOverride "icon" 5 5 1.
Definition nested_strategy : LayoutStrategy :=
  mkStrategy 1 "TOP" None false
             (Some [nested_panel_override; nested_icon_override]).
Definition nested_placement : Placement :=
  computePlacement demo_source demo_target (Some nested_strategy).

(* ===================================================================== *)
(** * Properties                                                          *)
(* ===================================================================== *)

(** ** Credit consumption *)

(** One call through a closure that is up to date (the balance it captured
    is the balance of the cell): compare and decrement agree. *)
Lemma consumeCredit_fresh (amount : Z) (s : Store.CreditState) :
  Store.rendered s = Store.current s ->
  (0 <= amount)%Z ->
  ((amount <= Store.current s)%Z ->
     Store.consumeCredit amount s
     = (true, Store.mkCredits (Store.rendered s) (Store.current s - amount)))
  /\ ((Store.current s < amount)%Z -> Store.consumeCredit amount s = (false, s))
  /\ ((0 <= Store.current s)%Z ->
      (0 <= Store.current (snd (Store.consumeCredit amount s)))%Z).
Proof.
  intros Hfresh Hamount. unfold Store.consumeCredit. rewrite Hfresh.
  destruct (Z.geb_spec (Store.current s) amount) as [Hge | Hlt]; cbn.
  - repeat split; intros; try reflexivity; lia.
  - repeat split; intros; try reflexivity; lia.
Qed.

(** With a render between any two calls the balance never turns negative. *)
Lemma consumeEach_nonneg (amounts : list Z) :
  Forall (fun a => (0 <= a)%Z) amounts ->
  forall s, Store.rendered s = Store.current s ->
            (0 <= Store.current s)%Z ->
            (0 <= Store.current (snd (Store.consumeEach amounts s)))%Z.
Proof.
  induction 1 as [| a rest Ha _ IH]; intros s Hfresh Hs; cbn.
  - exact Hs.
  - destruct (consumeCredit_fresh a s Hfresh Ha) as (_ & _ & Hnonneg).
    specialize (Hnonneg Hs).
    destruct (Store.consumeCredit a s) as [ok s1] eqn:E1. cbn in Hnonneg.
    specialize (IH (Store.render s1) eq_refl Hnonneg).
    destruct (Store.consumeEach rest (Store.render s1)) as [oks s2]. exact IH.
Qed.

(** C8 (credit consumption), evaluated where it fails: with a balance of 1,
    two [consumeCredit(1)] calls issued from the same render both compare
    against the captured balance 1, both return [true], and the two queued
    decrements leave the cell at -1.  The compare and the decrement do not
    read the same value, so a non-negative balance is driven below zero by
    [consumeCredit] alone. *)
Theorem consumeCredit_stale_closure_overdraws :
  Store.consumeAll [1%Z; 1%Z] (Store.mkCredits 1 1)
  = ([true; true], Store.mkCredits 1 (-1))
  /\ Store.current (Store.render (snd (Store.consumeAll [1%Z; 1%Z] (Store.mkCredits 1 1))))
     = (-1)%Z.
Proof. split; reflexivity. Qed.

(** ** Handles *)

Lemma substring_whole (s : string) : substring 0 (String.length s) s = s.
Proof. induction s as [| c s IH]; cbn; [reflexivity | rewrite IH; reflexivity]. Qed.

Lemma parseDigits_of_uint (d : Decimal.uint) :
  forall acc,
    Resolver.parseDigits acc (NilEmpty.string_of_uint d)
    = Some (N.of_nat (Nat.of_uint_acc d (N.to_nat acc))).
Proof.
  induction d; intros acc; cbn [NilEmpty.string_of_uint Resolver.parseDigits].
  1: { cbn. rewrite N2Nat.id. reflexivity. }
  all: change (Resolver.isDigit _) with true; cbv iota.
  all: rewrite IHd; cbn [Nat.of_uint_acc]; rewrite Nat.tail_mul_spec.
  all: do 3 f_equal.
  all: match goal with
       | |- context [(N_of_ascii ?c - 48)%N] =>
           let k := eval vm_compute in (N_of_ascii c - 48)%N in
           change (N_of_ascii c - 48)%N with k
       end.
  all: lia.
Qed.

Lemma to_uint_not_nil (n : nat) : Nat.to_uint n <> Decimal.Nil.
Proof.
  rewrite <- (Unsigned.of_to n) at 1. rewrite Unsigned.to_of.
  unfold Decimal.unorm. destruct (Decimal.nzhead (Nat.to_uint n)); discriminate.
Qed.

Lemma decimal_not_empty (n : nat) : decimal n <> "".
Proof.
  unfold decimal. pose proof (to_uint_not_nil n) as H.
  destruct (Nat.to_uint n); cbn; congruence.
Qed.

Lemma string_of_uint_inj (d1 d2 : Decimal.uint) :
  NilEmpty.string_of_uint d1 = NilEmpty.string_of_uint d2 -> d1 = d2.
Proof.
  revert d2. induction d1; destruct d2; cbn; intros E;
    try discriminate E; try reflexivity;
    injection E as E; f_equal; apply IHd1; exact E.
Qed.

Lemma decimal_inj (n m : nat) : decimal n = decimal m -> n = m.
Proof.
  unfold decimal. intros E. apply Unsigned.to_uint_inj.
  apply string_of_uint_inj. exact E.
Qed.

Lemma prefix_append (p s : string) : prefix p (p ++ s) = true.
Proof.
  induction p as [| c p IH]; cbn.
  - destruct s; reflexivity.
  - destruct (ascii_dec c c) as [_ | Hne]; [exact IH | contradiction].
Qed.

Lemma dropPrefix_append (p s : string) :
  Resolver.dropPrefix (String.length p) (p ++ s) = s.
Proof.
  unfold Resolver.dropPrefix. induction p as [| c p IH]; cbn.
  - rewrite Nat.sub_0_r. apply substring_whole.
  - exact IH.
Qed.

Lemma indexMatch_decimal (i : nat) :
  Resolver.indexMatch ("target-out-" ++ decimal i) = Some (N.of_nat i).
Proof.
  unfold Resolver.indexMatch. rewrite prefix_append.
  change 11%nat with (String.length "target-out-"). rewrite dropPrefix_append.
  destruct (decimal i) eqn:E; [exfalso; exact (decimal_not_empty i E) |].
  rewrite <- E. unfold decimal. rewrite parseDigits_of_uint.
  cbn [N.to_nat]. fold (Nat.of_uint (Nat.to_uint i)). rewrite Unsigned.of_to.
  reflexivity.
Qed.

(** ** Resolver *)

Lemma findByName_member (cs : list Resolver.ContainerDefinition) (n : string)
      (c : Resolver.ContainerDefinition) :
  Resolver.findByName cs n = Some c -> In c cs /\ Resolver.name c = n.
Proof.
  unfold Resolver.findByName. intros E. apply find_some in E.
  destruct E as [Hin Hn]. apply String.eqb_eq in Hn. split; assumption.
Qed.

Lemma strategyD_nth (cs : list Resolver.ContainerDefinition) handle :
  (if (List.length cs =? 1)%nat then nth_error cs 0 else None)
  = Resolver.firstMatch [Resolver.strategyD] cs handle.
Proof. destruct cs as [| c [| d rest]]; reflexivity. Qed.

(** The source's chain is the first match of the four strategies. *)
Lemma resolveContainer_firstMatch (cs : list Resolver.ContainerDefinition)
      (handle : string) :
  Resolver.resolveContainer cs handle = Resolver.resolveInOrder cs handle.
Proof.
  unfold Resolver.resolveInOrder, Resolver.resolveContainer, Resolver.firstMatch,
    Resolver.strategyA, Resolver.strategyB, Resolver.strategyC.
  destruct (Resolver.findByName cs handle) as [a |]; [reflexivity |].
  destruct (prefix "slot-bounds-" handle).
  - destruct (Resolver.findByName cs (Resolver.dropPrefix 12 handle));
      [reflexivity |].
    destruct (Resolver.indexMatch handle) as [i |].
    + destruct (nth_error cs (N.to_nat i)); [reflexivity |].
      apply strategyD_nth.
    + apply strategyD_nth.
  - destruct (Resolver.indexMatch handle) as [i |].
    + destruct (nth_error cs (N.to_nat i)); [reflexivity |].
      apply strategyD_nth.
    + apply strategyD_nth.
Qed.

(** [find] by name returns the first container of that name. *)
Lemma findByName_first (cs : list Resolver.ContainerDefinition) (n : string)
      (c : Resolver.ContainerDefinition) :
  Resolver.findByName cs n = Some c <-> Resolver.firstNamed cs n c.
Proof.
  unfold Resolver.findByName, Resolver.firstNamed. split.
  - induction cs as [| d rest IH]; cbn [find]; [discriminate |].
    destruct (String.eqb_spec (Resolver.name d) n) as [Hn | Hn].
    + intros E. injection E as <-. exists [], rest.
      split; [reflexivity |]. split; [exact Hn |]. intros x [].
    + intros E. destruct (IH E) as (before & after & -> & Hc & Hb).
      exists (d :: before), after. split; [reflexivity |]. split; [exact Hc |].
      intros x [<- | Hx]; [exact Hn | apply Hb; exact Hx].
  - intros (before & after & -> & Hc & Hb).
    induction before as [| d before IH]; cbn [app find].
    + apply String.eqb_eq in Hc. rewrite Hc. reflexivity.
    + assert (Hd : Resolver.name d <> n) by (apply Hb; left; reflexivity).
      apply String.eqb_neq in Hd. rewrite Hd.
      apply IH. intros x Hx. apply Hb. right. exact Hx.
Qed.

Lemma findByName_none (cs : list Resolver.ContainerDefinition) (n : string) :
  Resolver.findByName cs n = None <-> Resolver.noneNamed cs n.
Proof.
  unfold Resolver.findByName, Resolver.noneNamed. split.
  - intros E d Hd. apply String.eqb_neq. exact (find_none _ _ E d Hd).
  - intros H. induction cs as [| d rest IH]; cbn [find]; [reflexivity |].
    assert (Hd : Resolver.name d <> n) by (apply H; left; reflexivity).
    apply String.eqb_neq in Hd. rewrite Hd.
    apply IH. intros x Hx. apply H. right. exact Hx.
Qed.

Lemma prefix_inv (p s : string) :
  prefix p s = true -> exists rest, s = p ++ rest.
Proof.
  revert s. induction p as [| c p IH]; intros s.
  - intros _. exists s. reflexivity.
  - destruct s as [| c' s]; cbn [prefix]; [discriminate |].
    destruct (ascii_dec c c') as [<- | _]; [| discriminate].
    intros E. destruct (IH s E) as (rest & ->). exists rest. reflexivity.
Qed.

Lemma append_inj_l (p a b : string) : p ++ a = p ++ b -> a = b.
Proof.
  induction p as [| c p IH]; cbn; intros E; [exact E |].
  injection E as E. apply IH. exact E.
Qed.

(** One character of [\d+]: either it is no digit, or it is the digit that
    [isDigit] accepts and whose value [parseDigits] adds. *)
Lemma digit_step (c : ascii) :
  (Resolver.isDigit c = false /\ forall o, uint_of_char c o = None)
  \/ (Resolver.isDigit c = true
      /\ forall d, exists d',
          uint_of_char c (Some d) = Some d'
          /\ forall acc,
              Nat.of_uint_acc d' acc
              = Nat.of_uint_acc d (N.to_nat (N_of_ascii c - 48) + 10 * acc)%nat).
Proof.
  destruct c as [[|] [|] [|] [|] [|] [|] [|] [|]];
    first
      [ left; split; [reflexivity | intros [d |]; reflexivity]
      | right; split; [reflexivity |];
        intros d; eexists; split; [reflexivity |];
        intros acc; cbn [Nat.of_uint_acc]; rewrite Nat.tail_mul_spec;
        reflexivity ].
Qed.

(** [parseInt(digits, 10)] reads a string of [\d*] as the number its
    decimal digits denote, and nothing else. *)
Lemma parseDigits_uint_of_string (digits : string) :
  forall acc,
    Resolver.parseDigits acc digits
    = option_map (fun d => N.of_nat (Nat.of_uint_acc d (N.to_nat acc)))
                 (NilEmpty.uint_of_string digits).
Proof.
  induction digits as [| c rest IH]; intros acc;
    cbn [Resolver.parseDigits NilEmpty.uint_of_string].
  - cbn. rewrite N2Nat.id. reflexivity.
  - destruct (digit_step c) as [[Hd Hnone] | [Hd Hsome]]; rewrite Hd.
    + rewrite Hnone. reflexivity.
    + rewrite IH. destruct (NilEmpty.uint_of_string rest) as [d |];
        [| reflexivity].
      destruct (Hsome d) as (d' & E & Hacc). rewrite E. cbn [option_map].
      rewrite Hacc. do 3 f_equal.
      rewrite N2Nat.inj_add, N2Nat.inj_mul.
      change (N.to_nat 10) with 10%nat. lia.
Qed.

Lemma indexMatch_indexed (handle : string) (n : N) :
  Resolver.indexMatch handle = Some n
  <-> exists index, Resolver.indexedHandle handle index /\ n = N.of_nat index.
Proof.
  unfold Resolver.indexMatch, Resolver.indexedHandle. split.
  - destruct (prefix "target-out-" handle) eqn:Ep; [| discriminate].
    destruct (prefix_inv _ _ Ep) as (digits & ->).
    change 11%nat with (String.length "target-out-"). rewrite dropPrefix_append.
    destruct digits as [| c rest]; [discriminate |].
    rewrite parseDigits_uint_of_string.
    destruct (NilEmpty.uint_of_string (String c rest)) as [d |] eqn:Ed;
      [| discriminate].
    cbn [option_map]. intros E. injection E as <-.
    exists (Nat.of_uint d). split; [| reflexivity].
    exists (String c rest), d. repeat split; try assumption. discriminate.
  - intros (index & (digits & d & -> & Hne & Ed & <-) & ->).
    rewrite prefix_append.
    change 11%nat with (String.length "target-out-"). rewrite dropPrefix_append.
    destruct digits as [| c rest]; [contradiction |].
    rewrite parseDigits_uint_of_string, Ed. reflexivity.
Qed.

Lemma indexedHandle_unique (handle : string) (i j : nat) :
  Resolver.indexedHandle handle i -> Resolver.indexedHandle handle j -> i = j.
Proof.
  intros (digits & d & -> & _ & Ed & <-) (digits' & d' & E & _ & Ed' & <-).
  apply append_inj_l in E. subst digits'. congruence.
Qed.

(** Each strategy of the chain in the specification's terms. *)
Lemma strategyB_some (cs : list Resolver.ContainerDefinition) (handle : string)
      (c : Resolver.ContainerDefinition) :
  Resolver.strategyB cs handle = Some c
  <-> exists clean, handle = "slot-bounds-" ++ clean /\ Resolver.firstNamed cs clean c.
Proof.
  unfold Resolver.strategyB. split.
  - destruct (prefix "slot-bounds-" handle) eqn:Ep; [| discriminate].
    destruct (prefix_inv _ _ Ep) as (clean & ->).
    change 12%nat with (String.length "slot-bounds-"). rewrite dropPrefix_append.
    intros E. exists clean. split; [reflexivity |]. apply findByName_first. exact E.
  - intros (clean & -> & Hc). rewrite prefix_append.
    change 12%nat with (String.length "slot-bounds-"). rewrite dropPrefix_append.
    apply findByName_first. exact Hc.
Qed.

Lemma strategyB_none (cs : list Resolver.ContainerDefinition) (handle : string) :
  Resolver.strategyB cs handle = None
  <-> forall clean, handle = "slot-bounds-" ++ clean -> Resolver.noneNamed cs clean.
Proof.
  unfold Resolver.strategyB. split.
  - intros E clean ->. rewrite prefix_append in E.
    change 12%nat with (String.length "slot-bounds-") in E.
    rewrite dropPrefix_append in E. apply findByName_none. exact E.
  - intros H. destruct (prefix "slot-bounds-" handle) eqn:Ep; [| reflexivity].
    destruct (prefix_inv _ _ Ep) as (clean & ->).
    change 12%nat with (String.length "slot-bounds-"). rewrite dropPrefix_append.
    apply findByName_none. apply H. reflexivity.
Qed.

Lemma strategyC_some (cs : list Resolver.ContainerDefinition) (handle : string)
      (c : Resolver.ContainerDefinition) :
  Resolver.strategyC cs handle = Some c
  <-> exists index, Resolver.indexedHandle handle index /\ nth_error cs index = Some c.
Proof.
  unfold Resolver.strategyC. split.
  - destruct (Resolver.indexMatch handle) as [n |] eqn:En; [| discriminate].
    apply indexMatch_indexed in En. destruct En as (index & Hi & ->).
    rewrite Nat2N.id. intros E. exists index. split; assumption.
  - intros (index & Hi & E).
    assert (En : Resolver.indexMatch handle = Some (N.of_nat index)).
    { apply indexMatch_indexed. exists index. split; [exact Hi | reflexivity]. }
    rewrite En, Nat2N.id. exact E.
Qed.

Lemma strategyC_none (cs : list Resolver.ContainerDefinition) (handle : string) :
  Resolver.strategyC cs handle = None
  <-> forall index, Resolver.indexedHandle handle index -> nth_error cs index = None.
Proof.
  split.
  - intros E index Hi. destruct (nth_error cs index) as [c |] eqn:En; [| reflexivity].
    assert (Hs : Resolver.strategyC cs handle = Some c).
    { apply strategyC_some. exists index. split; assumption. }
    congruence.
  - intros H. destruct (Resolver.strategyC cs handle) as [c |] eqn:E; [| reflexivity].
    apply strategyC_some in E. destruct E as (index & Hi & En).
    rewrite (H index Hi) in En. discriminate En.
Qed.

Lemma strategyD_some (cs : list Resolver.ContainerDefinition) (handle : string)
      (c : Resolver.ContainerDefinition) :
  Resolver.strategyD cs handle = Some c <-> cs = [c].
Proof.
  destruct cs as [| a [| b rest]]; cbn; split; intros E;
    try discriminate E; congruence.
Qed.

Lemma strategyD_none (cs : list Resolver.ContainerDefinition) (handle : string) :
  Resolver.strategyD cs handle = None <-> List.length cs <> 1%nat.
Proof.
  destruct cs as [| a [| b rest]]; cbn; split; intros E;
    try discriminate E; try reflexivity; try lia; congruence.
Qed.

(** C7 (resolver strategy order): the container the source's chain yields
    is exactly the one the ordered strategies of the specification
    determine: the first container named by the handle; failing that, for
    a handle [slot-bounds-<name>], the first container called <name>;
    failing that, for a handle [target-out-<digits>], the container at
    that zero-based index when it is in bounds; failing that, the only
    container of a single-container template; and none otherwise.  It is
    the first match of the four strategies taken in that order.  Whenever
    some container bears the handle as its name, the first such container
    is returned, also for a handle of the indexed form, whatever container
    sits at that index. *)
Theorem resolveContainer_strategy_order :
  forall (containers : list Resolver.ContainerDefinition) (handle : string),
    (forall r,
        Resolver.ResolvesTo containers handle r
        <-> Resolver.resolveContainer containers handle = r)
    /\ Resolver.resolveContainer containers handle
       = Resolver.resolveInOrder containers handle
    /\ (forall d index,
          In d containers ->
          Resolver.name d = handle ->
          Resolver.indexedHandle handle index ->
          exists c,
            Resolver.resolveContainer containers handle = Some c
            /\ Resolver.name c = handle
            /\ Resolver.firstNamed containers handle c).
Proof.
  intros cs handle.
  refine (conj _ (conj (resolveContainer_firstMatch cs handle) _)).
  - intros r. rewrite resolveContainer_firstMatch.
    unfold Resolver.resolveInOrder. cbn [Resolver.firstMatch]. split.
    + intros [c HA | clean c HA HB Hc | index c HA HB HC Hn
              | c HA HB HC HD | HA HB HC HD].
      * apply findByName_first in HA. unfold Resolver.strategyA. rewrite HA.
        reflexivity.
      * apply findByName_none in HA. unfold Resolver.strategyA. rewrite HA.
        assert (EB : Resolver.strategyB cs handle = Some c).
        { apply strategyB_some. exists clean. split; assumption. }
        rewrite EB. reflexivity.
      * apply findByName_none in HA. unfold Resolver.strategyA. rewrite HA.
        rewrite (proj2 (strategyB_none cs handle) HB).
        assert (EC : Resolver.strategyC cs handle = Some c).
        { apply strategyC_some. exists index. split; assumption. }
        rewrite EC. reflexivity.
      * apply findByName_none in HA. unfold Resolver.strategyA. rewrite HA.
        rewrite (proj2 (strategyB_none cs handle) HB).
        rewrite (proj2 (strategyC_none cs handle) HC).
        apply (strategyD_some cs handle) in HD. rewrite HD. reflexivity.
      * apply findByName_none in HA. unfold Resolver.strategyA. rewrite HA.
        rewrite (proj2 (strategyB_none cs handle) HB).
        rewrite (proj2 (strategyC_none cs handle) HC).
        apply (strategyD_none cs handle) in HD. rewrite HD. reflexivity.
    + intros <-. unfold Resolver.strategyA.
      destruct (Resolver.findByName cs handle) as [a |] eqn:EA.
      { apply Resolver.ByExactName. apply findByName_first. exact EA. }
      apply findByName_none in EA.
      destruct (Resolver.strategyB cs handle) as [b |] eqn:EB.
      { apply strategyB_some in EB. destruct EB as (clean & -> & Hb).
        apply (Resolver.ByBoundsPrefix _ _ clean); [exact EA | reflexivity | exact Hb]. }
      pose proof (proj1 (strategyB_none cs handle) EB) as HB.
      destruct (Resolver.strategyC cs handle) as [c |] eqn:EC.
      { apply strategyC_some in EC. destruct EC as (index & Hi & Hn).
        apply (Resolver.ByIndex _ _ index); assumption. }
      pose proof (proj1 (strategyC_none cs handle) EC) as HC.
      destruct (Resolver.strategyD cs handle) as [c |] eqn:ED.
      { apply strategyD_some in ED. apply Resolver.BySingleContainer; assumption. }
      apply strategyD_none in ED. apply Resolver.Unresolved; assumption.
  - intros d index Hd Hname _.
    destruct (Resolver.findByName cs handle) as [c |] eqn:EA.
    + exists c. split.
      * unfold Resolver.resolveContainer. rewrite EA. reflexivity.
      * split; [apply (findByName_member cs handle c EA) |].
        apply findByName_first. exact EA.
    + apply findByName_none in EA. exfalso. exact (EA d Hd Hname).
Qed.

(** The order is observable: the handle [target-out-0] has the indexed
    form with index 0, where the first container sits, and yet it resolves
    to the second container, which bears it as its name. *)
Example resolveContainer_name_before_index :
  let bg := Resolver.mkContainer "BG" None (mkRect 0 0 10 10) in
  let proxy := Resolver.mkContainer "target-out-0" (Some "Title") (mkRect 5 5 20 20) in
  Resolver.indexedHandle "target-out-0" 0
  /\ nth_error [bg; proxy] 0 = Some bg
  /\ Resolver.resolveContainer [bg; proxy] "target-out-0" = Some proxy
  /\ Resolver.resolveContainer [bg] "target-out-0" = Some bg
  /\ Resolver.resolveContainer [bg; bg] "slot-bounds-BG" = Some bg
  /\ Resolver.resolveContainer [bg; bg] "target-out-007" = None
  /\ Resolver.resolveContainer [bg; bg] "target-out-01" = Some bg
  /\ Resolver.resolveContainer [bg; bg] "target-out-" = None.
Proof.
  cbn zeta. split.
  - exists "0", (Decimal.D0 Decimal.Nil).
    repeat split; try reflexivity. discriminate.
  - repeat split; reflexivity.
Qed.

(** ** Transform engine: auxiliary facts *)

(** [lra] does not read a division; the engine only ever halves. *)
Ltac halves := unfold Qdiv in *; change (/ 2) with (1 # 2) in *.

Lemma Qgtb_lt (a b : Q) : Qgtb a b = true <-> b < a.
Proof.
  unfold Qgtb. rewrite negb_true_iff. split; intros H.
  - apply Qnot_le_lt. intros Hle. apply Qle_bool_iff in Hle. congruence.
  - destruct (Qle_bool a b) eqn:E; [| reflexivity].
    apply Qle_bool_iff in E. lra.
Qed.

Lemma Qgtb_not_lt (a b : Q) : Qgtb a b = false <-> ~ b < a.
Proof.
  rewrite <- Qgtb_lt. destruct (Qgtb a b); split; intros; congruence.
Qed.

(** Induction on a layer tree: a property holds of every layer when it
    holds of a layer as soon as it holds of all its children. *)
Lemma layer_tree_ind (P : SerializableLayer -> Prop)
      (step : forall l,
          (forall cs, layer_children l = Some cs -> Forall P cs) -> P l) :
  forall l, P l.
Proof.
  fix IH 1. intros [id name type vis op coords children].
  apply step. cbn. destruct children as [cs0 |].
  - intros cs E. replace cs with cs0 by congruence. clear cs E.
    induction cs0 as [| c rest IHrest]; constructor.
    + apply IH.
    + exact IHrest.
  - intros cs E. discriminate E.
Qed.

Section TransformFacts.

Variable MAX_BOUNDARY_VIOLATION_PERCENT : Q.
Variables sourceRect targetRect : Rect.
Variable strategy : option LayoutStrategy.
Variable placement : Placement.

Local Abbreviation transformLayer' :=
  (transformLayer MAX_BOUNDARY_VIOLATION_PERCENT sourceRect targetRect strategy placement).
Local Abbreviation transformLayers' :=
  (transformLayers MAX_BOUNDARY_VIOLATION_PERCENT sourceRect targetRect strategy placement).
Local Abbreviation placeLayer' := (placeLayer sourceRect targetRect strategy placement).
Local Abbreviation clampY' := (clampY MAX_BOUNDARY_VIOLATION_PERCENT targetRect).
Local Abbreviation minY' := (minY MAX_BOUNDARY_VIOLATION_PERCENT targetRect).
Local Abbreviation maxY' := (maxY MAX_BOUNDARY_VIOLATION_PERCENT targetRect).
Local Abbreviation geomX' := (geomX sourceRect placement).
Local Abbreviation geomY' := (geomY sourceRect placement).

(** The loop body of [transformLayers], one layer at a time. *)
Lemma transformLayer_eq (layer : SerializableLayer) (dx dy : Q) :
  transformLayer' layer dx dy
  = let placed := placeLayer' layer dx dy in
    mkTransformed
      (layer_id layer) (layer_name layer) (layer_type layer)
      (layer_isVisible layer) (layer_opacity layer)
      (mkRect (finalX placed) (clampY' (finalY placed))
              (rw (layer_coords layer) * layerScaleX placed)
              (rh (layer_coords layer) * layerScaleY placed))
      (mkTransform (layerScaleX placed) (layerScaleY placed)
                   (finalX placed) (clampY' (finalY placed)))
      None
      (match layer_children layer with
       | Some children =>
           Some (transformLayers' children (currentDeltaX placed) (currentDeltaY placed))
       | None => None
       end).
Proof. destruct layer; reflexivity. Qed.

Lemma clampY_bounds (y : Q) :
  minY' <= maxY' -> minY' <= clampY' y /\ clampY' y <= maxY'.
Proof.
  intros Hne. unfold clampY. split.
  - apply Q.le_max_l.
  - apply Q.max_lub; [exact Hne | apply Q.le_min_r].
Qed.

Lemma clampY_inside (y : Q) :
  minY' <= y -> y <= maxY' -> clampY' y == y.
Proof.
  intros Hlo Hhi. unfold clampY.
  rewrite (Q.min_l y maxY') by exact Hhi.
  apply Q.max_r. exact Hlo.
Qed.

Lemma clampY_compat (y1 y2 : Q) : y1 == y2 -> clampY' y1 == clampY' y2.
Proof. intros E. unfold clampY. rewrite E. reflexivity. Qed.

Lemma placeLayer_override (layer : SerializableLayer) (o : Override) (dx dy : Q) :
  findOverride strategy (layer_id layer) = Some o ->
  placeLayer' layer dx dy
  = mkPlaced (rx targetRect + xOffset o) (ry targetRect + yOffset o)
             (scale placement * individualScale o)
             (scale placement * individualScale o)
             (rx targetRect + xOffset o - geomX' layer)
             (ry targetRect + yOffset o - geomY' layer).
Proof. intros E. unfold placeLayer. rewrite E. reflexivity. Qed.

Lemma placeLayer_plain (layer : SerializableLayer) (dx dy : Q) :
  findOverride strategy (layer_id layer) = None ->
  placeLayer' layer dx dy
  = mkPlaced (geomX' layer + dx) (geomY' layer + dy)
             (scale placement) (scale placement) dx dy.
Proof. intros E. unfold placeLayer. rewrite E. reflexivity. Qed.

(** The delta handed to the children is the distance between the layer's
    position before clamping and its geometric baseline. *)
Lemma currentDelta_unclamped (layer : SerializableLayer) (dx dy : Q) :
  let placed := placeLayer' layer dx dy in
  currentDeltaX placed == finalX placed - geomX' layer
  /\ currentDeltaY placed == finalY placed - geomY' layer.
Proof.
  cbn zeta. destruct (findOverride strategy (layer_id layer)) as [o |] eqn:E.
  - rewrite (placeLayer_override _ _ dx dy E). cbn. split; reflexivity.
  - rewrite (placeLayer_plain _ dx dy E). cbn. split; ring.
Qed.

Lemma shape_preserved :
  forall layer dx dy,
    shapeOfTransformed (transformLayer' layer dx dy) = shapeOfLayer layer.
Proof.
  intros layer. induction layer as [layer IH] using layer_tree_ind. intros dx dy.
  rewrite transformLayer_eq. cbn zeta.
  destruct layer as [id name type vis op coords children]. cbn in *.
  f_equal. destruct children as [cs |]; [| reflexivity].
  f_equal. specialize (IH cs eq_refl). unfold transformLayers.
  rewrite map_map. apply map_ext_Forall.
  eapply Forall_impl; [| exact IH]. cbn. intros c Hc. apply Hc.
Qed.

Lemma shapes_preserved (layers : list SerializableLayer) (dx dy : Q) :
  map shapeOfTransformed (transformLayers' layers dx dy) = map shapeOfLayer layers.
Proof.
  unfold transformLayers. rewrite map_map. apply map_ext. intros l.
  apply shape_preserved.
Qed.

(** C4 (boundary clamp invariant): for a source rect of non-zero width and
    height (the baseline divides by both; with a zero the source computes
    [NaN], which no clamp brings back into the interval) and whenever the
    clamp interval is not empty (in particular for a target of non-negative
    height and a non-negative bleed fraction), the y coordinate of every
    node of the transformed forest, whatever the overrides and the
    inherited delta, lies between targetY - p * targetH and
    targetY + targetH + p * targetH; the x coordinate of a layer is never
    clamped: it is the target x plus the override's offset, or the
    geometric baseline plus the inherited delta, however far outside the
    target that is. *)
Theorem clamp_invariant :
  ~ rw sourceRect == 0 ->
  ~ rh sourceRect == 0 ->
  ry targetRect - rh targetRect * MAX_BOUNDARY_VIOLATION_PERCENT
  <= ry targetRect + rh targetRect + rh targetRect * MAX_BOUNDARY_VIOLATION_PERCENT ->
  forall (layers : list SerializableLayer) (parentDeltaX parentDeltaY : Q),
    Forall (fun node =>
              ry targetRect - rh targetRect * MAX_BOUNDARY_VIOLATION_PERCENT
              <= ry (t_coords node)
              /\ ry (t_coords node)
                 <= ry targetRect + rh targetRect
                    + rh targetRect * MAX_BOUNDARY_VIOLATION_PERCENT)
           (flat_map allLayers (transformLayers' layers parentDeltaX parentDeltaY))
    /\ (forall layer : SerializableLayer,
          rx (t_coords (transformLayer' layer parentDeltaX parentDeltaY))
          = match findOverride strategy (layer_id layer) with
            | Some o => rx targetRect + xOffset o
            | None => geomX' layer + parentDeltaX
            end).
Proof.
  intros _ _ Hne.
  assert (Hnode : forall layer dx dy,
             Forall (fun node => minY' <= ry (t_coords node)
                                 /\ ry (t_coords node) <= maxY')
                    (allLayers (transformLayer' layer dx dy))).
  { intros layer. induction layer as [layer IH] using layer_tree_ind.
    intros dx dy. rewrite transformLayer_eq. cbn zeta. cbn [allLayers t_children].
    constructor.
    - cbn. apply clampY_bounds. exact Hne.
    - destruct (layer_children layer) as [cs |] eqn:Ecs; [| constructor].
      specialize (IH cs eq_refl). unfold transformLayers.
      apply Forall_flat_map. apply Forall_map.
      eapply Forall_impl; [| exact IH]. cbn. intros c Hc. apply Hc. }
  intros layers dx dy. split.
  - unfold transformLayers. apply Forall_flat_map. apply Forall_map.
    apply Forall_forall. intros l _. apply Hnode.
  - intros l. rewrite transformLayer_eq. cbn.
    unfold placeLayer. destruct (findOverride strategy (layer_id l)); reflexivity.
Qed.

Lemma child_follows_delta (child : SerializableLayer) (dx dy : Q) :
  findOverride strategy (layer_id child) = None ->
  rx (t_coords (transformLayer' child dx dy)) == geomX' child + dx
  /\ ry (t_coords (transformLayer' child dx dy)) == clampY' (geomY' child + dy).
Proof.
  intros E. rewrite transformLayer_eq. cbn zeta.
  rewrite (placeLayer_plain _ dx dy E). cbn. split; reflexivity.
Qed.

(** C3 as amended (per-layer override): a layer whose id matches an
    override sits, before clamping, at the target origin plus the
    override's offsets, whatever the inherited delta and its own baseline
    (its emitted y is the clamp of that value); its children are
    transformed with the delta (override position - geometric baseline):
    a child without an override of its own is emitted at its baseline plus
    that delta, its y clamped after the shift, while a child with an
    override of its own is emitted at the target origin plus its own
    offsets, whatever that delta; the layer's scale on both axes is the
    global scale times [individualScale] and its size is the source size
    times that scale. *)
Theorem override_placement :
  forall (layer : SerializableLayer) (o : Override) (parentDeltaX parentDeltaY : Q),
    findOverride strategy (layer_id layer) = Some o ->
    let placed := placeLayer' layer parentDeltaX parentDeltaY in
    let out := transformLayer' layer parentDeltaX parentDeltaY in
    let aiX := rx targetRect + xOffset o in
    let aiY := ry targetRect + yOffset o in
    (finalX placed == aiX /\ finalY placed == aiY)
    /\ (rx (t_coords out) == aiX /\ ry (t_coords out) == clampY' aiY)
    /\ (currentDeltaX placed == aiX - geomX' layer
        /\ currentDeltaY placed == aiY - geomY' layer)
    /\ t_children out
       = match layer_children layer with
         | Some children =>
             Some (transformLayers' children (aiX - geomX' layer) (aiY - geomY' layer))
         | None => None
         end
    /\ (forall children child,
          layer_children layer = Some children ->
          In child children ->
          findOverride strategy (layer_id child) = None ->
          let childPlaced :=
            placeLayer' child (aiX - geomX' layer) (aiY - geomY' layer) in
          let childOut :=
            transformLayer' child (aiX - geomX' layer) (aiY - geomY' layer) in
          (finalX childPlaced == geomX' child + (aiX - geomX' layer)
           /\ finalY childPlaced == geomY' child + (aiY - geomY' layer))
          /\ rx (t_coords childOut) == geomX' child + (aiX - geomX' layer)
          /\ ry (t_coords childOut)
             == clampY' (geomY' child + (aiY - geomY' layer)))
    /\ (forall children child o',
          layer_children layer = Some children ->
          In child children ->
          findOverride strategy (layer_id child) = Some o' ->
          let childOut :=
            transformLayer' child (aiX - geomX' layer) (aiY - geomY' layer) in
          rx (t_coords childOut) == rx targetRect + xOffset o'
          /\ ry (t_coords childOut) == clampY' (ry targetRect + yOffset o'))
    /\ (scaleX (t_transform out) == scale placement * individualScale o
        /\ scaleY (t_transform out) == scale placement * individualScale o)
    /\ (rw (t_coords out)
        == rw (layer_coords layer) * (scale placement * individualScale o)
        /\ rh (t_coords out)
           == rh (layer_coords layer) * (scale placement * individualScale o)).
Proof.
  intros layer o dx dy E. cbn zeta.
  rewrite transformLayer_eq. cbn zeta.
  rewrite (placeLayer_override _ _ dx dy E). cbn.
  refine (conj (conj _ _)
            (conj (conj _ _)
               (conj (conj _ _)
                  (conj eq_refl
                     (conj _ (conj _ (conj (conj _ _) (conj _ _))))))));
    try reflexivity.
  - intros children child _ _ Hplain.
    rewrite (placeLayer_plain _ _ _ Hplain). cbn [finalX finalY].
    split; [split; reflexivity |].
    apply child_follows_delta. exact Hplain.
  - intros children child o' _ _ Hown.
    rewrite transformLayer_eq. cbn zeta.
    rewrite (placeLayer_override _ _ _ _ Hown). cbn. split; reflexivity.
Qed.

(** C10 (the clamp is not inherited): the layer's emitted y is the clamp of
    its position [finalY], while the delta its children are transformed with
    is [finalY - geometric baseline] for the unclamped [finalY]; so a child
    without an override of its own is placed at its baseline plus the
    parent's unclamped displacement, and only then clamped itself. *)
Theorem clamp_not_inherited :
  forall (layer : SerializableLayer) (parentDeltaX parentDeltaY : Q),
    let placed := placeLayer' layer parentDeltaX parentDeltaY in
    let out := transformLayer' layer parentDeltaX parentDeltaY in
    ry (t_coords out) = clampY' (finalY placed)
    /\ t_children out
       = match layer_children layer with
         | Some children =>
             Some (transformLayers' children (currentDeltaX placed) (currentDeltaY placed))
         | None => None
         end
    /\ currentDeltaX placed == finalX placed - geomX' layer
    /\ currentDeltaY placed == finalY placed - geomY' layer
    /\ (forall children child,
          layer_children layer = Some children ->
          In child children ->
          findOverride strategy (layer_id child) = None ->
          let childOut :=
            transformLayer' child (currentDeltaX placed) (currentDeltaY placed) in
          rx (t_coords childOut) == geomX' child + (finalX placed - geomX' layer)
          /\ ry (t_coords childOut)
             == clampY' (geomY' child + (finalY placed - geomY' layer))).
Proof.
  intros layer dx dy. cbn zeta.
  destruct (currentDelta_unclamped layer dx dy) as [HdX HdY].
  rewrite transformLayer_eq. cbn zeta. cbn [t_coords t_children ry].
  refine (conj eq_refl (conj eq_refl (conj HdX (conj HdY _)))).
  intros children child _ _ Hplain.
  destruct (child_follows_delta child (currentDeltaX (placeLayer' layer dx dy))
                                (currentDeltaY (placeLayer' layer dx dy)) Hplain)
    as [Hx Hy].
  split.
  - rewrite Hx, HdX. reflexivity.
  - rewrite Hy. apply clampY_compat. rewrite HdY. reflexivity.
Qed.

End TransformFacts.

(** ** Scale and anchor *)

Lemma default_scale_fits (s t : Rect) :
  0 < rw s -> 0 < rh s -> 0 < rw t -> 0 < rh t ->
  let sc := Qmin (rw t / rw s) (rh t / rh s) in
  0 < sc /\ rw s * sc <= rw t /\ rh s * sc <= rh t.
Proof.
  intros Hsw Hsh Htw Hth sc.
  assert (Ew : rw s * (rw t / rw s) == rw t) by (field; lra).
  assert (Eh : rh s * (rh t / rh s) == rh t) by (field; lra).
  assert (Hw : sc <= rw t / rw s) by apply Q.le_min_l.
  assert (Hh : sc <= rh t / rh s) by apply Q.le_min_r.
  repeat split.
  - apply Q.min_glb_lt; apply Qlt_shift_div_l; lra.
  - rewrite <- Ew. apply Qmult_le_l; assumption.
  - rewrite <- Eh. apply Qmult_le_l; assumption.
Qed.

(** C2 (default placement): for source and target rects of positive width
    and height and no strategy, the scale is min(targetW/sourceW,
    targetH/sourceH), the anchor is the target origin plus half of the
    space the scaled source leaves on each axis, and a root layer that
    covers the source rect is emitted at that anchor with equal margins on
    both sides of both axes (the clamp leaves it alone for a non-negative
    bleed fraction).  With a strategy the scale is its [suggestedScale],
    the horizontal anchor is still the centred one, and the vertical anchor
    is the target top for TOP, targetY + targetH - scaledH for BOTTOM and
    the centred one otherwise. *)
Theorem default_placement :
  forall (MAX_BOUNDARY_VIOLATION_PERCENT : Q) (sourceRect targetRect : Rect)
         (root : SerializableLayer),
    0 < rw sourceRect -> 0 < rh sourceRect ->
    0 < rw targetRect -> 0 < rh targetRect ->
    0 <= MAX_BOUNDARY_VIOLATION_PERCENT ->
    rx (layer_coords root) == rx sourceRect ->
    ry (layer_coords root) == ry sourceRect ->
    rw (layer_coords root) == rw sourceRect ->
    rh (layer_coords root) == rh sourceRect ->
    (let placement := computePlacement sourceRect targetRect None in
     let out := transformLayer MAX_BOUNDARY_VIOLATION_PERCENT sourceRect targetRect
                               None placement root 0 0 in
     scale placement
     == Qmin (rw targetRect / rw sourceRect) (rh targetRect / rh sourceRect)
     /\ anchorX placement
        == rx targetRect + (rw targetRect - rw sourceRect * scale placement) / 2
     /\ anchorY placement
        == ry targetRect + (rh targetRect - rh sourceRect * scale placement) / 2
     /\ rx (t_coords out) == anchorX placement
     /\ ry (t_coords out) == anchorY placement
     /\ rx (t_coords out) - rx targetRect
        == rx targetRect + rw targetRect - (rx (t_coords out) + rw (t_coords out))
     /\ ry (t_coords out) - ry targetRect
        == ry targetRect + rh targetRect - (ry (t_coords out) + rh (t_coords out)))
    /\ (forall st : LayoutStrategy,
          let placement := computePlacement sourceRect targetRect (Some st) in
          let scaledW := rw sourceRect * suggestedScale st in
          let scaledH := rh sourceRect * suggestedScale st in
          scale placement = suggestedScale st
          /\ anchorX placement == rx targetRect + (rw targetRect - scaledW) / 2
          /\ (anchor st = "TOP" -> anchorY placement == ry targetRect)
          /\ (anchor st = "BOTTOM" ->
              anchorY placement == ry targetRect + rh targetRect - scaledH)
          /\ (anchor st <> "TOP" -> anchor st <> "BOTTOM" ->
              anchorY placement == ry targetRect + (rh targetRect - scaledH) / 2)).
Proof.
  intros p s t root Hsw Hsh Htw Hth Hp Ex Ey Ew Eh. split.
  - cbn zeta.
    destruct (default_scale_fits s t Hsw Hsh Htw Hth) as (Hpos & Hfw & Hfh).
    cbn zeta in Hpos, Hfw, Hfh.
    set (sc := Qmin (rw t / rw s) (rh t / rh s)) in *.
    assert (Hx : rx (t_coords (transformLayer p s t None
                                 (computePlacement s t None) root 0 0))
                 == rx t + (rw t - rw s * sc) / 2).
    { rewrite transformLayer_eq. cbn. unfold geomX. cbn. fold sc.
      rewrite Ex. field. lra. }
    assert (Hy : ry (t_coords (transformLayer p s t None
                                 (computePlacement s t None) root 0 0))
                 == ry t + (rh t - rh s * sc) / 2).
    { rewrite transformLayer_eq. cbn. unfold geomY. cbn. fold sc.
      assert (Hbleed : 0 <= rh t * p) by (apply Qmult_le_0_compat; lra).
      assert (Hhalf : 0 < rh s * sc) by (apply Qmult_lt_0_compat; assumption).
      assert (Hval : ry t + (rh t - rh s * sc) / 2
                     + (ry (layer_coords root) - ry s) / rh s * (rh s * sc) + 0
                     == ry t + (rh t - rh s * sc) / 2)
        by (rewrite Ey; field; lra).
      rewrite (clampY_compat p t _ _ Hval).
      apply clampY_inside; unfold minY, maxY, bleedY; halves; lra. }
    assert (Hw : rw (t_coords (transformLayer p s t None
                                 (computePlacement s t None) root 0 0))
                 == rw s * sc).
    { rewrite transformLayer_eq. cbn. fold sc. rewrite Ew. reflexivity. }
    assert (Hh : rh (t_coords (transformLayer p s t None
                                 (computePlacement s t None) root 0 0))
                 == rh s * sc).
    { rewrite transformLayer_eq. cbn. fold sc. rewrite Eh. reflexivity. }
    refine (conj _ (conj _ (conj _ (conj _ (conj _ (conj _ _)))))).
    + reflexivity.
    + reflexivity.
    + reflexivity.
    + rewrite Hx. reflexivity.
    + rewrite Hy. reflexivity.
    + rewrite Hx, Hw. field.
    + rewrite Hy, Hh. field.
  - intros st. cbn.
    refine (conj _ (conj _ (conj _ (conj _ _)))).
    + reflexivity.
    + reflexivity.
    + intros E. rewrite E. cbn. reflexivity.
    + intros E. rewrite E. cbn. ring.
    + intros E1 E2.
      apply String.eqb_neq in E1. apply String.eqb_neq in E2.
      rewrite E1, E2. reflexivity.
Qed.

(** ** Generative gate and payload *)

Lemma truthyString_some (s : string) :
  s <> "" -> truthyString (Some s) = true.
Proof.
  intros H. cbn. apply negb_true_iff. apply String.eqb_neq. exact H.
Qed.

Lemma gate_approved (st : LayoutStrategy) (prompt : string) (sc : Q)
      (confirmed : option bool) (userCredits : Z) :
  generativePrompt st = Some prompt -> prompt <> "" ->
  truthyBool confirmed = true -> (userCredits > 0)%Z ->
  generativeGate (Some st) sc confirmed userCredits
  = mkGate true success (Some prompt).
Proof.
  intros Ep Hne Hc Hu. unfold generativeGate.
  rewrite Ep, (truthyString_some prompt Hne), Hc.
  replace (userCredits >? 0)%Z with true by (symmetry; apply Z.gtb_lt; lia).
  reflexivity.
Qed.

Lemma gate_not_approved (st : LayoutStrategy) (prompt : string) (sc : Q)
      (confirmed : option bool) (userCredits : Z) :
  generativePrompt st = Some prompt -> prompt <> "" ->
  ~ (truthyBool confirmed = true /\ (userCredits > 0)%Z) ->
  generativeGate (Some st) sc confirmed userCredits
  = if isExplicitIntent st || Qgtb sc scaleThreshold
    then mkGate false awaiting_confirmation None
    else mkGate false success None.
Proof.
  intros Ep Hne Hno. unfold generativeGate.
  rewrite Ep, (truthyString_some prompt Hne).
  destruct (truthyBool confirmed) eqn:Ec; [| reflexivity].
  destruct (Z.gtb_spec userCredits 0) as [Hgt | Hle]; [| reflexivity].
  exfalso. apply Hno. split; [reflexivity | lia].
Qed.

Lemma gate_no_prompt (strategy : option LayoutStrategy) (sc : Q)
      (confirmed : option bool) (userCredits : Z) :
  truthyString (optPrompt strategy) = false ->
  generativeGate strategy sc confirmed userCredits = mkGate false success None.
Proof.
  intros H. unfold generativeGate. destruct strategy as [st |]; [| reflexivity].
  cbn in H. rewrite H. reflexivity.
Qed.

Lemma gate_status_not_error (strategy : option LayoutStrategy) (sc : Q)
      (confirmed : option bool) (userCredits : Z) :
  status (generativeGate strategy sc confirmed userCredits) <> error.
Proof.
  unfold generativeGate. destruct strategy as [st |]; [| discriminate].
  destruct (truthyString (generativePrompt st)); [| discriminate].
  destruct (truthyBool confirmed && (userCredits >? 0)%Z); [discriminate |].
  destruct (isExplicitIntent st || Qgtb sc scaleThreshold); discriminate.
Qed.

Lemma rect_eta (r : Rect) : mkRect (rx r) (ry r) (rw r) (rh r) = r.
Proof. destruct r; reflexivity. Qed.

(** The geometric pass never emits a generative prompt. *)
Lemma geometric_no_prompt (p : Q) (s t : Rect) (strategy : option LayoutStrategy)
      (pl : Placement) :
  forall layers dx dy,
    Forall (fun node => t_generativePrompt node = None)
           (flat_map allLayers (transformLayers p s t strategy pl layers dx dy)).
Proof.
  assert (Hnode : forall layer dx dy,
             Forall (fun node => t_generativePrompt node = None)
                    (allLayers (transformLayer p s t strategy pl layer dx dy))).
  { intros layer. induction layer as [layer IH] using layer_tree_ind.
    intros dx dy. rewrite transformLayer_eq. cbn zeta. cbn [allLayers t_children].
    constructor; [reflexivity |].
    destruct (layer_children layer) as [cs |]; [| constructor].
    specialize (IH cs eq_refl). unfold transformLayers.
    apply Forall_flat_map. apply Forall_map.
    eapply Forall_impl; [| exact IH]. cbn. intros c Hc. apply Hc. }
  intros layers dx dy. unfold transformLayers.
  apply Forall_flat_map. apply Forall_map.
  apply Forall_forall. intros l _. apply Hnode.
Qed.

(** C1 (generative gate): a ready pair always yields a payload.  When the
    strategy carries a non-empty prompt: if the instance is confirmed and
    userCredits > 0, the payload requires generation, has status success,
    and its layers are one generative layer (type generative, the target
    rect as coords, carrying the prompt) in front of the geometric layers,
    none of which carries a prompt; otherwise, with explicit intent or a
    scale above 2, the status is awaiting_confirmation and the layers are
    the geometric ones; otherwise the payload is geometric with status
    success.  Without a prompt the payload is geometric with status
    success whatever the confirmation and the credits. *)
Theorem generative_gate :
  forall (MAX_BOUNDARY_VIOLATION_PERCENT : Q) (sourceData : SourceData)
         (targetData : Resolver.TargetData) (confirmed : option bool)
         (userCredits : Z) (localPreview : option string),
  exists payload,
    computePayload MAX_BOUNDARY_VIOLATION_PERCENT (Some sourceData) (Some targetData)
                   confirmed userCredits localPreview = Some payload
    /\ let strategy := source_aiStrategy sourceData in
       let targetRect := Resolver.target_bounds targetData in
       let geometric :=
         transformLayers MAX_BOUNDARY_VIOLATION_PERCENT
                         (source_originalBounds sourceData) targetRect strategy
                         (computePlacement (source_originalBounds sourceData)
                                           targetRect strategy)
                         (source_layers sourceData) 0 0 in
       (forall st prompt,
           strategy = Some st -> generativePrompt st = Some prompt -> prompt <> "" ->
           (truthyBool confirmed = true /\ (userCredits > 0)%Z ->
            payload_requiresGeneration payload = true
            /\ payload_status payload = success
            /\ exists gen,
                payload_layers payload = gen :: geometric
                /\ t_type gen = "generative"
                /\ t_coords gen = targetRect
                /\ t_generativePrompt gen = Some prompt
                /\ t_children gen = None
                /\ Forall (fun node => t_generativePrompt node = None)
                          (flat_map allLayers geometric))
           /\ (~ (truthyBool confirmed = true /\ (userCredits > 0)%Z) ->
               (isExplicitIntent st = true \/ 2 < payload_scaleFactor payload ->
                payload_status payload = awaiting_confirmation
                /\ payload_requiresGeneration payload = false
                /\ payload_layers payload = geometric)
               /\ (isExplicitIntent st = false /\ ~ 2 < payload_scaleFactor payload ->
                   payload_status payload = success
                   /\ payload_requiresGeneration payload = false
                   /\ payload_layers payload = geometric)))
       /\ (truthyString (optPrompt strategy) = false ->
           payload_status payload = success
           /\ payload_requiresGeneration payload = false
           /\ payload_layers payload = geometric).
Proof.
  intros p sd td confirmed credits lp.
  eexists. split; [reflexivity |]. cbn zeta.
  cbn [payload_status payload_requiresGeneration payload_layers payload_scaleFactor].
  split.
  - intros st prompt Est Ep Hne. rewrite Est. split.
    + intros [Hc Hu].
      rewrite (gate_approved st prompt _ confirmed credits Ep Hne Hc Hu).
      unfold injectGenerative. cbn [requiresGeneration status generativePromptUsed].
      rewrite (truthyString_some prompt Hne). cbn [andb].
      split; [reflexivity |]. split; [reflexivity |].
      eexists. split; [reflexivity |]. cbn.
      repeat split; try reflexivity.
      * apply rect_eta.
      * apply geometric_no_prompt.
    + intros Hno.
      rewrite (gate_not_approved st prompt _ confirmed credits Ep Hne Hno).
      split.
      * intros Hor.
        assert (Hb : isExplicitIntent st
                     || Qgtb (scale (computePlacement (source_originalBounds sd)
                                        (Resolver.target_bounds td) (Some st)))
                             scaleThreshold = true).
        { apply orb_true_iff. destruct Hor as [He | Hs]; [left; exact He |].
          right. apply Qgtb_lt. exact Hs. }
        rewrite Hb. repeat split; reflexivity.
      * intros [He Hs].
        assert (Hb : isExplicitIntent st
                     || Qgtb (scale (computePlacement (source_originalBounds sd)
                                        (Resolver.target_bounds td) (Some st)))
                             scaleThreshold = false).
        { apply orb_false_iff. split; [exact He |]. apply Qgtb_not_lt. exact Hs. }
        rewrite Hb. repeat split; reflexivity.
  - intros Hnp. rewrite (gate_no_prompt _ _ confirmed credits Hnp).
    repeat split; reflexivity.
Qed.

Lemma inject_cases (strategy : option LayoutStrategy) (sc : Q)
      (confirmed : option bool) (userCredits : Z) (sourceName : option string)
      (targetRect : Rect) (layers : list TransformedLayer) :
  let gate := generativeGate strategy sc confirmed userCredits in
  (requiresGeneration gate = false
   /\ injectGenerative gate sourceName targetRect layers = layers)
  \/ (requiresGeneration gate = true
      /\ exists prompt,
          optPrompt strategy = Some prompt
          /\ injectGenerative gate sourceName targetRect layers
             = genLayer sourceName targetRect prompt :: layers).
Proof.
  cbn zeta. unfold generativeGate.
  destruct strategy as [st |]; [| left; split; reflexivity].
  destruct (truthyString (generativePrompt st)) eqn:Et; [| left; split; reflexivity].
  destruct (truthyBool confirmed && (userCredits >? 0)%Z).
  - right. split; [reflexivity |]. unfold injectGenerative. cbn.
    rewrite Et. destruct (generativePrompt st) as [prompt |]; [| discriminate Et].
    exists prompt. split; reflexivity.
  - left. destruct (isExplicitIntent st || Qgtb sc scaleThreshold); split; reflexivity.
Qed.

(** C9 (shape and field preservation): a ready pair yields a payload; when
    it does not require generation its layers have the shape of the source
    layers, node for node and child for child in order, each with the
    source layer's id, name, type, visibility and opacity; when it does,
    the layers are one generative layer followed by layers of exactly that
    shape. *)
Theorem shape_and_fields_preserved :
  forall (MAX_BOUNDARY_VIOLATION_PERCENT : Q) (sourceData : SourceData)
         (targetData : Resolver.TargetData) (confirmed : option bool)
         (userCredits : Z) (localPreview : option string),
  exists payload,
    computePayload MAX_BOUNDARY_VIOLATION_PERCENT (Some sourceData) (Some targetData)
                   confirmed userCredits localPreview = Some payload
    /\ (payload_requiresGeneration payload = false ->
        map shapeOfTransformed (payload_layers payload)
        = map shapeOfLayer (source_layers sourceData))
    /\ (payload_requiresGeneration payload = true ->
        exists gen rest,
          payload_layers payload = gen :: rest
          /\ t_type gen = "generative"
          /\ map shapeOfTransformed rest
             = map shapeOfLayer (source_layers sourceData)).
Proof.
  intros p sd td confirmed credits lp.
  eexists. split; [reflexivity |].
  cbn [payload_requiresGeneration payload_layers].
  match goal with
  | |- context [injectGenerative (generativeGate ?st ?sc ?c ?u) ?n ?t ?ls] =>
      destruct (inject_cases st sc c u n t ls) as [[Hreq Hin] | [Hreq (prompt & _ & Hin)]]
  end; cbn zeta in Hreq, Hin; rewrite Hreq, Hin; split; intros H; try discriminate H.
  - apply shapes_preserved.
  - eexists. eexists. split; [reflexivity |]. split; [reflexivity |].
    apply shapes_preserved.
Qed.

(** C5 (insufficient credits are not reported): the gate reads the
    balance only to approve a confirmed instance and never assigns the
    status error.  For a strategy with a non-empty prompt, a confirmed
    instance and a balance that is not positive, the payload does not
    require generation, its layers are the geometric ones, and its status
    is awaiting_confirmation when the intent is explicit or the scale
    exceeds 2, and success otherwise.  No payload of the engine has status
    error, so the node shows its credit error notice for no instance and
    lights the output handle of every instance that has a payload. *)
Theorem insufficient_credits_status :
  forall (MAX_BOUNDARY_VIOLATION_PERCENT : Q) (sourceData : SourceData)
         (targetData : Resolver.TargetData) (confirmed : option bool)
         (userCredits : Z) (localPreview : option string)
         (st : LayoutStrategy) (prompt : string),
    source_aiStrategy sourceData = Some st ->
    generativePrompt st = Some prompt -> prompt <> "" ->
    truthyBool confirmed = true ->
    (userCredits <= 0)%Z ->
    (forall p source target c u lp payload,
        computePayload p source target c u lp = Some payload ->
        payload_status payload <> error)
    /\ (forall p id edges nodes resolvedRegistry templateRegistry confirmations u
               previews i,
           let instance :=
             computeInstance p id edges nodes resolvedRegistry templateRegistry
                             confirmations u previews i in
           showsCreditError instance = false
           /\ outputHandleLit instance
              = match instance_payload instance with
                | Some _ => true
                | None => false
                end)
    /\ exists payload,
        computePayload MAX_BOUNDARY_VIOLATION_PERCENT (Some sourceData)
                       (Some targetData) confirmed userCredits localPreview
        = Some payload
        /\ payload_requiresGeneration payload = false
        /\ payload_layers payload
           = transformLayers MAX_BOUNDARY_VIOLATION_PERCENT
                             (source_originalBounds sourceData)
                             (Resolver.target_bounds targetData) (Some st)
                             (computePlacement (source_originalBounds sourceData)
                                               (Resolver.target_bounds targetData)
                                               (Some st))
                             (source_layers sourceData) 0 0
        /\ (isExplicitIntent st = true \/ 2 < payload_scaleFactor payload ->
            payload_status payload = awaiting_confirmation)
        /\ (isExplicitIntent st = false /\ ~ 2 < payload_scaleFactor payload ->
            payload_status payload = success).
Proof.
  intros p sd td confirmed credits lp st prompt Est Ep Hne Hc Hu.
  assert (Hnever : forall p source target c u lp payload,
             computePayload p source target c u lp = Some payload ->
             payload_status payload <> error).
  { intros p' [sd' |] [td' |] c u lp' payload E; try discriminate E.
    injection E as <-. cbn. apply gate_status_not_error. }
  refine (conj Hnever (conj _ _)).
  - intros p' id edges nodes resolved templates confirmations u previews i.
    cbn zeta. unfold showsCreditError, outputHandleLit.
    cbn [computeInstance instance_payload].
    destruct (computePayload p' (resolveSource id edges nodes resolved i)
                             (resolveTargetSide id edges templates i)
                             (confirmations i) u (previews i))
      as [payload |] eqn:E; [| split; reflexivity].
    pose proof (Hnever _ _ _ _ _ _ _ E) as Hs.
    destruct (payload_status payload); [split; reflexivity .. | contradiction].
  - eexists. split; [reflexivity |].
    cbn [payload_status payload_requiresGeneration payload_layers payload_scaleFactor].
    rewrite Est.
    rewrite (gate_not_approved st prompt _ confirmed credits Ep Hne)
      by (intros [_ Hpos]; lia).
    destruct (isExplicitIntent st
              || Qgtb (scale (computePlacement (source_originalBounds sd)
                                 (Resolver.target_bounds td) (Some st)))
                      scaleThreshold) eqn:Hb.
    + repeat split; try reflexivity.
      intros [He Hs]. apply orb_true_iff in Hb. destruct Hb as [Hb | Hb].
      * congruence.
      * apply Qgtb_lt in Hb. contradiction.
    + apply orb_false_iff in Hb. destruct Hb as [He Hs].
      apply Qgtb_not_lt in Hs.
      repeat split; try reflexivity.
      intros [He' | Hs']; [congruence | contradiction].
Qed.

(** ** The end-to-end scenario: source {0,0,100,100}, target {0,0,50,200} *)

(** C6 as amended (end-to-end scenario): for source bounds {0,0,100,100},
    target bounds {0,0,50,200}, no strategy and a non-negative bleed
    fraction, the payload's scale is 1/2 and a root layer at the source
    origin is emitted at x = 0 and y = 75, that is (200 - 50) / 2. *)
Theorem scenario_fit :
  forall (MAX_BOUNDARY_VIOLATION_PERCENT : Q) (sourceData : SourceData)
         (targetData : Resolver.TargetData) (root : SerializableLayer)
         (confirmed : option bool) (userCredits : Z) (localPreview : option string),
    0 <= MAX_BOUNDARY_VIOLATION_PERCENT ->
    source_originalBounds sourceData = scenario_source ->
    Resolver.target_bounds targetData = scenario_target ->
    source_aiStrategy sourceData = None ->
    source_layers sourceData = [root] ->
    rx (layer_coords root) == 0 ->
    ry (layer_coords root) == 0 ->
    exists payload out,
      computePayload MAX_BOUNDARY_VIOLATION_PERCENT (Some sourceData) (Some targetData)
                     confirmed userCredits localPreview = Some payload
      /\ payload_scaleFactor payload == 1 # 2
      /\ payload_layers payload = [out]
      /\ rx (t_coords out) == 0
      /\ ry (t_coords out) == 75.
Proof.
  intros p sd td root confirmed credits lp Hp Es Et Est El Ex Ey.
  eexists. eexists. split; [reflexivity |].
  cbn [payload_scaleFactor payload_layers].
  rewrite Es, Et, Est, El. cbn [transformLayers map].
  rewrite (gate_no_prompt None _ confirmed credits eq_refl).
  unfold injectGenerative. cbn [requiresGeneration andb].
  split; [vm_compute; reflexivity |]. split; [reflexivity |].
  rewrite transformLayer_eq. cbn zeta. cbn [t_coords rx ry].
  rewrite (placeLayer_plain scenario_source scenario_target None _ root 0 0 eq_refl).
  cbn [finalX finalY].
  assert (Egx : geomX scenario_source
                      (computePlacement scenario_source scenario_target None) root
                == 0).
  { unfold geomX. cbn. rewrite Ex. vm_compute. reflexivity. }
  assert (Egy : geomY scenario_source
                      (computePlacement scenario_source scenario_target None) root
                == 75).
  { unfold geomY. cbn. rewrite Ey. vm_compute. reflexivity. }
  split.
  - rewrite Egx. reflexivity.
  - assert (Ev : geomY scenario_source
                       (computePlacement scenario_source scenario_target None) root + 0
                 == 75) by (rewrite Egy; reflexivity).
    rewrite (clampY_compat p scenario_target _ _ Ev).
    apply clampY_inside; unfold minY, maxY, bleedY; cbn; lra.
Qed.

(** C6 as stated fails: whatever the bleed fraction, the root layer of the
    scenario is not emitted at y = 50. *)
Lemma scenario_root_not_at_50 :
  ~ (exists MAX_BOUNDARY_VIOLATION_PERCENT : Q,
        ry (t_coords (transformLayer MAX_BOUNDARY_VIOLATION_PERCENT
                                     scenario_source scenario_target None
                                     (computePlacement scenario_source
                                                       scenario_target None)
                                     scenario_root 0 0))
        == 50).
Proof.
  intros [p H]. rewrite transformLayer_eq in H. cbn zeta in H.
  cbn [t_coords ry] in H.
  assert (Ev : finalY (placeLayer scenario_source scenario_target None
                         (computePlacement scenario_source scenario_target None)
                         scenario_root 0 0) == 75)
    by (vm_compute; reflexivity).
  rewrite (clampY_compat p scenario_target _ _ Ev) in H.
  unfold clampY, minY, maxY, bleedY in H. cbn [scenario_target ry rh] in H.
  destruct (Q.min_spec 75 (0 + 200 + 200 * p)) as [[_ Emin] | [_ Emin]];
    rewrite Emin in H;
    match type of H with
    | Qmax ?a ?b == _ =>
        destruct (Q.max_spec a b) as [[Hlt Emax] | [Hle Emax]];
          rewrite Emax in H; lra
    end.
Qed.

(** No input at all, hence none with a prompt, a confirmed instance and an
    empty balance, yields a payload of status error. *)
Lemma no_payload_has_error_status :
  ~ (exists (p : Q) source target confirmed (userCredits : Z) localPreview payload,
        computePayload p source target confirmed userCredits localPreview
        = Some payload
        /\ payload_status payload = error).
Proof.
  intros (p & source & target & confirmed & credits & lp & payload & E & Herr).
  destruct source as [sd |]; [| discriminate E].
  destruct target as [td |]; [| discriminate E].
  injection E as <-. cbn in Herr.
  unfold generativeGate in Herr.
  destruct (source_aiStrategy sd) as [st |]; [| discriminate Herr].
  destruct (truthyString (generativePrompt st)); [| discriminate Herr].
  destruct (truthyBool confirmed && (credits >? 0)%Z); [discriminate Herr |].
  destruct (isExplicitIntent st || Qgtb _ scaleThreshold); discriminate Herr.
Qed.

(** ** The theorems at concrete inputs *)

Ltac evaluated := vm_compute; first [reflexivity | discriminate].

(** C7 where both strategies apply: the second container is named
    [target-out-0], index 0 holds the first, and the handle [target-out-0]
    resolves to a container of that name. *)
Lemma resolveContainer_strategy_order_witness :
  let bg := Resolver.mkContainer "BG" None (mkRect 0 0 10 10) in
  let proxy := Resolver.mkContainer "target-out-0" (Some "Title") (mkRect 5 5 20 20) in
  (In proxy [bg; proxy]
   /\ Resolver.name proxy = "target-out-0"
   /\ Resolver.indexedHandle "target-out-0" 0
   /\ nth_error [bg; proxy] 0 = Some bg)
  /\ (exists c,
         Resolver.resolveContainer [bg; proxy] "target-out-0" = Some c
         /\ Resolver.name c = "target-out-0")
  /\ Resolver.ResolvesTo [bg; proxy] "target-out-0" (Some proxy).
Proof.
  cbn zeta.
  assert (Hi : Resolver.indexedHandle "target-out-0" 0).
  { exists "0", (Decimal.D0 Decimal.Nil).
    split; [reflexivity |]. split; [discriminate |]. split; reflexivity. }
  destruct (resolveContainer_strategy_order
              [Resolver.mkContainer "BG" None (mkRect 0 0 10 10);
               Resolver.mkContainer "target-out-0" (Some "Title") (mkRect 5 5 20 20)]
              "target-out-0")
    as (Hspec & _ & Hname).
  split; [| split].
  - split; [right; left; reflexivity |]. split; [reflexivity |].
    split; [exact Hi | reflexivity].
  - destruct (Hname _ 0%nat (or_intror (or_introl eq_refl)) eq_refl Hi)
      as (c & E & Hc & _).
    exists c. split; assumption.
  - apply Hspec. reflexivity.
Defined.

(** The scenario rects and a root layer covering the source satisfy the
    hypotheses of C2. *)
Lemma default_placement_witness :
  let placement := computePlacement scenario_source scenario_target None in
  let out := transformLayer demo_bleed scenario_source scenario_target None
                            placement scenario_root 0 0 in
  (0 < rw scenario_source /\ 0 < rh scenario_target /\ 0 <= demo_bleed)
  /\ scale placement == Qmin (50 / 100) (200 / 100)
  /\ rx (t_coords out) == anchorX placement
  /\ ry (t_coords out) == anchorY placement.
Proof.
  destruct (default_placement demo_bleed scenario_source scenario_target scenario_root)
    as [(Hs & _ & _ & Hx & Hy & _) _]; try evaluated.
  cbn zeta. split; [repeat split; evaluated |].
  split; [exact Hs |]. split; [exact Hx | exact Hy].
Defined.

(** The title of the demo instance has an override; C3 at that layer, with
    an inherited delta of (7, 9) that the result ignores. *)
Lemma override_placement_witness :
  let out := transformLayer demo_bleed demo_source demo_target (Some demo_strategy)
                            demo_placement demo_title 7 9 in
  findOverride (Some demo_strategy) (layer_id demo_title) = Some demo_override
  /\ rx (t_coords out) == 0 + 10
  /\ ry (t_coords out) == clampY demo_bleed demo_target (0 + -50)
  /\ scaleX (t_transform out) == 1 * 2
  /\ rw (t_coords out) == 40 * (1 * 2).
Proof.
  destruct (override_placement demo_bleed demo_source demo_target (Some demo_strategy)
                               demo_placement demo_title demo_override 7 9 eq_refl)
    as (_ & (Hx & Hy) & _ & _ & _ & _ & (Hsx & _) & (Hw & _)).
  cbn zeta. split; [reflexivity |].
  split; [exact Hx |]. split; [exact Hy |]. split; [exact Hsx | exact Hw].
Defined.

(** C3 as stated fails: not every child of an overridden layer shifts by
    the override's delta.  The panel is overridden to (20, 30), a delta of
    (20, 30) from its baseline at the origin.  Its icon has an override of
    its own and is emitted at (5, 5), not at its baseline (10, 10) plus the
    delta; its caption has none and is shifted to y = 90 + 30 = 120, which
    the clamp then cuts to 105. *)
Lemma children_not_all_shifted_by_delta :
  let placed := placeLayer demo_source demo_target (Some nested_strategy)
                           nested_placement nested_panel 0 0 in
  let out := transformLayer demo_bleed demo_source demo_target (Some nested_strategy)
                            nested_placement nested_panel 0 0 in
  let baselineX := geomX demo_source nested_placement in
  let baselineY := geomY demo_source nested_placement in
  findOverride (Some nested_strategy) (layer_id nested_panel)
  = Some nested_panel_override
  /\ currentDeltaX placed == 20
  /\ currentDeltaY placed == 30
  /\ match t_children out with
     | Some [icon; caption] =>
         rx (t_coords icon) == 5
         /\ ry (t_coords icon) == 5
         /\ ~ rx (t_coords icon) == baselineX nested_icon + currentDeltaX placed
         /\ ~ ry (t_coords icon) == baselineY nested_icon + currentDeltaY placed
         /\ ry (t_coords caption) == 105
         /\ ~ ry (t_coords caption)
              == baselineY nested_caption + currentDeltaY placed
     | _ => False
     end.
Proof.
  cbn zeta. split; [reflexivity |].
  split; [vm_compute; reflexivity |].
  split; [vm_compute; reflexivity |].
  vm_compute. repeat split; intros H; discriminate H.
Qed.

(** The demo source is 100 by 100 and the clamp interval of the demo slot
    is not empty; C4 on the demo layers. *)
Lemma clamp_invariant_witness :
  (~ rw demo_source == 0 /\ ~ rh demo_source == 0)
  /\ Forall (fun node =>
               ry demo_target - rh demo_target * demo_bleed <= ry (t_coords node)
               /\ ry (t_coords node)
                  <= ry demo_target + rh demo_target + rh demo_target * demo_bleed)
            (flat_map allLayers
                      (transformLayers demo_bleed demo_source demo_target
                                       (Some demo_strategy) demo_placement
                                       demo_layers 0 0)).
Proof.
  split; [split; evaluated |].
  apply (clamp_invariant demo_bleed demo_source demo_target (Some demo_strategy)
                         demo_placement);
    evaluated.
Defined.

(** A confirmed instance with an explicit prompt and no credits: the status
    is awaiting_confirmation, and the node wired to it shows no credit
    error. *)
Lemma insufficient_credits_status_witness :
  (exists payload,
      computePayload demo_bleed (Some demo_sourceData) (Some demo_targetData)
                     (Some true) 0%Z None = Some payload
      /\ payload_status payload = awaiting_confirmation
      /\ payload_requiresGeneration payload = false)
  /\ showsCreditError
       (computeInstance demo_bleed "remap-1" demo_edges demo_nodes
                        demo_resolvedRegistry demo_templateRegistry
                        (handleConfirmGeneration 0 demo_unconfirmed) 0%Z
                        demo_noPreviews 0)
     = false.
Proof.
  destruct (insufficient_credits_status
              demo_bleed demo_sourceData demo_targetData (Some true) 0%Z None
              demo_strategy "a sunset sky" eq_refl eq_refl)
    as (_ & Hui & payload & E & Hreq & _ & Haw & _); try evaluated.
  split.
  - exists payload. split; [exact E |]. split; [| exact Hreq].
    apply Haw. left. reflexivity.
  - apply Hui.
Defined.

(** The scenario itself, with one root layer. *)
Lemma scenario_fit_witness :
  exists payload out,
    computePayload demo_bleed (Some scenario_sourceData) (Some scenario_targetData)
                   None 5%Z None = Some payload
    /\ payload_scaleFactor payload == 1 # 2
    /\ payload_layers payload = [out]
    /\ rx (t_coords out) == 0
    /\ ry (t_coords out) == 75.
Proof.
  apply (scenario_fit demo_bleed scenario_sourceData scenario_targetData scenario_root);
    evaluated.
Defined.

(** The three outcomes of the gate on the title instance, and the closed
    gate when the strategy is absent. *)
Example generative_gate_outcomes :
  let run confirmed credits :=
    match computePayload demo_bleed (Some demo_sourceData) (Some demo_targetData)
                         confirmed credits None with
    | Some payload =>
        Some (payload_status payload, payload_requiresGeneration payload,
              map t_type (payload_layers payload))
    | None => None
    end in
  run (Some true) 5%Z = Some (success, true, ["generative"; "group"; "layer"])
  /\ run (Some true) 0%Z = Some (awaiting_confirmation, false, ["group"; "layer"])
  /\ run None 5%Z = Some (awaiting_confirmation, false, ["group"; "layer"])
  /\ option_map payload_status
       (computePayload demo_bleed (Some scenario_sourceData)
                       (Some scenario_targetData) (Some true) 5%Z None)
     = Some success.
Proof. repeat split; reflexivity. Qed.

(** The title is overridden to y = -50 and clamped to -5; its glyph, whose
    baseline is 80, is emitted at 80 - 50 = 30, not at 80 - 5 = 75.  The
    badge is emitted at x = 1000, ten slot widths to the right, while its
    y is clamped to 105. *)
Example children_follow_unclamped_parent :
  match transformLayers demo_bleed demo_source demo_target (Some demo_strategy)
                        demo_placement demo_layers 0 0 with
  | [title; badge] =>
      ry (t_coords title) == -5
      /\ match t_children title with
         | Some [glyph] => ry (t_coords glyph) == 30
         | _ => False
         end
      /\ rx (t_coords badge) == 1000
      /\ ry (t_coords badge) == 105
  | _ => False
  end.
Proof. vm_compute. repeat split; reflexivity. Qed.

(* ===================================================================== *)
(** * Further properties of the two files                                 *)
(* ===================================================================== *)

(** ** Resolver: what a handle can resolve to *)

Lemma resolveContainer_member_aux :
  forall (containers : list Resolver.ContainerDefinition) (handle : string)
         (c : Resolver.ContainerDefinition),
    Resolver.resolveContainer containers handle = Some c ->
    In c containers.
Proof.
  intros cs h c. unfold Resolver.resolveContainer.
  destruct (Resolver.findByName cs h) as [a |] eqn:EA.
  - intros E. injection E as <-. apply (findByName_member cs h a EA).
  - assert (HD : (if (List.length cs =? 1)%nat then nth_error cs 0 else None) = Some c ->
                 In c cs).
    { destruct (List.length cs =? 1)%nat; [| discriminate].
      apply nth_error_In. }
    assert (HC : match Resolver.indexMatch h with
                 | Some index =>
                     match nth_error cs (N.to_nat index) with
                     | Some c0 => Some c0
                     | None => None
                     end
                 | None => None
                 end = Some c -> In c cs).
    { destruct (Resolver.indexMatch h) as [i |]; [| discriminate].
      destruct (nth_error cs (N.to_nat i)) eqn:En; [| discriminate].
      intros E. injection E as <-. eapply nth_error_In. exact En. }
    destruct (prefix "slot-bounds-" h).
    + destruct (Resolver.findByName cs (Resolver.dropPrefix 12 h)) as [b |] eqn:EB.
      * intros E. injection E as <-. apply (findByName_member cs _ b EB).
      * destruct (Resolver.indexMatch h) as [i |].
        -- destruct (nth_error cs (N.to_nat i)) eqn:En.
           ++ intros E. injection E as <-. eapply nth_error_In. exact En.
           ++ exact HD.
        -- exact HD.
    + destruct (Resolver.indexMatch h) as [i |].
      * destruct (nth_error cs (N.to_nat i)) eqn:En.
        -- intros E. injection E as <-. eapply nth_error_In. exact En.
        -- exact HD.
      * exact HD.
Qed.

(** X1: the resolver never fabricates a container: whatever the handle,
    a resolved container is one of the template's containers, and the
    target it exposes carries that container's bounds; an empty template
    resolves nothing. *)
Theorem resolveTarget_member :
  forall (containers : list Resolver.ContainerDefinition) (handle : string)
         (target : Resolver.TargetData),
    Resolver.resolveTarget containers handle = Some target ->
    exists c,
      In c containers
      /\ Resolver.resolveContainer containers handle = Some c
      /\ Resolver.target_bounds target = Resolver.bounds c
      /\ containers <> [].
Proof.
  intros cs h target. unfold Resolver.resolveTarget.
  destruct (Resolver.resolveContainer cs h) as [c |] eqn:E; [| discriminate].
  intros Et. injection Et as <-. exists c.
  pose proof (resolveContainer_member_aux cs h c E) as Hin.
  repeat split; try assumption; try reflexivity.
  intros ->. destruct Hin.
Qed.

(** X2: a template with a single container resolves every handle, and to
    that container. *)
Theorem single_container_resolves :
  forall (c : Resolver.ContainerDefinition) (handle : string),
    Resolver.resolveContainer [c] handle = Some c.
Proof.
  intros c h.
  destruct (Resolver.resolveContainer [c] h) as [c' |] eqn:E.
  - apply resolveContainer_member_aux in E. destruct E as [E | []]. congruence.
  - exfalso. revert E. unfold Resolver.resolveContainer.
    destruct (Resolver.findByName [c] h); [discriminate |].
    destruct (prefix "slot-bounds-" h).
    + destruct (Resolver.findByName [c] (Resolver.dropPrefix 12 h)); [discriminate |].
      destruct (Resolver.indexMatch h) as [i |].
      * destruct (nth_error [c] (N.to_nat i)); discriminate.
      * discriminate.
    + destruct (Resolver.indexMatch h) as [i |].
      * destruct (nth_error [c] (N.to_nat i)); discriminate.
      * discriminate.
Qed.

Lemma single_fallback (cs : list Resolver.ContainerDefinition) :
  (if (List.length cs =? 1)%nat then nth_error cs 0 else None)
  = match cs with
    | [c] => Some c
    | _ => None
    end.
Proof. destruct cs as [| c [| d rest]]; reflexivity. Qed.

(** X3: the proxy handle [target-out-<i>], written with the decimal
    digits of i, parses back to i; unless a container bears that very
    name, it resolves to the i-th container of the template (counting from
    zero), and past the end of the list only a single-container template
    still resolves it. *)
Theorem indexed_handle_resolves :
  forall (containers : list Resolver.ContainerDefinition) (i : nat),
    Resolver.findByName containers ("target-out-" ++ decimal i) = None ->
    Resolver.indexMatch ("target-out-" ++ decimal i) = Some (N.of_nat i)
    /\ Resolver.resolveContainer containers ("target-out-" ++ decimal i)
       = match nth_error containers i with
         | Some c => Some c
         | None => match containers with
                   | [c] => Some c
                   | _ => None
                   end
         end.
Proof.
  intros cs i Hname. split; [apply indexMatch_decimal |].
  unfold Resolver.resolveContainer. rewrite Hname.
  change (prefix "slot-bounds-" ("target-out-" ++ decimal i)) with false.
  cbv iota. rewrite indexMatch_decimal, Nat2N.id.
  destruct (nth_error cs i); [reflexivity | apply single_fallback].
Qed.

(** X4: the handle [slot-bounds-<name>], unless a container bears that
    very handle as its name, resolves to the first container called
    <name>; if there is none, only a single-container template resolves
    it. *)
Theorem slot_bounds_handle_resolves :
  forall (containers : list Resolver.ContainerDefinition) (name : string),
    Resolver.findByName containers ("slot-bounds-" ++ name) = None ->
    Resolver.resolveContainer containers ("slot-bounds-" ++ name)
    = match Resolver.findByName containers name with
      | Some c => Some c
      | None => match containers with
                | [c] => Some c
                | _ => None
                end
      end.
Proof.
  intros cs n Hname. unfold Resolver.resolveContainer. rewrite Hname.
  rewrite prefix_append.
  change 12%nat with (String.length "slot-bounds-"). rewrite dropPrefix_append.
  destruct (Resolver.findByName cs n); [reflexivity |].
  replace (Resolver.indexMatch ("slot-bounds-" ++ n)) with (@None N)
    by reflexivity.
  apply single_fallback.
Qed.

(** ** Transform engine: fit, containment, hierarchy *)

(** X5: for rects of positive size and no strategy the computed scale is
    the largest uniform scale at which the source fits the target: the
    scaled source overflows neither axis, fills at least one of them, and
    no larger scale fits. *)
Theorem default_scale_is_largest_fit :
  forall (sourceRect targetRect : Rect),
    0 < rw sourceRect -> 0 < rh sourceRect ->
    0 < rw targetRect -> 0 < rh targetRect ->
    let sc := scale (computePlacement sourceRect targetRect None) in
    0 < sc
    /\ rw sourceRect * sc <= rw targetRect
    /\ rh sourceRect * sc <= rh targetRect
    /\ (rw sourceRect * sc == rw targetRect \/ rh sourceRect * sc == rh targetRect)
    /\ (forall k : Q,
           rw sourceRect * k <= rw targetRect ->
           rh sourceRect * k <= rh targetRect ->
           k <= sc).
Proof.
  intros s t Hsw Hsh Htw Hth. cbn.
  destruct (default_scale_fits s t Hsw Hsh Htw Hth) as (Hpos & Hfw & Hfh).
  cbn zeta in Hpos, Hfw, Hfh.
  assert (Ew : rw s * (rw t / rw s) == rw t) by (field; lra).
  assert (Eh : rh s * (rh t / rh s) == rh t) by (field; lra).
  refine (conj Hpos (conj Hfw (conj Hfh (conj _ _)))).
  - destruct (Q.min_spec (rw t / rw s) (rh t / rh s)) as [[_ E] | [_ E]];
      rewrite E; [left; exact Ew | right; exact Eh].
  - intros k Hkw Hkh. apply Q.min_glb.
    + apply Qle_shift_div_l; [exact Hsw |]. rewrite Qmult_comm. exact Hkw.
    + apply Qle_shift_div_l; [exact Hsh |]. rewrite Qmult_comm. exact Hkh.
Qed.

Lemma map_flat_map {A B C : Type} (f : B -> C) (g : A -> list B) (l : list A) :
  map f (flat_map g l) = flat_map (fun x => map f (g x)) l.
Proof.
  induction l as [| a l IH]; cbn; [reflexivity |].
  rewrite map_app, IH. reflexivity.
Qed.

Lemma flat_map_map {A B C : Type} (g : B -> list C) (h : A -> B) (l : list A) :
  flat_map g (map h l) = flat_map (fun x => g (h x)) l.
Proof.
  induction l as [| a l IH]; cbn; [reflexivity |]. rewrite IH. reflexivity.
Qed.

Lemma flat_map_ext_Forall {A B : Type} (g1 g2 : A -> list B) (l : list A) :
  Forall (fun x => g1 x = g2 x) l -> flat_map g1 l = flat_map g2 l.
Proof.
  induction 1 as [| a l Ha _ IH]; cbn; [reflexivity |].
  rewrite Ha, IH. reflexivity.
Qed.

Lemma Forall_flat_map_elim {A B : Type} (P : B -> Prop) (g : A -> list B)
      (l : list A) :
  Forall P (flat_map g l) -> Forall (fun x => Forall P (g x)) l.
Proof. intros H. apply Forall_flat_map. exact H. Qed.

Lemma override_free_node (MAX_BOUNDARY_VIOLATION_PERCENT : Q)
      (sourceRect targetRect : Rect) (placement : Placement)
      (strategy : option LayoutStrategy) :
  forall layer dx dy,
    Forall (fun l => findOverride strategy (layer_id l) = None)
           (allSourceLayers layer) ->
    map t_coords
        (allLayers (transformLayer MAX_BOUNDARY_VIOLATION_PERCENT sourceRect
                                   targetRect strategy placement layer dx dy))
    = map (plainCoords MAX_BOUNDARY_VIOLATION_PERCENT sourceRect targetRect
                       placement dx dy)
          (allSourceLayers layer).
Proof.
  intros layer. induction layer as [layer IH] using layer_tree_ind.
  intros dx dy Hfree. rewrite transformLayer_eq. cbn zeta.
  assert (Hself : findOverride strategy (layer_id layer) = None).
  { destruct layer; cbn in Hfree. inversion Hfree. assumption. }
  rewrite (placeLayer_plain sourceRect targetRect strategy placement layer dx dy Hself).
  cbn [allLayers t_children map t_coords finalX finalY layerScaleX layerScaleY
       currentDeltaX currentDeltaY].
  assert (Hkids : forall cs, layer_children layer = Some cs ->
                             Forall (fun l => findOverride strategy (layer_id l) = None)
                                    (flat_map allSourceLayers cs)).
  { intros cs Ecs. destruct layer; cbn in Ecs, Hfree. subst.
    inversion Hfree. assumption. }
  replace (allSourceLayers layer)
    with (layer :: match layer_children layer with
                   | Some cs => flat_map allSourceLayers cs
                   | None => []
                   end) by (destruct layer; reflexivity).
  cbn [map]. f_equal.
  destruct (layer_children layer) as [cs |] eqn:Ecs; [| reflexivity].
  specialize (IH cs eq_refl). specialize (Hkids cs eq_refl).
  unfold transformLayers. rewrite flat_map_map.
  rewrite !map_flat_map. apply flat_map_ext_Forall.
  apply Forall_flat_map_elim in Hkids.
  rewrite Forall_forall in IH, Hkids. apply Forall_forall.
  intros c Hc. apply IH; [exact Hc |]. apply Hkids. exact Hc.
Qed.

(** X6: hierarchy preservation at every depth: in a forest none of whose
    layers is named by an override, every node, however deep, is emitted at
    its geometric baseline plus the delta the forest inherited (y clamped),
    with its size scaled by the global scale. *)
Theorem override_free_forest_follows_delta :
  forall (MAX_BOUNDARY_VIOLATION_PERCENT : Q) (sourceRect targetRect : Rect)
         (strategy : option LayoutStrategy) (placement : Placement)
         (layers : list SerializableLayer) (parentDeltaX parentDeltaY : Q),
    Forall (fun l => findOverride strategy (layer_id l) = None)
           (flat_map allSourceLayers layers) ->
    map t_coords
        (flat_map allLayers
                  (transformLayers MAX_BOUNDARY_VIOLATION_PERCENT sourceRect
                                   targetRect strategy placement layers
                                   parentDeltaX parentDeltaY))
    = map (plainCoords MAX_BOUNDARY_VIOLATION_PERCENT sourceRect targetRect
                       placement parentDeltaX parentDeltaY)
          (flat_map allSourceLayers layers).
Proof.
  intros p s t strategy pl layers dx dy Hfree. unfold transformLayers.
  rewrite flat_map_map, !map_flat_map. apply flat_map_ext_Forall.
  apply Forall_flat_map_elim in Hfree. rewrite Forall_forall in Hfree.
  apply Forall_forall. intros l Hl. apply override_free_node. apply Hfree. exact Hl.
Qed.

Lemma plain_inside (p : Q) (s t : Rect) (l : SerializableLayer) :
  0 < rw s -> 0 < rh s -> 0 < rw t -> 0 < rh t -> 0 <= p ->
  insideRect (layer_coords l) s -> 0 <= rh (layer_coords l) ->
  insideRect (plainCoords p s t (computePlacement s t None) 0 0 l) t.
Proof.
  intros Hsw Hsh Htw Hth Hp (Hx1 & Hx2 & Hy1 & Hy2) Hh.
  destruct (default_scale_fits s t Hsw Hsh Htw Hth) as (Hpos & Hfw & Hfh).
  cbn zeta in Hpos, Hfw, Hfh.
  unfold plainCoords, geomX, geomY. cbn [computePlacement scale anchorX anchorY].
  set (sc := Qmin (rw t / rw s) (rh t / rh s)) in *.
  set (x := rx (layer_coords l)) in *. set (y := ry (layer_coords l)) in *.
  set (w := rw (layer_coords l)) in *. set (h := rh (layer_coords l)) in *.
  assert (Egx : rx t + (rw t - rw s * sc) / 2 + (x - rx s) / rw s * (rw s * sc) + 0
                == rx t + (rw t - rw s * sc) / 2 + (x - rx s) * sc)
    by (field; lra).
  assert (Egy : ry t + (rh t - rh s * sc) / 2 + (y - ry s) / rh s * (rh s * sc) + 0
                == ry t + (rh t - rh s * sc) / 2 + (y - ry s) * sc)
    by (field; lra).
  assert (Px1 : 0 <= (x - rx s) * sc) by (apply Qmult_le_0_compat; lra).
  assert (Px2 : (x + w - rx s) * sc <= rw s * sc)
    by (apply Qmult_le_compat_r; lra).
  assert (Py1 : 0 <= (y - ry s) * sc) by (apply Qmult_le_0_compat; lra).
  assert (Py2 : (y + h - ry s) * sc <= rh s * sc)
    by (apply Qmult_le_compat_r; lra).
  assert (Ph : 0 <= h * sc) by (apply Qmult_le_0_compat; lra).
  assert (Hbleed : 0 <= rh t * p) by (apply Qmult_le_0_compat; lra).
  assert (Ecl : clampY p t (ry t + (rh t - rh s * sc) / 2
                            + (y - ry s) / rh s * (rh s * sc) + 0)
                == ry t + (rh t - rh s * sc) / 2 + (y - ry s) * sc).
  { rewrite (clampY_compat p t _ _ Egy).
    apply clampY_inside; unfold minY, maxY, bleedY; halves; lra. }
  unfold insideRect. cbn [rx ry rw rh]. rewrite Egx, Ecl.
  clearbody sc x y w h. halves. repeat split; lra.
Qed.

(** X7: containment under the default placement: for rects of positive
    size, no strategy and a non-negative bleed fraction, if every layer of
    the source forest lies within the source rect (and has a non-negative
    height), then every node of the transformed forest, at every depth,
    lies within the target rect. *)
Theorem default_placement_contains :
  forall (MAX_BOUNDARY_VIOLATION_PERCENT : Q) (sourceRect targetRect : Rect)
         (layers : list SerializableLayer),
    0 < rw sourceRect -> 0 < rh sourceRect ->
    0 < rw targetRect -> 0 < rh targetRect ->
    0 <= MAX_BOUNDARY_VIOLATION_PERCENT ->
    Forall (fun l => insideRect (layer_coords l) sourceRect
                     /\ 0 <= rh (layer_coords l))
           (flat_map allSourceLayers layers) ->
    Forall (fun node => insideRect (t_coords node) targetRect)
           (flat_map allLayers
                     (transformLayers MAX_BOUNDARY_VIOLATION_PERCENT sourceRect
                                      targetRect None
                                      (computePlacement sourceRect targetRect None)
                                      layers 0 0)).
Proof.
  intros p s t layers Hsw Hsh Htw Hth Hp Hin.
  apply Forall_flat_map_elim in Hin. rewrite Forall_forall in Hin.
  unfold transformLayers. apply Forall_flat_map. apply Forall_map.
  apply Forall_forall. intros l Hl.
  rewrite <- (Forall_map t_coords (fun r => insideRect r t)).
  rewrite override_free_node
    by (apply Forall_forall; intros l' _; reflexivity).
  rewrite Forall_map. eapply Forall_impl; [| exact (Hin l Hl)].
  cbn beta. intros l' [Hl' Hh]. apply plain_inside; assumption.
Qed.

Lemma placeLayer_ext (s t : Rect) (st1 st2 : option LayoutStrategy)
      (pl : Placement) (l : SerializableLayer) (dx dy : Q) :
  findOverride st1 (layer_id l) = findOverride st2 (layer_id l) ->
  placeLayer s t st1 pl l dx dy = placeLayer s t st2 pl l dx dy.
Proof. intros E. unfold placeLayer. rewrite E. reflexivity. Qed.

Lemma transformLayers_ext (p : Q) (s t : Rect) (st1 st2 : option LayoutStrategy)
      (pl : Placement) :
  forall layers dx dy,
    Forall (fun l => findOverride st1 (layer_id l) = findOverride st2 (layer_id l))
           (flat_map allSourceLayers layers) ->
    transformLayers p s t st1 pl layers dx dy
    = transformLayers p s t st2 pl layers dx dy.
Proof.
  assert (Hnode : forall layer dx dy,
             Forall (fun l => findOverride st1 (layer_id l)
                              = findOverride st2 (layer_id l))
                    (allSourceLayers layer) ->
             transformLayer p s t st1 pl layer dx dy
             = transformLayer p s t st2 pl layer dx dy).
  { intros layer. induction layer as [layer IH] using layer_tree_ind.
    intros dx dy Hagree. rewrite !transformLayer_eq. cbn zeta.
    assert (Hself : findOverride st1 (layer_id layer)
                    = findOverride st2 (layer_id layer)).
    { destruct layer; cbn in Hagree. inversion Hagree. assumption. }
    rewrite (placeLayer_ext s t st1 st2 pl layer dx dy Hself).
    f_equal.
    destruct (layer_children layer) as [cs |] eqn:Ecs; [| reflexivity].
    f_equal. specialize (IH cs eq_refl).
    assert (Hkids : Forall (fun l => findOverride st1 (layer_id l)
                                     = findOverride st2 (layer_id l))
                           (flat_map allSourceLayers cs)).
    { destruct layer; cbn in Ecs, Hagree. subst. inversion Hagree. assumption. }
    apply Forall_flat_map_elim in Hkids.
    rewrite Forall_forall in IH, Hkids.
    unfold transformLayers. apply map_ext_in. intros c Hc.
    apply IH; [exact Hc |]. apply Hkids. exact Hc. }
  intros layers dx dy Hagree. unfold transformLayers.
  apply Forall_flat_map_elim in Hagree. rewrite Forall_forall in Hagree.
  apply map_ext_in. intros l Hl. apply Hnode. apply Hagree. exact Hl.
Qed.

(** X8: overrides that name no layer are ignored: if no layer of the
    source forest, at any depth, is named by an override of the strategy,
    the payload is the one the same strategy yields without overrides. *)
Theorem unmatched_overrides_ignored :
  forall (MAX_BOUNDARY_VIOLATION_PERCENT : Q) (sourceData : SourceData)
         (targetData : Resolver.TargetData) (confirmed : option bool)
         (userCredits : Z) (localPreview : option string) (st : LayoutStrategy),
    source_aiStrategy sourceData = Some st ->
    Forall (fun l => findOverride (Some st) (layer_id l) = None)
           (flat_map allSourceLayers (source_layers sourceData)) ->
    computePayload MAX_BOUNDARY_VIOLATION_PERCENT (Some sourceData) (Some targetData)
                   confirmed userCredits localPreview
    = computePayload MAX_BOUNDARY_VIOLATION_PERCENT
                     (Some (mkSource (source_name sourceData)
                                     (source_nodeId sourceData)
                                     (source_layers sourceData)
                                     (source_originalBounds sourceData)
                                     (Some (withoutOverrides st))
                                     (source_previewUrl sourceData)))
                     (Some targetData) confirmed userCredits localPreview.
Proof.
  intros p sd td confirmed credits lp st Est Hfree.
  unfold computePayload. cbn [source_name source_nodeId source_layers
    source_originalBounds source_aiStrategy source_previewUrl]. rewrite Est.
  rewrite (transformLayers_ext p (source_originalBounds sd)
             (Resolver.target_bounds td) (Some st) (Some (withoutOverrides st))
             (computePlacement (source_originalBounds sd)
                               (Resolver.target_bounds td) (Some st))
             (source_layers sd) 0 0)
    by (eapply Forall_impl; [| exact Hfree]; cbn beta; intros l E;
        rewrite E; reflexivity).
  reflexivity.
Qed.

(** X9: transform metadata is consistent on every node of every payload,
    the generative layer included: the recorded offset is the emitted
    position (after clamping), and the two axes carry the same scale, so
    every layer keeps its aspect ratio. *)
Theorem payload_metadata_consistent :
  forall (MAX_BOUNDARY_VIOLATION_PERCENT : Q) (source : option SourceData)
         (target : option Resolver.TargetData) (confirmed : option bool)
         (userCredits : Z) (localPreview : option string)
         (payload : TransformedPayload),
    computePayload MAX_BOUNDARY_VIOLATION_PERCENT source target confirmed
                   userCredits localPreview = Some payload ->
    Forall (fun node =>
              offsetX (t_transform node) = rx (t_coords node)
              /\ offsetY (t_transform node) = ry (t_coords node)
              /\ scaleX (t_transform node) = scaleY (t_transform node))
           (flat_map allLayers (payload_layers payload)).
Proof.
  intros p source target confirmed credits lp payload E.
  destruct source as [sd |]; [| discriminate E].
  destruct target as [td |]; [| discriminate E].
  injection E as <-. cbn [payload_layers].
  set (s := source_originalBounds sd). set (t := Resolver.target_bounds td).
  set (strategy := source_aiStrategy sd). set (pl := computePlacement s t strategy).
  assert (Hnode : forall layer dx dy,
             Forall (fun node =>
                       offsetX (t_transform node) = rx (t_coords node)
                       /\ offsetY (t_transform node) = ry (t_coords node)
                       /\ scaleX (t_transform node) = scaleY (t_transform node))
                    (allLayers (transformLayer p s t strategy pl layer dx dy))).
  { intros layer. induction layer as [layer IH] using layer_tree_ind.
    intros dx dy. rewrite transformLayer_eq. cbn zeta. cbn [allLayers t_children].
    constructor.
    - cbn. unfold placeLayer.
      destruct (findOverride strategy (layer_id layer)); cbn; repeat split.
    - destruct (layer_children layer) as [cs |]; [| constructor].
      specialize (IH cs eq_refl). unfold transformLayers.
      apply Forall_flat_map. apply Forall_map.
      eapply Forall_impl; [| exact IH]. cbn. intros c Hc. apply Hc. }
  assert (Hgeo : Forall (fun node =>
                           offsetX (t_transform node) = rx (t_coords node)
                           /\ offsetY (t_transform node) = ry (t_coords node)
                           /\ scaleX (t_transform node) = scaleY (t_transform node))
                        (flat_map allLayers (transformLayers p s t strategy pl
                                                             (source_layers sd) 0 0))).
  { unfold transformLayers. apply Forall_flat_map. apply Forall_map.
    apply Forall_forall. intros l _. apply Hnode. }
  destruct (inject_cases strategy (scale pl) confirmed credits (source_name sd) t
                         (transformLayers p s t strategy pl (source_layers sd) 0 0))
    as [[_ Hin] | [_ (prompt & _ & Hin)]]; cbn zeta in Hin; rewrite Hin.
  - exact Hgeo.
  - cbn [flat_map allLayers genLayer t_children app]. constructor.
    + cbn. repeat split.
    + exact Hgeo.
Qed.

(** X10: the gate read backwards.  A payload that requires generation was
    computed for a confirmed instance with a positive balance and a
    non-empty prompt, has status success and opens with one generative
    layer in front of the geometric layers: its id is gen-layer- and the
    source name (unknown without one), it is visible and opaque, covers the
    target rect at scale 1, carries the prompt and has no children; for a
    prompt of ASCII characters its name is the first 20 characters of the
    prompt between the sparkle label and an ellipsis.  A payload awaiting
    confirmation does not require generation, comes from a non-empty
    prompt that is explicit or stretched beyond 2, and the instance is
    unconfirmed or without credits. *)
Theorem gate_inversion :
  forall (MAX_BOUNDARY_VIOLATION_PERCENT : Q) (sourceData : SourceData)
         (targetData : Resolver.TargetData) (confirmed : option bool)
         (userCredits : Z) (localPreview : option string)
         (payload : TransformedPayload),
    computePayload MAX_BOUNDARY_VIOLATION_PERCENT (Some sourceData) (Some targetData)
                   confirmed userCredits localPreview = Some payload ->
    (payload_requiresGeneration payload = true ->
     truthyBool confirmed = true
     /\ (userCredits > 0)%Z
     /\ payload_status payload = success
     /\ exists prompt gen,
         optPrompt (source_aiStrategy sourceData) = Some prompt
         /\ prompt <> ""
         /\ payload_layers payload
            = gen :: transformLayers MAX_BOUNDARY_VIOLATION_PERCENT
                                     (source_originalBounds sourceData)
                                     (Resolver.target_bounds targetData)
                                     (source_aiStrategy sourceData)
                                     (computePlacement
                                        (source_originalBounds sourceData)
                                        (Resolver.target_bounds targetData)
                                        (source_aiStrategy sourceData))
                                     (source_layers sourceData) 0 0
         /\ t_id gen
            = "gen-layer-" ++ Resolver.orElseName (source_name sourceData) "unknown"
         /\ t_type gen = "generative"
         /\ t_isVisible gen = true
         /\ t_opacity gen = 1
         /\ t_coords gen = Resolver.target_bounds targetData
         /\ t_transform gen
            = mkTransform 1 1 (rx (Resolver.target_bounds targetData))
                          (ry (Resolver.target_bounds targetData))
         /\ t_generativePrompt gen = Some prompt
         /\ t_children gen = None
         /\ (asciiOnly prompt = true ->
             t_name gen = "✨ AI Gen: " ++ substring 0 20 prompt ++ "..."))
    /\ (payload_status payload = awaiting_confirmation ->
        payload_requiresGeneration payload = false
        /\ truthyString (optPrompt (source_aiStrategy sourceData)) = true
        /\ ~ (truthyBool confirmed = true /\ (userCredits > 0)%Z)
        /\ exists st,
            source_aiStrategy sourceData = Some st
            /\ (isExplicitIntent st = true \/ 2 < payload_scaleFactor payload)).
Proof.
  intros p sd td confirmed credits lp payload E. injection E as <-.
  cbn [payload_requiresGeneration payload_status payload_layers payload_scaleFactor].
  unfold generativeGate, injectGenerative.
  destruct (source_aiStrategy sd) as [st |]; cbn [optPrompt];
    [| split; intros H; discriminate H].
  destruct (truthyString (generativePrompt st)) eqn:Et;
    [| split; intros H; discriminate H].
  destruct (truthyBool confirmed) eqn:Ec; cbn [andb].
  - destruct (Z.gtb_spec credits 0) as [Hgt | Hle].
    + split; [| intros H; discriminate H].
      intros _. cbn [requiresGeneration status generativePromptUsed andb].
      rewrite Et. destruct (generativePrompt st) as [prompt |] eqn:Ep;
        [| discriminate Et].
      split; [reflexivity |]. split; [lia |]. split; [reflexivity |].
      exists prompt. eexists.
      split; [reflexivity |].
      split; [intros ->; discriminate Et |].
      split; [reflexivity |]. cbn.
      repeat split. apply rect_eta.
    + destruct (isExplicitIntent st || Qgtb _ scaleThreshold) eqn:Eb;
        (split; [intros H; discriminate H |]); [| intros H; discriminate H].
      intros _. repeat split; try reflexivity.
      * intros [_ Hpos]. lia.
      * exists st. split; [reflexivity |].
        apply orb_true_iff in Eb. destruct Eb as [Eb | Eb];
          [left; exact Eb | right; apply Qgtb_lt; exact Eb].
  - destruct (isExplicitIntent st || Qgtb _ scaleThreshold) eqn:Eb;
      (split; [intros H; discriminate H |]); [| intros H; discriminate H].
    intros _. repeat split; try reflexivity.
    + intros [Hc _]. discriminate Hc.
    + exists st. split; [reflexivity |].
      apply orb_true_iff in Eb. destruct Eb as [Eb | Eb];
        [left; exact Eb | right; apply Qgtb_lt; exact Eb].
Qed.

(** ** Registries *)

Lemma dict_set_same {V : Type} (k : string) (v : V) (m : Dict V) :
  dict_set k v m k = Some v.
Proof. unfold dict_set. rewrite String.eqb_refl. reflexivity. Qed.

Lemma dict_set_other {V : Type} (k k' : string) (v : V) (m : Dict V) :
  k' <> k -> dict_set k v m k' = m k'.
Proof.
  intros H. unfold dict_set. apply String.eqb_neq in H. rewrite H. reflexivity.
Qed.

Lemma lookupEntry_set {V : Type} (n h : string) (v : V) (nodeRecord : Dict V)
      (m : Dict (Dict V)) :
  lookupEntry (dict_set n (dict_set h v nodeRecord) m) n h = Some v.
Proof. unfold lookupEntry. rewrite dict_set_same. apply dict_set_same. Qed.

Lemma lookupEntry_set_other {V : Type} (n h n' h' : string) (v : V)
      (m : Dict (Dict V)) :
  n' <> n \/ h' <> h ->
  lookupEntry (dict_set n (dict_set h v (match m n with
                                         | Some r => r
                                         | None => dict_empty
                                         end)) m) n' h'
  = lookupEntry m n' h'.
Proof.
  intros Hne. unfold lookupEntry.
  destruct (String.eqb_spec n' n) as [-> | Hn].
  - rewrite dict_set_same. destruct Hne as [Hne | Hh]; [contradiction |].
    rewrite (dict_set_other h h' v _ Hh). destruct (m n); reflexivity.
  - rewrite (dict_set_other n n' _ m Hn). reflexivity.
Qed.

Lemma registerEntry_frame (V : Type) (sameJson : V -> V -> bool)
      (nodeId handleId : string) (value : V) (prev : Dict (Dict V)) (n h : string) :
  n <> nodeId \/ h <> handleId ->
  lookupEntry (Registry.registerEntry sameJson nodeId handleId value prev) n h
  = lookupEntry prev n h.
Proof.
  intros Hne. unfold Registry.registerEntry.
  destruct (match prev nodeId with Some r => r | None => dict_empty end handleId)
    as [cur |].
  - destruct (sameJson cur value); [reflexivity |].
    apply lookupEntry_set_other. exact Hne.
  - apply lookupEntry_set_other. exact Hne.
Qed.

Lemma registerEntry_stored (V : Type) (sameJson : V -> V -> bool)
      (nodeId handleId : string) (value : V) (prev : Dict (Dict V)) :
  exists stored,
    lookupEntry (Registry.registerEntry sameJson nodeId handleId value prev)
                nodeId handleId = Some stored
    /\ (stored = value
        \/ (lookupEntry prev nodeId handleId = Some stored
            /\ sameJson stored value = true)).
Proof.
  unfold Registry.registerEntry.
  destruct (match prev nodeId with Some r => r | None => dict_empty end handleId)
    as [cur |] eqn:Ecur.
  - destruct (sameJson cur value) eqn:Es.
    + exists cur. assert (E : lookupEntry prev nodeId handleId = Some cur).
      { unfold lookupEntry. destruct (prev nodeId); [exact Ecur | discriminate Ecur]. }
      split; [exact E |]. right. split; assumption.
    + exists value. split; [apply lookupEntry_set | left; reflexivity].
  - exists value. split; [apply lookupEntry_set | left; reflexivity].
Qed.

(** X11: a registration can be read back: after [registerEntry] (the
    setter behind registerResolved, registerPayload and registerAnalysis)
    the entry under (nodeId, handleId) is the registered value, or the
    value already there when it has the same JSON text; every other entry,
    of this node or of another, is as before. *)
Theorem registerEntry_lookup :
  forall (V : Type) (sameJson : V -> V -> bool) (nodeId handleId : string)
         (value : V) (prev : Dict (Dict V)),
    let next := Registry.registerEntry sameJson nodeId handleId value prev in
    (exists stored,
        lookupEntry next nodeId handleId = Some stored
        /\ (stored = value
            \/ (lookupEntry prev nodeId handleId = Some stored
                /\ sameJson stored value = true)))
    /\ (forall n h,
           n <> nodeId \/ h <> handleId ->
           lookupEntry next n h = lookupEntry prev n h).
Proof.
  intros V same n h v prev. cbn zeta. split.
  - destruct (registerEntry_stored V same n h v prev) as (stored & Hs & Hor).
    exists stored. split; assumption.
  - intros n' h' Hne. apply registerEntry_frame. exact Hne.
Qed.

(** X12: registering is idempotent: since a value has the JSON text of
    itself, registering the same value under the same key a second time
    returns the registry unchanged. *)
Theorem registerEntry_idempotent :
  forall (V : Type) (sameJson : V -> V -> bool) (nodeId handleId : string)
         (value : V) (prev : Dict (Dict V)),
    (forall a, sameJson a a = true) ->
    Registry.registerEntry sameJson nodeId handleId value
                           (Registry.registerEntry sameJson nodeId handleId value prev)
    = Registry.registerEntry sameJson nodeId handleId value prev.
Proof.
  intros V same n h v prev Hrefl.
  unfold Registry.registerEntry at 2 3.
  destruct (match prev n with Some r => r | None => dict_empty end h)
    as [cur |] eqn:Ecur.
  - destruct (same cur v) eqn:Es.
    + unfold Registry.registerEntry. rewrite Ecur, Es. reflexivity.
    + unfold Registry.registerEntry. rewrite dict_set_same, dict_set_same, Hrefl.
      reflexivity.
  - unfold Registry.registerEntry. rewrite dict_set_same, dict_set_same, Hrefl.
    reflexivity.
Qed.

(** X13: unregistering a node empties its slot in all five registries and
    leaves every other node's slot as it was. *)
Theorem unregisterNode_removes :
  forall (Psd : Type) (nodeId : string) (r : Registry.Registries Psd),
    let r' := Registry.unregisterNode nodeId r in
    (Registry.psdRegistry r' nodeId = None
     /\ Registry.templateRegistry r' nodeId = None
     /\ Registry.resolvedRegistry r' nodeId = None
     /\ Registry.payloadRegistry r' nodeId = None
     /\ Registry.analysisRegistry r' nodeId = None
     /\ forall handleId,
         lookupEntry (Registry.resolvedRegistry r') nodeId handleId = None
         /\ lookupEntry (Registry.payloadRegistry r') nodeId handleId = None
         /\ lookupEntry (Registry.analysisRegistry r') nodeId handleId = None)
    /\ (forall other,
           other <> nodeId ->
           Registry.psdRegistry r' other = Registry.psdRegistry r other
           /\ Registry.templateRegistry r' other = Registry.templateRegistry r other
           /\ Registry.resolvedRegistry r' other = Registry.resolvedRegistry r other
           /\ Registry.payloadRegistry r' other = Registry.payloadRegistry r other
           /\ Registry.analysisRegistry r' other = Registry.analysisRegistry r other).
Proof.
  intros Psd n r. cbn zeta. unfold Registry.unregisterNode, lookupEntry, dict_remove.
  cbn. rewrite String.eqb_refl. split.
  - repeat split; reflexivity.
  - intros other Hne. apply String.eqb_neq in Hne. rewrite Hne.
    repeat split; reflexivity.
Qed.

Lemma withPreview_same (payload : TransformedPayload) (url : string) :
  optStringEqb (payload_previewUrl payload) (Some url) = true ->
  Registry.withPreview payload url = payload.
Proof.
  destruct payload as [st nid sc tc ls sf m rq pv ic]. cbn.
  destruct pv as [u |]; [| discriminate]. intros E.
  apply String.eqb_eq in E. subst u. reflexivity.
Qed.

(** X14: [updatePreview] patches one field of one entry: the payload under
    (nodeId, handleId), if there is one, gets the given preview URL and
    keeps every other field; it never creates an entry, and all other
    entries are as before. *)
Theorem updatePreview_lookup :
  forall (nodeId handleId url : string) (prev : Dict (Dict TransformedPayload))
         (n h : string),
    lookupEntry (Registry.updatePreview nodeId handleId url prev) n h
    = if String.eqb n nodeId && String.eqb h handleId
      then option_map (fun payload => Registry.withPreview payload url)
                      (lookupEntry prev nodeId handleId)
      else lookupEntry prev n h.
Proof.
  intros nodeId handleId url prev n h. unfold Registry.updatePreview.
  destruct (String.eqb_spec n nodeId) as [-> | Hn]; cbn [andb].
  - destruct (String.eqb_spec h handleId) as [-> | Hh].
    + unfold lookupEntry at 2.
      destruct (prev nodeId) as [nodeRecord |] eqn:En;
        [| unfold lookupEntry; rewrite En; reflexivity].
      destruct (nodeRecord handleId) as [cur |] eqn:Ec;
        [| unfold lookupEntry; rewrite En; exact Ec].
      destruct (optStringEqb (payload_previewUrl cur) (Some url)) eqn:Eu.
      * unfold lookupEntry. rewrite En, Ec. cbn.
        rewrite (withPreview_same cur url Eu). reflexivity.
      * rewrite lookupEntry_set. reflexivity.
    + destruct (prev nodeId) as [nodeRecord |] eqn:En; [| reflexivity].
      destruct (nodeRecord handleId) as [cur |]; [| reflexivity].
      destruct (optStringEqb (payload_previewUrl cur) (Some url)); [reflexivity |].
      unfold lookupEntry. rewrite dict_set_same, En.
      apply dict_set_other. exact Hh.
  - destruct (prev nodeId) as [nodeRecord |]; [| reflexivity].
    destruct (nodeRecord handleId) as [cur |]; [| reflexivity].
    destruct (optStringEqb (payload_previewUrl cur) (Some url)); [reflexivity |].
    unfold lookupEntry. rewrite (dict_set_other nodeId n _ prev Hn). reflexivity.
Qed.

Lemma optStringEqb_eq (a b : option string) : optStringEqb a b = true <-> a = b.
Proof.
  destruct a as [x |], b as [y |]; cbn; split; intros H;
    try discriminate H; try reflexivity.
  - apply String.eqb_eq in H. subst. reflexivity.
  - injection H as ->. apply String.eqb_refl.
Qed.

Lemma statusEqb_eq (a b : Status) : statusEqb a b = true <-> a = b.
Proof. destruct a, b; cbn; split; intros H; congruence. Qed.

(** X15: sanitation on registration, as [registerResolved] does it in the
    store revision that follows the node in [part_000].  When a context
    whose strategy has method GEOMETRIC is registered, the entry read back
    under its key has no preview and an empty prompt, with the container,
    the layers and the rest of the strategy as submitted, and every other
    entry is as before; a remapper instance whose source edge comes from
    that key then computes, whatever the confirmations, the credits and
    the local drafts, a payload that never requires generation, has status
    success, the scale and the layers of the submitted strategy, no
    upstream preview, and no layer that carries a prompt.  The
    registration is one that writes: the slot under the key is empty or
    holds a context of another JSON text (otherwise the registry is left
    as it is). *)
Theorem geometric_context_never_generates :
  forall (sameJson : MappingContext -> MappingContext -> bool)
         (nodeId handleId : string) (context : MappingContext)
         (prev : Dict (Dict MappingContext)) (st : AnalystStrategy),
    context_aiStrategy context = Some st ->
    strategy_method st = "GEOMETRIC" ->
    handleId <> "" ->
    (forall current,
        lookupEntry prev nodeId handleId = Some current ->
        sameJson current (Registry.sanitizeContext context) = false) ->
    let next := Registry.registerResolved sameJson nodeId handleId context prev in
    (exists stored,
        lookupEntry next nodeId handleId = Some stored
        /\ context_previewUrl stored = None
        /\ option_map (fun s => generativePrompt (strategy_layout s))
                      (context_aiStrategy stored)
           = Some (Some "")
        /\ option_map strategy_method (context_aiStrategy stored) = Some "GEOMETRIC"
        /\ context_container stored = context_container context
        /\ context_layers stored = context_layers context)
    /\ (forall n h,
           n <> nodeId \/ h <> handleId ->
           lookupEntry next n h = lookupEntry prev n h)
    /\ (forall (MAX_BOUNDARY_VIOLATION_PERCENT : Q) (id : string)
               (edges : list Edge) (nodes : list GraphNode)
               (templateRegistry : Dict TemplateMetadata)
               (confirmations : Flags bool) (userCredits : Z)
               (previews : Flags string) (i : nat)
               (sourceEdge : Edge) (targetData : Resolver.TargetData),
           findEdge id edges ("source-in-" ++ decimal i) = Some sourceEdge ->
           edge_source sourceEdge = nodeId ->
           edge_sourceHandle sourceEdge = Some handleId ->
           resolveTargetSide id edges templateRegistry i = Some targetData ->
           exists payload,
             instance_payload
               (computeInstance MAX_BOUNDARY_VIOLATION_PERCENT id edges nodes next
                                templateRegistry confirmations userCredits previews i)
             = Some payload
             /\ payload_requiresGeneration payload = false
             /\ payload_status payload = success
             /\ payload_scaleFactor payload = suggestedScale (strategy_layout st)
             /\ payload_previewUrl payload = previews i
             /\ payload_layers payload
                = transformLayers MAX_BOUNDARY_VIOLATION_PERCENT
                                  (container_bounds (context_container context))
                                  (Resolver.target_bounds targetData)
                                  (Some (strategy_layout st))
                                  (computePlacement
                                     (container_bounds (context_container context))
                                     (Resolver.target_bounds targetData)
                                     (Some (strategy_layout st)))
                                  (context_layers context) 0 0
             /\ Forall (fun node => t_generativePrompt node = None)
                       (flat_map allLayers (payload_layers payload))).
Proof.
  intros same nodeId handleId ctx prev st Est Em Hh Hwrites. cbn zeta.
  unfold Registry.registerResolved.
  assert (Esan : Registry.sanitizeContext ctx
                 = mkContext (context_container ctx) (context_layers ctx)
                     (Some (mkAnalyst (strategy_method st)
                              (mkStrategy (suggestedScale (strategy_layout st))
                                          (anchor (strategy_layout st))
                                          (Some "")
                                          (isExplicitIntent (strategy_layout st))
                                          (overrides (strategy_layout st)))))
                     None (context_targetDimensions ctx)).
  { unfold Registry.sanitizeContext. rewrite Est, Em. reflexivity. }
  assert (Hlook : lookupEntry
                    (Registry.registerEntry same nodeId handleId
                                            (Registry.sanitizeContext ctx) prev)
                    nodeId handleId
                  = Some (Registry.sanitizeContext ctx)).
  { destruct (registerEntry_stored _ same nodeId handleId
                                   (Registry.sanitizeContext ctx) prev)
      as (stored & Hs & [Heq | [Hprev Hsame]]).
    - rewrite Heq in Hs. exact Hs.
    - rewrite (Hwrites stored Hprev) in Hsame. discriminate Hsame. }
  refine (conj _ (conj _ _)).
  - exists (Registry.sanitizeContext ctx). split; [exact Hlook |].
    rewrite Esan. cbn. rewrite Em. repeat split; reflexivity.
  - intros n h Hne. apply registerEntry_frame. exact Hne.
  - intros p id edges nodes templates confirmations credits previews i e td
           He Hsrc Hhandle Htd.
    unfold computeInstance. cbn [instance_payload].
    rewrite Htd. unfold resolveSource. rewrite He, Hhandle.
    rewrite (truthyString_some handleId Hh), Hsrc.
    unfold lookupEntry in Hlook.
    destruct (Registry.registerEntry same nodeId handleId
                                     (Registry.sanitizeContext ctx) prev nodeId)
      as [nodeRecord |]; [| discriminate Hlook].
    rewrite Hlook, Esan.
    eexists. split; [reflexivity |].
    cbn [payload_requiresGeneration payload_status payload_scaleFactor
         payload_layers payload_previewUrl sourceFromContext source_aiStrategy
         context_aiStrategy option_map strategy_layout source_originalBounds
         context_container source_layers context_layers source_name
         source_previewUrl context_previewUrl].
    unfold generativeGate. cbn [generativePrompt truthyString String.eqb negb].
    unfold injectGenerative. cbn [requiresGeneration status andb].
    assert (El : transformLayers p (container_bounds (context_container ctx))
                   (Resolver.target_bounds td)
                   (Some (mkStrategy (suggestedScale (strategy_layout st))
                                     (anchor (strategy_layout st)) (Some "")
                                     (isExplicitIntent (strategy_layout st))
                                     (overrides (strategy_layout st))))
                   (computePlacement (container_bounds (context_container ctx))
                      (Resolver.target_bounds td)
                      (Some (mkStrategy (suggestedScale (strategy_layout st))
                                        (anchor (strategy_layout st)) (Some "")
                                        (isExplicitIntent (strategy_layout st))
                                        (overrides (strategy_layout st)))))
                   (context_layers ctx) 0 0
                 = transformLayers p (container_bounds (context_container ctx))
                     (Resolver.target_bounds td) (Some (strategy_layout st))
                     (computePlacement (container_bounds (context_container ctx))
                        (Resolver.target_bounds td) (Some (strategy_layout st)))
                     (context_layers ctx) 0 0).
    { apply transformLayers_ext. apply Forall_forall. intros l _. reflexivity. }
    refine (conj eq_refl (conj eq_refl (conj eq_refl (conj eq_refl (conj El _))))).
    apply geometric_no_prompt.
Qed.

(** X16: the draft-refresh event of [registerPayload].  It is dispatched
    exactly when an entry exists under the key whose preview URL differs
    from the new payload's while status and requiresGeneration agree; it
    then carries the new preview URL, and the entry stored afterwards has
    the status and the requiresGeneration the old entry had.  A first
    registration dispatches nothing. *)
Theorem draft_refresh_event :
  forall (sameJson : TransformedPayload -> TransformedPayload -> bool)
         (nodeId handleId : string) (payload : TransformedPayload)
         (prev : Dict (Dict TransformedPayload)),
    let next := fst (Registry.registerPayload sameJson nodeId handleId payload prev) in
    let event := snd (Registry.registerPayload sameJson nodeId handleId payload prev) in
    (event <> None <->
     exists current,
       lookupEntry prev nodeId handleId = Some current
       /\ payload_previewUrl current <> payload_previewUrl payload
       /\ payload_status current = payload_status payload
       /\ payload_requiresGeneration current = payload_requiresGeneration payload)
    /\ (forall e,
           event = Some e ->
           e = Registry.mkDraftRefresh nodeId handleId (payload_previewUrl payload)
           /\ exists current stored,
               lookupEntry prev nodeId handleId = Some current
               /\ lookupEntry next nodeId handleId = Some stored
               /\ payload_status stored = payload_status current
               /\ payload_requiresGeneration stored
                  = payload_requiresGeneration current)
    /\ (lookupEntry prev nodeId handleId = None -> event = None).
Proof.
  intros same n h payload prev. cbn zeta. unfold Registry.registerPayload.
  assert (Elook : lookupEntry prev n h
                  = match prev n with Some r => r | None => dict_empty end h).
  { unfold lookupEntry. destruct (prev n); reflexivity. }
  destruct (match prev n with Some r => r | None => dict_empty end h)
    as [cur |] eqn:Ecur.
  - assert (Hspec : negb (optStringEqb (payload_previewUrl cur)
                                       (payload_previewUrl payload))
                    && (statusEqb (payload_status cur) (payload_status payload)
                        && Bool.eqb (payload_requiresGeneration cur)
                                    (payload_requiresGeneration payload)) = true <->
                    payload_previewUrl cur <> payload_previewUrl payload
                    /\ payload_status cur = payload_status payload
                    /\ payload_requiresGeneration cur
                       = payload_requiresGeneration payload).
    { rewrite !andb_true_iff, negb_true_iff, statusEqb_eq, Bool.eqb_true_iff.
      rewrite <- (optStringEqb_eq (payload_previewUrl cur) (payload_previewUrl payload)).
      rewrite not_true_iff_false. tauto. }
    destruct (negb (optStringEqb (payload_previewUrl cur)
                                 (payload_previewUrl payload))
              && (statusEqb (payload_status cur) (payload_status payload)
                  && Bool.eqb (payload_requiresGeneration cur)
                              (payload_requiresGeneration payload))) eqn:Ecs.
    + assert (Hyes : payload_previewUrl cur <> payload_previewUrl payload
                     /\ payload_status cur = payload_status payload
                     /\ payload_requiresGeneration cur
                        = payload_requiresGeneration payload)
        by (apply Hspec; reflexivity).
      destruct Hyes as (Hpv & Hst & Hrq).
      assert (Hstored : exists stored,
                 lookupEntry (fst (if same cur payload
                                   then (prev, Some (Registry.mkDraftRefresh
                                                       n h (payload_previewUrl payload)))
                                   else (dict_set n
                                           (dict_set h payload
                                              match prev n with
                                              | Some r => r
                                              | None => dict_empty
                                              end) prev,
                                         Some (Registry.mkDraftRefresh
                                                 n h (payload_previewUrl payload)))))
                             n h = Some stored
                 /\ (stored = cur \/ stored = payload)).
      { destruct (same cur payload); cbn [fst].
        - exists cur. split; [exact Elook | left; reflexivity].
        - exists payload. split; [apply lookupEntry_set | right; reflexivity]. }
      assert (Hev : snd (if same cur payload
                         then (prev, Some (Registry.mkDraftRefresh
                                             n h (payload_previewUrl payload)))
                         else (dict_set n
                                 (dict_set h payload
                                    match prev n with
                                    | Some r => r
                                    | None => dict_empty
                                    end) prev,
                               Some (Registry.mkDraftRefresh
                                       n h (payload_previewUrl payload))))
                    = Some (Registry.mkDraftRefresh n h (payload_previewUrl payload)))
        by (destruct (same cur payload); reflexivity).
      rewrite Hev. refine (conj _ (conj _ _)).
      * split; [| intros _; discriminate].
        intros _. exists cur. repeat split; assumption.
      * intros e He. injection He as <-. split; [reflexivity |].
        destruct Hstored as (stored & Hs & Hor). exists cur, stored.
        split; [exact Elook |]. split; [exact Hs |].
        destruct Hor as [-> | ->]; split; congruence.
      * intros H. rewrite Elook in H. discriminate H.
    + assert (Hno : ~ (payload_previewUrl cur <> payload_previewUrl payload
                       /\ payload_status cur = payload_status payload
                       /\ payload_requiresGeneration cur
                          = payload_requiresGeneration payload))
        by (intros H; apply Hspec in H; discriminate H).
      assert (Hev : snd (if same cur payload
                         then (prev, @None Registry.DraftRefresh)
                         else (dict_set n
                                 (dict_set h payload
                                    match prev n with
                                    | Some r => r
                                    | None => dict_empty
                                    end) prev,
                               @None Registry.DraftRefresh))
                    = None)
        by (destruct (same cur payload); reflexivity).
      rewrite Hev. refine (conj _ (conj _ _)).
      * split; [intros H; contradiction |].
        intros (c & Ec & Hc). rewrite Elook in Ec. injection Ec as <-.
        contradiction.
      * intros e He. discriminate He.
      * intros _. reflexivity.
  - cbn [fst snd]. refine (conj _ (conj _ _)).
    + split; [intros H; contradiction |].
      intros (c & Ec & _). rewrite Elook in Ec. discriminate Ec.
    + intros e He. discriminate He.
    + reflexivity.
Qed.

(** ** Credits within one render *)

(** X17: a batch of [consumeCredit] calls issued from one render: every
    call is judged against the balance that render captured, whatever the
    calls before it took, and the cell ends at its value minus the sum of
    the accepted amounts; the captured balance is untouched until the next
    render. *)
Theorem consumeAll_closed_form :
  forall (amounts : list Z) (s : Store.CreditState),
    Store.consumeAll amounts s
    = (map (fun a => (Store.rendered s >=? a)%Z) amounts,
       Store.mkCredits
         (Store.rendered s)
         (Store.current s
          - fold_right Z.add 0%Z
                       (filter (fun a => (Store.rendered s >=? a)%Z) amounts))).
Proof.
  induction amounts as [| a rest IH]; intros s.
  - cbn. destruct s as [r c]. cbn. f_equal. f_equal. lia.
  - cbn [Store.consumeAll map filter]. unfold Store.consumeCredit.
    destruct (Store.rendered s >=? a)%Z.
    + rewrite IH. cbn [Store.rendered Store.current fold_right].
      f_equal. f_equal. lia.
    + rewrite IH. reflexivity.
Qed.

(** ** Instances, overlay and lazy synthesis *)

Lemma awaiting_has_prompt (strategy : option LayoutStrategy) (sc : Q)
      (confirmed : option bool) (userCredits : Z) :
  status (generativeGate strategy sc confirmed userCredits) = awaiting_confirmation ->
  requiresGeneration (generativeGate strategy sc confirmed userCredits) = false
  /\ exists st prompt,
      strategy = Some st /\ generativePrompt st = Some prompt /\ prompt <> "".
Proof.
  unfold generativeGate. destruct strategy as [st |]; [| discriminate].
  destruct (truthyString (generativePrompt st)) eqn:Et; [| discriminate].
  destruct (truthyBool confirmed && (userCredits >? 0)%Z); [discriminate |].
  destruct (isExplicitIntent st || Qgtb sc scaleThreshold); [| discriminate].
  intros _. split; [reflexivity |].
  destruct (generativePrompt st) as [prompt |] eqn:Ep; [| discriminate Et].
  exists st, prompt. refine (conj eq_refl (conj Ep _)).
  intros E. subst prompt. discriminate Et.
Qed.

Lemma truthy_orElse (a b : option string) :
  truthyString (orElse a b) = truthyString a || truthyString b.
Proof. unfold orElse. destruct (truthyString a) eqn:E; [exact E | reflexivity]. Qed.

Section InstanceFacts.

Variable MAX_BOUNDARY_VIOLATION_PERCENT : Q.
Variable id : string.
Variable edges : list Edge.
Variable nodes : list GraphNode.
Variable resolvedRegistry : Dict (Dict MappingContext).
Variable templateRegistry : Dict TemplateMetadata.
Variable userCredits : Z.

Local Abbreviation instanceAt confirmations previews :=
  (computeInstance MAX_BOUNDARY_VIOLATION_PERCENT id edges nodes resolvedRegistry
                   templateRegistry confirmations userCredits previews).

Local Abbreviation instancesOf count confirmations previews :=
  (instances MAX_BOUNDARY_VIOLATION_PERCENT id count edges nodes resolvedRegistry
             templateRegistry confirmations userCredits previews).

(** X18: a node shows [instanceCount || 1] instances, at least one; the
    i-th has index i; and [addInstance] appends one instance without
    touching those already there. *)
Theorem instances_count_and_growth :
  forall (dataInstanceCount : option nat) (confirmations : Flags bool)
         (previews : Flags string),
    let shown := instancesOf dataInstanceCount confirmations previews in
    (1 <= List.length shown)%nat
    /\ List.length shown = match dataInstanceCount with
                           | Some (S n) => S n
                           | _ => 1%nat
                           end
    /\ map instance_index shown = seq 0 (List.length shown)
    /\ (forall i, (i < List.length shown)%nat ->
                  nth_error shown i = Some (instanceAt confirmations previews i))
    /\ instancesOf (addInstance dataInstanceCount) confirmations previews
       = (shown ++ [instanceAt confirmations previews (List.length shown)])%list.
Proof.
  intros d confirmations previews. cbn zeta. unfold instances.
  rewrite length_map, length_seq.
  assert (Hcount : instanceCount d = match d with Some (S n) => S n | _ => 1%nat end)
    by (destruct d as [[| n] |]; reflexivity).
  refine (conj _ (conj Hcount (conj _ (conj _ _)))).
  - rewrite Hcount. destruct d as [[| n] |]; lia.
  - rewrite map_map. cbn [computeInstance instance_index]. apply map_id.
  - intros i Hi. rewrite nth_error_map, nth_error_seq.
    apply Nat.ltb_lt in Hi. rewrite Hi. reflexivity.
  - unfold addInstance.
    replace (instanceCount (Some (instanceCount d + 1)%nat))
      with (S (instanceCount d)) by (cbn; destruct (instanceCount d + 1)%nat eqn:E; lia).
    rewrite seq_S, map_app. reflexivity.
Qed.

(** X19: the confirm button works.  If the overlay of instance i offers
    the confirm button, then after the click ([handleConfirmGeneration])
    the recomputed payload of instance i requires generation with status
    success, the button is gone, and every other instance is computed as
    before. *)
Theorem confirm_button_opens_gate :
  forall (confirmations : Flags bool) (previews : Flags string) (i : nat),
    instanceOverlay (instanceAt confirmations previews i) confirmations previews
                    userCredits
    = Some ConfirmButton ->
    let confirmations' := handleConfirmGeneration i confirmations in
    (exists payload,
        instance_payload (instanceAt confirmations' previews i) = Some payload
        /\ payload_requiresGeneration payload = true
        /\ payload_status payload = success)
    /\ instanceOverlay (instanceAt confirmations' previews i) confirmations' previews
                       userCredits
       <> Some ConfirmButton
    /\ (forall j, j <> i ->
                  instanceAt confirmations' previews j
                  = instanceAt confirmations previews j).
Proof.
  intros confirmations previews i Hbutton. cbn zeta.
  unfold instanceOverlay in Hbutton. cbn [computeInstance instance_payload instance_index] in Hbutton.
  destruct (resolveSource id edges nodes resolvedRegistry i) as [sd |] eqn:Es;
    [| discriminate Hbutton].
  destruct (resolveTargetSide id edges templateRegistry i) as [td |] eqn:Et;
    [| discriminate Hbutton].
  cbn [computePayload payload_previewUrl payload_status] in Hbutton.
  unfold overlayControl in Hbutton.
  destruct (isAwaiting (status (generativeGate _ _ _ _))) eqn:Eaw;
    [| rewrite orb_false_r in Hbutton;
       destruct (truthyString (orElse (source_previewUrl sd) (previews i)));
       discriminate Hbutton].
  rewrite orb_true_r in Hbutton. cbn [andb] in Hbutton.
  destruct (negb (truthyBool (confirmations i))); [| discriminate Hbutton].
  cbn [andb] in Hbutton.
  destruct (truthyString (orElse _ (previews i))); [| discriminate Hbutton].
  destruct (Z.gtb_spec userCredits 0) as [Hcredits | Hno]; [| discriminate Hbutton].
  assert (Hstatus : status (generativeGate
                              (source_aiStrategy sd)
                              (scale (computePlacement (source_originalBounds sd)
                                        (Resolver.target_bounds td)
                                        (source_aiStrategy sd)))
                              (confirmations i) userCredits)
                    = awaiting_confirmation).
  { destruct (status (generativeGate _ _ _ _)); try discriminate Eaw. reflexivity. }
  destruct (awaiting_has_prompt _ _ _ _ Hstatus) as (_ & st & prompt & Est & Ep & Hne).
  assert (Hopen : generativeGate
                    (source_aiStrategy sd)
                    (scale (computePlacement (source_originalBounds sd)
                              (Resolver.target_bounds td) (source_aiStrategy sd)))
                    (handleConfirmGeneration i confirmations i) userCredits
                  = mkGate true success (Some prompt)).
  { rewrite Est. apply gate_approved; try assumption; try lia.
    unfold handleConfirmGeneration, flag_set. rewrite Nat.eqb_refl. reflexivity. }
  refine (conj _ (conj _ _)).
  - cbn [computeInstance instance_payload]. rewrite Es, Et.
    eexists. split; [reflexivity |].
    cbn [payload_requiresGeneration payload_status]. rewrite Hopen. split; reflexivity.
  - unfold instanceOverlay. cbn [computeInstance instance_payload instance_index].
    rewrite Es, Et. cbn [computePayload payload_previewUrl payload_status].
    rewrite Hopen. cbn [status isAwaiting]. unfold overlayControl. cbn [andb].
    destruct (truthyString _ || false); discriminate.
  - intros j Hj. unfold computeInstance, handleConfirmGeneration, flag_set.
    apply Nat.eqb_neq in Hj. rewrite Hj. reflexivity.
Qed.

(** X20: when lazy synthesis starts a draft.  For an instance of the node
    the test on the prompt is implied by the status: a draft is requested
    exactly when the payload is awaiting confirmation, carries no preview
    and no request is in flight; then the payload does not require
    generation and neither the upstream context nor the local state holds
    a preview for it. *)
Theorem lazy_synthesis_trigger :
  forall (confirmations : Flags bool) (previews : Flags string)
         (isGeneratingPreview : Flags bool) (i : nat),
    let instance := instanceAt confirmations previews i in
    needsDraft instance isGeneratingPreview
    = match instance_payload instance with
      | Some payload =>
          isAwaiting (payload_status payload)
          && negb (truthyString (payload_previewUrl payload))
          && negb (truthyBool (isGeneratingPreview i))
      | None => false
      end
    /\ (needsDraft instance isGeneratingPreview = true ->
        truthyString (previews i) = false
        /\ exists payload,
            instance_payload instance = Some payload
            /\ payload_status payload = awaiting_confirmation
            /\ payload_requiresGeneration payload = false).
Proof.
  intros confirmations previews flags i. cbn zeta.
  unfold needsDraft. cbn [computeInstance instance_payload instance_index instance_source].
  destruct (resolveSource id edges nodes resolvedRegistry i) as [sd |] eqn:Es;
    [| split; [reflexivity | intros H; discriminate H]].
  destruct (resolveTargetSide id edges templateRegistry i) as [td |] eqn:Et;
    [| split; [reflexivity | intros H; discriminate H]].
  cbn [computePayload payload_status payload_previewUrl payload_requiresGeneration].
  destruct (status (generativeGate _ _ _ _)) eqn:Est;
    cbn [isAwaiting andb]; try (split; [reflexivity | intros H; discriminate H]).
  destruct (awaiting_has_prompt _ _ _ _ Est) as (Hreq & st & prompt & Estr & Ep & Hne).
  rewrite Estr. cbn [optPrompt]. rewrite Ep, (truthyString_some prompt Hne).
  cbn [andb]. split; [reflexivity |].
  intros H. apply andb_true_iff in H. destruct H as [Hpv _].
  apply negb_true_iff in Hpv. rewrite truthy_orElse in Hpv.
  apply orb_false_iff in Hpv. destruct Hpv as [_ Hlocal].
  split; [exact Hlocal |]. eexists. split; [reflexivity |].
  cbn [payload_status payload_requiresGeneration]. rewrite <- Estr.
  split; [first [exact Est | reflexivity] | exact Hreq].
Qed.

End InstanceFacts.

Section DraftFacts.

Variable MAX_BOUNDARY_VIOLATION_PERCENT : Q.
Variable id : string.
Variable edges : list Edge.
Variable nodes : list GraphNode.
Variable resolvedRegistry : Dict (Dict MappingContext).
Variable templateRegistry : Dict TemplateMetadata.
Variable confirmations : Flags bool.
Variable userCredits : Z.

Local Abbreviation instanceWith previews :=
  (computeInstance MAX_BOUNDARY_VIOLATION_PERCENT id edges nodes resolvedRegistry
                   templateRegistry confirmations userCredits previews).

Lemma flag_set_same {V : Type} (i : nat) (v : V) (m : Flags V) :
  flag_set i v m i = Some v.
Proof. unfold flag_set. rewrite Nat.eqb_refl. reflexivity. Qed.

Lemma flag_set_other {V : Type} (i j : nat) (v : V) (m : Flags V) :
  j <> i -> flag_set i v m j = m j.
Proof.
  intros H. unfold flag_set. apply Nat.eqb_neq in H. rewrite H. reflexivity.
Qed.

(** X21: a draft that arrives.  When the response carries non-empty
    inline data, [generateDraft] stores the data URL under the instance's
    index, clears its in-flight flag and touches no other index; on the
    next pass no draft is requested for that instance, and its payload
    differs from the previous one at most in the preview URL, which is now
    set: status, requiresGeneration, scale and layers are the same. *)
Theorem draft_arrival :
  forall (previews : Flags string) (isGeneratingPreview : Flags bool) (i : nat)
         (parts : list (option (option string))) (data : string),
    firstInlineData parts = Some data ->
    data <> "" ->
    let state' := generateDraft i (Responded parts) (previews, isGeneratingPreview) in
    fst state' i = Some ("data:image/png;base64," ++ data)
    /\ snd state' i = Some false
    /\ (forall j, j <> i ->
                  fst state' j = previews j /\ snd state' j = isGeneratingPreview j)
    /\ needsDraft (instanceWith (fst state') i) (snd state') = false
    /\ (forall payload,
           instance_payload (instanceWith previews i) = Some payload ->
           exists payload',
             instance_payload (instanceWith (fst state') i) = Some payload'
             /\ truthyString (payload_previewUrl payload') = true
             /\ payload_status payload' = payload_status payload
             /\ payload_requiresGeneration payload' = payload_requiresGeneration payload
             /\ payload_scaleFactor payload' = payload_scaleFactor payload
             /\ payload_layers payload' = payload_layers payload).
Proof.
  intros previews flags i parts data Hdata Hne. cbn zeta.
  unfold generateDraft. rewrite Hdata, (truthyString_some data Hne).
  cbn [fst snd].
  assert (Hurl : truthyString (Some ("data:image/png;base64," ++ data)) = true)
    by reflexivity.
  refine (conj _ (conj _ (conj _ (conj _ _)))).
  - apply flag_set_same.
  - apply flag_set_same.
  - intros j Hj. split.
    + apply flag_set_other. exact Hj.
    + rewrite !(flag_set_other i j) by exact Hj. reflexivity.
  - unfold needsDraft.
    cbn [computeInstance instance_payload instance_index instance_source].
    destruct (resolveSource id edges nodes resolvedRegistry i) as [sd |];
      [| reflexivity].
    destruct (resolveTargetSide id edges templateRegistry i) as [td |];
      [| reflexivity].
    cbn [computePayload payload_previewUrl]. rewrite truthy_orElse.
    rewrite flag_set_same, Hurl, orb_true_r. cbn [negb].
    rewrite andb_false_r. reflexivity.
  - intros payload. cbn [computeInstance instance_payload].
    destruct (resolveSource id edges nodes resolvedRegistry i) as [sd |];
      [| intros E; discriminate E].
    destruct (resolveTargetSide id edges templateRegistry i) as [td |];
      [| intros E; discriminate E].
    intros E. injection E as <-. eexists. split; [reflexivity |].
    cbn [payload_previewUrl payload_status payload_requiresGeneration
         payload_scaleFactor payload_layers].
    rewrite truthy_orElse, flag_set_same, Hurl, orb_true_r.
    repeat split; reflexivity.
Qed.

(** X22: a draft that fails is asked for again.  When the request ends
    without usable data (no API key, an exception, or a response with no
    non-empty inline data), [generateDraft] leaves the previews as they
    were and clears the in-flight flag, so an instance that needed a draft
    before the request needs one again on the next pass. *)
Theorem failed_draft_is_retried :
  forall (previews : Flags string) (isGeneratingPreview : Flags bool) (i : nat)
         (outcome : DraftOutcome),
    match outcome with
    | Responded parts => truthyString (firstInlineData parts) = false
    | _ => True
    end ->
    needsDraft (instanceWith previews i) isGeneratingPreview = true ->
    let state' := generateDraft i outcome (previews, isGeneratingPreview) in
    fst state' = previews
    /\ snd state' i = Some false
    /\ needsDraft (instanceWith (fst state') i) (snd state') = true.
Proof.
  intros previews flags i outcome Hfail Hneeds. cbn zeta.
  assert (Hpv : fst (generateDraft i outcome (previews, flags)) = previews).
  { unfold generateDraft. destruct outcome as [| | parts]; cbn [fst];
      try reflexivity. cbn in Hfail. rewrite Hfail. reflexivity. }
  assert (Hfl : snd (generateDraft i outcome (previews, flags)) i = Some false).
  { unfold generateDraft. cbn [snd]. apply flag_set_same. }
  refine (conj Hpv (conj Hfl _)). rewrite Hpv.
  unfold needsDraft in *.
  cbn [computeInstance instance_payload instance_index instance_source] in *.
  rewrite Hfl. cbn [truthyBool negb].
  apply andb_true_iff in Hneeds. destruct Hneeds as [Hrest _].
  rewrite Hrest. reflexivity.
Qed.

(** X23: an unconnected instance is inert.  Without an edge into
    [source-in-<i>], or without one into [target-in-<i>], instance i is not
    ready on that side: it has no payload, renders no overlay, requests no
    draft, and syncing it leaves the payload registry untouched and
    dispatches nothing. *)
Theorem unconnected_instance_is_inert :
  forall (previews : Flags string) (isGeneratingPreview : Flags bool) (i : nat)
         (sameJson : TransformedPayload -> TransformedPayload -> bool)
         (registry : Dict (Dict TransformedPayload)),
    findEdge id edges ("source-in-" ++ decimal i) = None
    \/ findEdge id edges ("target-in-" ++ decimal i) = None ->
    let instance := instanceWith previews i in
    (instance_source instance = None \/ instance_target instance = None)
    /\ instance_payload instance = None
    /\ instance_strategyUsed instance = false
    /\ instanceOverlay instance confirmations previews userCredits = None
    /\ needsDraft instance isGeneratingPreview = false
    /\ syncPayloads sameJson id [instance] registry = (registry, []).
Proof.
  intros previews flags i same registry Hmissing. cbn zeta.
  assert (Hside : resolveSource id edges nodes resolvedRegistry i = None
                  \/ resolveTargetSide id edges templateRegistry i = None).
  { destruct Hmissing as [H | H]; [left | right].
    - unfold resolveSource. rewrite H. reflexivity.
    - unfold resolveTargetSide. rewrite H. reflexivity. }
  assert (Hpayload : instance_payload (instanceWith previews i) = None).
  { cbn [computeInstance instance_payload].
    destruct Hside as [H | H]; rewrite H; [reflexivity |].
    destruct (resolveSource id edges nodes resolvedRegistry i); reflexivity. }
  refine (conj _ (conj Hpayload (conj _ (conj _ (conj _ _))))).
  - exact Hside.
  - cbn [computeInstance instance_strategyUsed].
    destruct Hside as [H | H]; rewrite H; [reflexivity |].
    destruct (resolveSource id edges nodes resolvedRegistry i); reflexivity.
  - unfold instanceOverlay. rewrite Hpayload. reflexivity.
  - unfold needsDraft. rewrite Hpayload. cbn [andb].
    reflexivity.
  - cbn [syncPayloads]. rewrite Hpayload. reflexivity.
Qed.

End DraftFacts.

(** ** Payloads synced to the store *)

Lemma fst_registerPayload (sameJson : TransformedPayload -> TransformedPayload -> bool)
      (n h : string) (payload : TransformedPayload)
      (prev : Dict (Dict TransformedPayload)) :
  fst (Registry.registerPayload sameJson n h payload prev)
  = Registry.registerEntry sameJson n h payload prev.
Proof.
  unfold Registry.registerPayload, Registry.registerEntry.
  destruct (match prev n with Some r => r | None => dict_empty end h) as [cur |];
    [| reflexivity].
  destruct (sameJson cur payload); reflexivity.
Qed.

Lemma syncPayloads_cons (sameJson : TransformedPayload -> TransformedPayload -> bool)
      (id : string) (instance : InstanceData) (rest : list InstanceData)
      (registry : Dict (Dict TransformedPayload)) :
  fst (syncPayloads sameJson id (instance :: rest) registry)
  = fst (syncPayloads sameJson id rest
           match instance_payload instance with
           | Some payload =>
               Registry.registerEntry sameJson id
                 ("result-out-" ++ decimal (instance_index instance)) payload registry
           | None => registry
           end).
Proof.
  cbn [syncPayloads]. destruct (instance_payload instance) as [payload |];
    [| reflexivity].
  rewrite <- fst_registerPayload.
  destruct (Registry.registerPayload sameJson id _ payload registry) as [r1 ev].
  cbn [fst]. destruct (syncPayloads sameJson id rest r1) as [r2 evs]. reflexivity.
Qed.

Lemma syncPayloads_frame (sameJson : TransformedPayload -> TransformedPayload -> bool)
      (id : string) (insts : list InstanceData) :
  forall (registry : Dict (Dict TransformedPayload)) (n h : string),
    n <> id
    \/ Forall (fun inst => h <> "result-out-" ++ decimal (instance_index inst)) insts ->
    lookupEntry (fst (syncPayloads sameJson id insts registry)) n h
    = lookupEntry registry n h.
Proof.
  induction insts as [| inst rest IH]; intros registry n h Hfree; [reflexivity |].
  rewrite syncPayloads_cons.
  assert (Hrest : n <> id
                  \/ Forall (fun inst => h <> "result-out-" ++ decimal (instance_index inst))
                            rest).
  { destruct Hfree as [H | H]; [left; exact H | right]. inversion H. assumption. }
  rewrite (IH _ n h Hrest).
  destruct (instance_payload inst) as [payload |]; [| reflexivity].
  apply registerEntry_frame.
  destruct Hfree as [H | H]; [left; exact H | right]. inversion H. assumption.
Qed.

Lemma syncPayloads_stored (sameJson : TransformedPayload -> TransformedPayload -> bool)
      (id : string) (insts : list InstanceData) :
  NoDup (map instance_index insts) ->
  forall (registry : Dict (Dict TransformedPayload)) (inst : InstanceData)
         (payload : TransformedPayload),
    In inst insts ->
    instance_payload inst = Some payload ->
    exists stored,
      lookupEntry (fst (syncPayloads sameJson id insts registry)) id
                  ("result-out-" ++ decimal (instance_index inst))
      = Some stored
      /\ (stored = payload \/ sameJson stored payload = true).
Proof.
  induction insts as [| a rest IH]; intros Hnodup registry inst payload Hin Hp;
    [destruct Hin |].
  cbn [map] in Hnodup. inversion Hnodup as [| x xs Hnotin Hnodup']. subst.
  rewrite syncPayloads_cons. destruct Hin as [-> | Hin].
  - rewrite Hp. rewrite syncPayloads_frame.
    + destruct (registerEntry_stored TransformedPayload sameJson id
                  ("result-out-" ++ decimal (instance_index inst)) payload registry)
        as (stored & Hs & Hor).
      exists stored. split; [exact Hs |].
      destruct Hor as [-> | [_ Hsame]]; [left; reflexivity | right; exact Hsame].
    + right. apply Forall_forall. intros other Hother E.
      apply append_inj_l in E. apply decimal_inj in E.
      apply Hnotin. rewrite E. apply in_map. exact Hother.
  - apply IH; assumption.
Qed.

(** X24: after the payloads are synced to the store, the payload of every
    ready instance i can be read under (id, [result-out-<i>]): the entry is
    that payload, or one already stored with the same JSON text; the
    handles of different instances never collide, and entries of other
    nodes are untouched. *)
Theorem synced_payloads_are_readable :
  forall (MAX_BOUNDARY_VIOLATION_PERCENT : Q) (id : string)
         (dataInstanceCount : option nat) (edges : list Edge)
         (nodes : list GraphNode) (resolvedRegistry : Dict (Dict MappingContext))
         (templateRegistry : Dict TemplateMetadata) (confirmations : Flags bool)
         (userCredits : Z) (previews : Flags string)
         (sameJson : TransformedPayload -> TransformedPayload -> bool)
         (registry : Dict (Dict TransformedPayload)) (i : nat)
         (payload : TransformedPayload),
    (i < instanceCount dataInstanceCount)%nat ->
    instance_payload
      (computeInstance MAX_BOUNDARY_VIOLATION_PERCENT id edges nodes resolvedRegistry
                       templateRegistry confirmations userCredits previews i)
    = Some payload ->
    let registry' :=
      fst (syncPayloads sameJson id
             (instances MAX_BOUNDARY_VIOLATION_PERCENT id dataInstanceCount edges
                        nodes resolvedRegistry templateRegistry confirmations
                        userCredits previews)
             registry) in
    (exists stored,
        lookupEntry registry' id ("result-out-" ++ decimal i) = Some stored
        /\ (stored = payload \/ sameJson stored payload = true))
    /\ (forall j, i <> j -> "result-out-" ++ decimal i <> "result-out-" ++ decimal j)
    /\ (forall n h, n <> id -> lookupEntry registry' n h = lookupEntry registry n h).
Proof.
  intros p id d edges nodes resolved templates confirmations credits previews
         same registry i payload Hi Hp. cbn zeta.
  refine (conj _ (conj _ _)).
  - apply (syncPayloads_stored same id
             (instances p id d edges nodes resolved templates confirmations credits
                        previews)
             ltac:(unfold instances; rewrite map_map; cbn [computeInstance instance_index];
                   rewrite map_id; apply seq_NoDup)
             registry
             (computeInstance p id edges nodes resolved templates confirmations
                              credits previews i)
             payload).
    + unfold instances. apply in_map. apply in_seq. lia.
    + exact Hp.
  - intros j Hij E. apply append_inj_l in E. apply decimal_inj in E. contradiction.
  - intros n h Hn. apply syncPayloads_frame. left. exact Hn.
Qed.

(** ** Overrides against the clamp *)

(** X25: how far an override is honoured.  For a target of non-negative
    height and a non-negative bleed fraction, an overridden layer is
    emitted exactly at target y + yOffset when the offset lies between
    -bleed and targetH + bleed; an offset beyond that pins the layer to the
    lower bound targetY - bleed or to the upper bound targetY + targetH +
    bleed, where bleed = targetH * MAX_BOUNDARY_VIOLATION_PERCENT. *)
Theorem override_clamp_cases :
  forall (MAX_BOUNDARY_VIOLATION_PERCENT : Q) (sourceRect targetRect : Rect)
         (strategy : option LayoutStrategy) (placement : Placement)
         (layer : SerializableLayer) (o : Override) (parentDeltaX parentDeltaY : Q),
    findOverride strategy (layer_id layer) = Some o ->
    0 <= rh targetRect ->
    0 <= MAX_BOUNDARY_VIOLATION_PERCENT ->
    let y := ry (t_coords (transformLayer MAX_BOUNDARY_VIOLATION_PERCENT sourceRect
                                          targetRect strategy placement layer
                                          parentDeltaX parentDeltaY)) in
    let bleed := rh targetRect * MAX_BOUNDARY_VIOLATION_PERCENT in
    (- bleed <= yOffset o /\ yOffset o <= rh targetRect + bleed ->
     y == ry targetRect + yOffset o)
    /\ (rh targetRect + bleed <= yOffset o ->
        y == ry targetRect + rh targetRect + bleed)
    /\ (yOffset o <= - bleed -> y == ry targetRect - bleed).
Proof.
  intros p s t strategy pl layer o dx dy E Hth Hp. cbn zeta.
  rewrite transformLayer_eq. cbn zeta. cbn [t_coords ry].
  rewrite (placeLayer_override s t strategy pl layer o dx dy E). cbn [finalY].
  assert (Hbleed : 0 <= rh t * p) by (apply Qmult_le_0_compat; assumption).
  unfold clampY, minY, maxY, bleedY.
  generalize dependent (rh t * p). intros bleed Hbleed.
  refine (conj _ (conj _ _)).
  - intros [Hlo Hhi].
    rewrite (Q.min_l (ry t + yOffset o) (ry t + rh t + bleed)) by lra.
    apply Q.max_r. lra.
  - intros Hhi.
    rewrite (Q.min_r (ry t + yOffset o) (ry t + rh t + bleed)) by lra.
    apply Q.max_r. lra.
  - intros Hlo.
    rewrite (Q.min_l (ry t + yOffset o) (ry t + rh t + bleed)) by lra.
    apply Q.max_l. lra.
Qed.

(** ** Credits across renders *)

(** X26: purchases separated by renders are safe.  Starting from a fresh
    render with a non-negative balance, a sequence of [consumeCredit] calls
    of non-negative amounts, each followed by a render, never takes the
    balance below zero nor above where it started, reports one result per
    call, and leaves a state whose captured balance is again the balance of
    the cell; a call for more than the balance at that moment is refused
    and changes nothing. *)
Theorem purchases_between_renders_are_safe :
  forall (amounts : list Z) (s : Store.CreditState),
    Forall (fun a => (0 <= a)%Z) amounts ->
    Store.rendered s = Store.current s ->
    (0 <= Store.current s)%Z ->
    let results := fst (Store.consumeEach amounts s) in
    let s' := snd (Store.consumeEach amounts s) in
    (0 <= Store.current s' <= Store.current s)%Z
    /\ List.length results = List.length amounts
    /\ Store.rendered s' = Store.current s'
    /\ (forall a rest,
           amounts = a :: rest ->
           (Store.current s < a)%Z ->
           hd_error results = Some false
           /\ Store.consumeEach amounts s
              = (false :: fst (Store.consumeEach rest (Store.render s)),
                 snd (Store.consumeEach rest (Store.render s)))).
Proof.
  intros amounts s Hamounts. revert s.
  induction Hamounts as [| a rest Ha Hrest IH]; intros s Hfresh Hs; cbn zeta.
  - cbn. refine (conj _ (conj eq_refl (conj Hfresh _))); [lia |].
    intros a rest E. discriminate E.
  - cbn [Store.consumeEach]. unfold Store.consumeCredit. rewrite Hfresh.
    destruct (Z.geb_spec (Store.current s) a) as [Hge | Hlt].
    + specialize (IH (Store.render (Store.mkCredits (Store.current s)
                                                    (Store.current s - a)))
                     eq_refl ltac:(cbn; lia)).
      cbn zeta in IH. destruct IH as (Hbounds & Hlen & Hsync & _).
      destruct (Store.consumeEach rest _) as [oks s2] eqn:E.
      cbn [fst snd Store.render Store.current] in *.
      refine (conj _ (conj _ (conj Hsync _))).
      * lia.
      * cbn. rewrite Hlen. reflexivity.
      * intros a' rest' Ea Hlow. injection Ea as <- <-. lia.
    + specialize (IH (Store.render s) eq_refl ltac:(cbn; lia)).
      cbn zeta in IH. destruct IH as (Hbounds & Hlen & Hsync & _).
      destruct (Store.consumeEach rest (Store.render s)) as [oks s2] eqn:E.
      cbn [fst snd Store.render Store.current] in *.
      refine (conj _ (conj _ (conj Hsync _))).
      * lia.
      * cbn. rewrite Hlen. reflexivity.
      * intros a' rest' Ea Hlow. injection Ea as <- <-.
        rewrite E. split; reflexivity.
Qed.

(** ** The further theorems at concrete inputs *)

(** X26: three purchases of one credit each from a balance of two. *)
Lemma purchases_between_renders_are_safe_witness :
  let s' := snd (Store.consumeEach [1; 1; 1]%Z (Store.mkCredits 2 2)) in
  (0 <= Store.current s' <= 2)%Z
  /\ fst (Store.consumeEach [1; 1; 1]%Z (Store.mkCredits 2 2)) = [true; true; false].
Proof.
  destruct (purchases_between_renders_are_safe [1; 1; 1]%Z (Store.mkCredits 2 2))
    as (Hbounds & _).
  - repeat constructor; discriminate.
  - reflexivity.
  - discriminate.
  - cbn zeta. split; [exact Hbounds | reflexivity].
Defined.

(** X1 on the demo template: [target-out-1] resolves to the footer. *)
Lemma resolveTarget_member_witness :
  exists c,
    In c demo_containers
    /\ Resolver.resolveContainer demo_containers "target-out-1" = Some c
    /\ Resolver.target_bounds (Resolver.mkTarget "Footer" (mkRect 0 100 100 20))
       = Resolver.bounds c
    /\ demo_containers <> [].
Proof.
  apply (resolveTarget_member demo_containers "target-out-1"
                              (Resolver.mkTarget "Footer" (mkRect 0 100 100 20))).
  reflexivity.
Defined.

(** X3 on the demo template, index 1. *)
Lemma indexed_handle_resolves_witness :
  Resolver.indexMatch ("target-out-" ++ decimal 1) = Some (N.of_nat 1)
  /\ Resolver.resolveContainer demo_containers ("target-out-" ++ decimal 1)
     = match nth_error demo_containers 1 with
       | Some c => Some c
       | None => match demo_containers with
                 | [c] => Some c
                 | _ => None
                 end
       end.
Proof. apply (indexed_handle_resolves demo_containers 1). reflexivity. Defined.

(** X4 on the demo template, name Footer. *)
Lemma slot_bounds_handle_resolves_witness :
  Resolver.resolveContainer demo_containers ("slot-bounds-" ++ "Footer")
  = match Resolver.findByName demo_containers "Footer" with
    | Some c => Some c
    | None => match demo_containers with
              | [c] => Some c
              | _ => None
              end
    end.
Proof. apply (slot_bounds_handle_resolves demo_containers "Footer"). reflexivity. Defined.

(** X5 on the scenario rects: the scale fills the width. *)
Lemma default_scale_is_largest_fit_witness :
  let sc := scale (computePlacement scenario_source scenario_target None) in
  0 < sc
  /\ rw scenario_source * sc <= rw scenario_target
  /\ rh scenario_source * sc <= rh scenario_target
  /\ (rw scenario_source * sc == rw scenario_target
      \/ rh scenario_source * sc == rh scenario_target)
  /\ (forall k : Q,
         rw scenario_source * k <= rw scenario_target ->
         rh scenario_source * k <= rh scenario_target ->
         k <= sc).
Proof.
  apply (default_scale_is_largest_fit scenario_source scenario_target); evaluated.
Defined.

Lemma plain_forest_unmatched :
  Forall (fun l => findOverride (Some plain_strategy) (layer_id l) = None)
         (flat_map allSourceLayers plain_forest).
Proof. repeat constructor. Defined.

(** X6 on the plain forest under a delta of (3, 4). *)
Lemma override_free_forest_follows_delta_witness :
  map t_coords
      (flat_map allLayers
                (transformLayers demo_bleed demo_source demo_target
                                 (Some plain_strategy)
                                 (computePlacement demo_source demo_target
                                                   (Some plain_strategy))
                                 plain_forest 3 4))
  = map (plainCoords demo_bleed demo_source demo_target
                     (computePlacement demo_source demo_target (Some plain_strategy))
                     3 4)
        (flat_map allSourceLayers plain_forest).
Proof.
  apply (override_free_forest_follows_delta demo_bleed demo_source demo_target
           (Some plain_strategy)
           (computePlacement demo_source demo_target (Some plain_strategy))
           plain_forest 3 4).
  exact plain_forest_unmatched.
Defined.

Lemma plain_forest_inside :
  Forall (fun l => insideRect (layer_coords l) demo_source
                   /\ 0 <= rh (layer_coords l))
         (flat_map allSourceLayers plain_forest).
Proof.
  repeat constructor; cbn; try discriminate.
Defined.

(** X7 on the plain forest, remapped into the scenario target. *)
Lemma default_placement_contains_witness :
  Forall (fun node => insideRect (t_coords node) scenario_target)
         (flat_map allLayers
                   (transformLayers demo_bleed demo_source scenario_target None
                                    (computePlacement demo_source scenario_target None)
                                    plain_forest 0 0)).
Proof.
  apply (default_placement_contains demo_bleed demo_source scenario_target
                                    plain_forest); try evaluated.
  exact plain_forest_inside.
Defined.

(** X8 on the plain forest, whose strategy names a layer that is absent. *)
Lemma unmatched_overrides_ignored_witness :
  let sourceData := mkSource (Some "Plain") None plain_forest demo_source
                             (Some plain_strategy) None in
  computePayload demo_bleed (Some sourceData) (Some demo_targetData) None 5%Z None
  = computePayload demo_bleed
                   (Some (mkSource (source_name sourceData) (source_nodeId sourceData)
                                   (source_layers sourceData)
                                   (source_originalBounds sourceData)
                                   (Some (withoutOverrides plain_strategy))
                                   (source_previewUrl sourceData)))
                   (Some demo_targetData) None 5%Z None.
Proof.
  apply (unmatched_overrides_ignored
           demo_bleed
           (mkSource (Some "Plain") None plain_forest demo_source
                     (Some plain_strategy) None)
           demo_targetData None 5%Z None plain_strategy eq_refl).
  exact plain_forest_unmatched.
Defined.

(** X9 on the confirmed demo instance. *)
Lemma payload_metadata_consistent_witness :
  exists payload,
    computePayload demo_bleed (Some demo_sourceData) (Some demo_targetData)
                   (Some true) 5%Z None = Some payload
    /\ Forall (fun node =>
                 offsetX (t_transform node) = rx (t_coords node)
                 /\ offsetY (t_transform node) = ry (t_coords node)
                 /\ scaleX (t_transform node) = scaleY (t_transform node))
              (flat_map allLayers (payload_layers payload)).
Proof.
  eexists. split; [reflexivity |].
  apply (payload_metadata_consistent demo_bleed (Some demo_sourceData)
                                     (Some demo_targetData) (Some true) 5%Z None).
  reflexivity.
Defined.

(** X10 on the confirmed title instance with five credits: the prompt is
    ASCII and shorter than 20 characters, so the layer's name quotes it
    whole. *)
Lemma gate_inversion_witness :
  exists payload gen rest,
    computePayload demo_bleed (Some demo_sourceData) (Some demo_targetData)
                   (Some true) 5%Z None = Some payload
    /\ payload_requiresGeneration payload = true
    /\ payload_status payload = success
    /\ (5 > 0)%Z
    /\ payload_layers payload = gen :: rest
    /\ t_coords gen = demo_target
    /\ t_generativePrompt gen = Some "a sunset sky"
    /\ t_name gen = "✨ AI Gen: a sunset sky...".
Proof.
  destruct (gate_inversion demo_bleed demo_sourceData demo_targetData (Some true)
                           5%Z None _ eq_refl) as [Hreq _].
  destruct (Hreq eq_refl)
    as (_ & Hcredits & Hstatus & prompt & gen & Ep & _ & El & _ & _ & _ & _ & Hc
        & _ & Hp & _ & Hn).
  injection Ep as <-.
  eexists. exists gen. eexists.
  split; [reflexivity |]. split; [reflexivity |].
  split; [exact Hstatus |]. split; [exact Hcredits |].
  split; [exact El |]. split; [exact Hc |]. split; [exact Hp |].
  apply Hn. reflexivity.
Defined.

(** X15 on the demo graph: the analyst's entry, registered with a prompt,
    is replaced by its GEOMETRIC successor, which still carries the prompt
    and a ghost; the confirmed instance with five credits stays
    geometric. *)
Lemma geometric_context_never_generates_witness :
  let next :=
    Registry.registerResolved demo_sameContext "analyst-1" "source-out-0"
                              demo_geometric_context demo_resolvedRegistry in
  (lookupEntry demo_resolvedRegistry "analyst-1" "source-out-0" = Some demo_context
   /\ demo_sameContext demo_context (Registry.sanitizeContext demo_geometric_context)
      = false)
  /\ exists payload,
      instance_payload
        (computeInstance demo_bleed "remap-1" demo_edges demo_nodes next
                         demo_templateRegistry
                         (handleConfirmGeneration 0 demo_unconfirmed) 5%Z
                         demo_noPreviews 0)
      = Some payload
      /\ payload_requiresGeneration payload = false
      /\ payload_status payload = success
      /\ payload_previewUrl payload = None.
Proof.
  destruct (geometric_context_never_generates
              demo_sameContext "analyst-1" "source-out-0"
              demo_geometric_context demo_resolvedRegistry
              (mkAnalyst "GEOMETRIC" demo_strategy) eq_refl eq_refl
              ltac:(discriminate)
              ltac:(intros current E; vm_compute in E; injection E as <-;
                    reflexivity))
    as (_ & _ & Hinst).
  destruct (Hinst demo_bleed "remap-1" demo_edges demo_nodes demo_templateRegistry
                  (handleConfirmGeneration 0 demo_unconfirmed) 5%Z
                  demo_noPreviews 0%nat
                  (mkEdge "analyst-1" (Some "source-out-0") "remap-1"
                          (Some "source-in-0"))
                  demo_targetData eq_refl eq_refl eq_refl eq_refl)
    as (payload & E & Hreq & Hstatus & _ & Hpreview & _).
  cbn zeta. split; [split; reflexivity |]. exists payload.
  split; [exact E |]. split; [exact Hreq |]. split; [exact Hstatus | exact Hpreview].
Defined.

(** The store file the node imports by name registers a context as it is:
    there the same registration leaves the prompt in place, and the
    confirmed instance generates. *)
Example unsanitized_registration_generates :
  let next :=
    Registry.registerEntry demo_sameContext "analyst-1" "source-out-0"
                           demo_geometric_context demo_resolvedRegistry in
  option_map (fun payload =>
                (payload_requiresGeneration payload, payload_previewUrl payload))
             (instance_payload
                (computeInstance demo_bleed "remap-1" demo_edges demo_nodes next
                                 demo_templateRegistry
                                 (handleConfirmGeneration 0 demo_unconfirmed) 5%Z
                                 demo_noPreviews 0))
  = Some (true, Some "data:image/png;base64,AAAA").
Proof. reflexivity. Qed.

(** X12 on a registry of strings compared by equality. *)
Lemma registerEntry_idempotent_witness :
  Registry.registerEntry String.eqb "node" "handle" "value"
    (Registry.registerEntry String.eqb "node" "handle" "value" dict_empty)
  = Registry.registerEntry String.eqb "node" "handle" "value" dict_empty.
Proof.
  apply (registerEntry_idempotent string String.eqb "node" "handle" "value" dict_empty).
  exact String.eqb_refl.
Defined.

(** X19: the demo instance with a ghost preview offers the button. *)
Lemma confirm_button_opens_gate_witness :
  instanceOverlay (demo_instance demo_unconfirmed demo_ghost 0) demo_unconfirmed
                  demo_ghost 5%Z = Some ConfirmButton
  /\ exists payload,
      instance_payload
        (demo_instance (handleConfirmGeneration 0 demo_unconfirmed) demo_ghost 0)
      = Some payload
      /\ payload_requiresGeneration payload = true
      /\ payload_status payload = success.
Proof.
  split; [reflexivity |].
  apply (confirm_button_opens_gate demo_bleed "remap-1" demo_edges demo_nodes
                                   demo_resolvedRegistry demo_templateRegistry 5%Z
                                   demo_unconfirmed demo_ghost 0).
  reflexivity.
Defined.

(** X21: a draft arrives for the demo instance. *)
Lemma draft_arrival_witness :
  let state' := generateDraft 0 (Responded [None; Some (Some "AAAA")])
                              (demo_noPreviews, demo_idle) in
  fst state' 0%nat = Some ("data:image/png;base64," ++ "AAAA")
  /\ snd state' 0%nat = Some false
  /\ needsDraft (demo_instance demo_unconfirmed (fst state') 0) (snd state') = false.
Proof.
  destruct (draft_arrival demo_bleed "remap-1" demo_edges demo_nodes
                          demo_resolvedRegistry demo_templateRegistry
                          demo_unconfirmed 5%Z demo_noPreviews demo_idle 0
                          [None; Some (Some "AAAA")] "AAAA" eq_refl)
    as (Hurl & Hflag & _ & Hneeds & _); [discriminate |].
  cbn zeta. split; [exact Hurl |]. split; [exact Hflag | exact Hneeds].
Defined.

(** X22: without an API key the demo instance keeps asking. *)
Lemma failed_draft_is_retried_witness :
  needsDraft (demo_instance demo_unconfirmed demo_noPreviews 0) demo_idle = true
  /\ let state' := generateDraft 0 NoApiKey (demo_noPreviews, demo_idle) in
     fst state' = demo_noPreviews
     /\ snd state' 0%nat = Some false
     /\ needsDraft (demo_instance demo_unconfirmed (fst state') 0) (snd state') = true.
Proof.
  split; [reflexivity |].
  apply (failed_draft_is_retried demo_bleed "remap-1" demo_edges demo_nodes
                                 demo_resolvedRegistry demo_templateRegistry
                                 demo_unconfirmed 5%Z demo_noPreviews demo_idle 0
                                 NoApiKey I).
  reflexivity.
Defined.

(** X23: the demo node has no edge into [source-in-1]. *)
Lemma unconnected_instance_is_inert_witness :
  let instance := demo_instance demo_unconfirmed demo_noPreviews 1 in
  (instance_source instance = None \/ instance_target instance = None)
  /\ instance_payload instance = None
  /\ instance_strategyUsed instance = false
  /\ instanceOverlay instance demo_unconfirmed demo_noPreviews 5%Z = None
  /\ needsDraft instance demo_idle = false
  /\ syncPayloads demo_neverSame "remap-1" [instance] dict_empty = (dict_empty, []).
Proof.
  apply (unconnected_instance_is_inert demo_bleed "remap-1" demo_edges demo_nodes
                                       demo_resolvedRegistry demo_templateRegistry
                                       demo_unconfirmed 5%Z demo_noPreviews demo_idle 1
                                       demo_neverSame dict_empty).
  left. reflexivity.
Defined.

(** X24: the demo node with two instances; the first is ready. *)
Lemma synced_payloads_are_readable_witness :
  exists payload stored,
    instance_payload (demo_instance demo_unconfirmed demo_noPreviews 0) = Some payload
    /\ lookupEntry
         (fst (syncPayloads demo_neverSame "remap-1"
                 (instances demo_bleed "remap-1" (Some 2%nat) demo_edges demo_nodes
                            demo_resolvedRegistry demo_templateRegistry
                            demo_unconfirmed 5%Z demo_noPreviews)
                 dict_empty))
         "remap-1" ("result-out-" ++ decimal 0)
       = Some stored
    /\ (stored = payload \/ demo_neverSame stored payload = true).
Proof.
  destruct (instance_payload (demo_instance demo_unconfirmed demo_noPreviews 0))
    as [payload |] eqn:E; [| discriminate E].
  destruct (synced_payloads_are_readable
              demo_bleed "remap-1" (Some 2%nat) demo_edges demo_nodes
              demo_resolvedRegistry demo_templateRegistry demo_unconfirmed 5%Z
              demo_noPreviews demo_neverSame dict_empty 0 payload)
    as [(stored & Hs & Hor) _].
  - cbn. lia.
  - exact E.
  - exists payload, stored. split; [reflexivity |]. split; [exact Hs | exact Hor].
Defined.

(** X25 on the title of the demo instance, whose override lies 50 above the
    slot. *)
Lemma override_clamp_cases_witness :
  ry (t_coords (transformLayer demo_bleed demo_source demo_target
                               (Some demo_strategy) demo_placement demo_title 0 0))
  == ry demo_target - rh demo_target * demo_bleed.
Proof.
  destruct (override_clamp_cases demo_bleed demo_source demo_target
                                 (Some demo_strategy) demo_placement demo_title
                                 demo_override 0 0 eq_refl
                                 ltac:(evaluated) ltac:(evaluated))
    as (_ & _ & Hlow).
  apply Hlow. evaluated.
Defined.
